(* ===== verification/_CoqProject ===== *)
-Q . S2P
Prelude.v
CRuntime.v
McdcState.v
Matcher.v
Alloc.v
CoverageSpec.v
Report.v
Strncmp.v
Protocol.v
Concurrency.v
Harness.v
