(* ===== verification/Prelude.v ===== *)
(** * A verification development for the mcdc-tracker C library

    The program (src/mcdc.h, src/mcdc.c, src/test/strncmp.c) is a small
    MC/DC coverage engine.  A test driver allocates a "table" per decision
    ([mcdc_alloc_table]), registers its expected condition rows one by one
    ([mcdc_register_row], through the global cursor [m_nrows]); the code
    under test reports observed condition vectors ([mcdc_check_row]), which
    mark the first equal expected row as checked; [mcdc_check_mcdc] prints
    a PASS/FAIL report per table.  All state is global: the context
    [m_mcdc_context] (a heap array of [mcdc_table_t] records and its
    length), the cursor [m_nrows] and the allocation scratch variables
    [m_ret_malloc], [m_rows], [m_cols].  The tables' matrices and check
    flags are separate [calloc]'ed [_Bool] buffers.

    ** Files, in dependency order

    - [Prelude] (this file): unsigned 32-bit arithmetic ([u32],
      [is_u32]), the C-execution monad [cm] (explicit state passing with a
      [fault] for undefined behaviour; [let* x := m in k] and [m ;; k] in
      [cm_scope]), the equivalence [m1 ≈ m2] of computations with the
      [Proper] instance of [cbind] for setoid rewriting under binders,
      byte-slice helpers ([slice], [splice]) with their lemmas, list and
      [mapM] lemmas, the hint database [mcdc] and the shared tactics.
    - [CRuntime]: the part of libc the sources call, as an environment:
      a heap of [_Bool] buffers ([gmap N (list bool)]), [calloc] whose
      success or failure is read from an allocation plan, [errno], the
      output streams, [memcpy]/[memcmp]/reads on heap buffers with bounds
      checks, and the [printf] conversions used ([%u], [%d], [%39s]).
      Not repository code: its definitions are not mapped.
    - [McdcState]: the types of src/mcdc.h ([mcdc_table_t],
      [mcdc_context_t]), the globals of src/mcdc.c, the program state
      [pstate], and the well-formedness invariant [wf].
    - [Matcher]: [mcdc_register_row] and [mcdc_check_row] (src/mcdc.c
      51-72) and the macro [MCDC_REGISTER] (src/mcdc.h 30): registration
      at the cursor and the first-match scan, related to the pure search
      [find_row].
    - [Alloc]: [try], [try_mcdc_alloc_checks], [try_mcdc_alloc_table],
      [mcdc_alloc_table] (src/mcdc.c 113-196), with the growth of the
      context array through [calloc]/[realloc] and the [memset] of line
      180.
    - [CoverageSpec]: the abstract coverage engine of the specification
      (tables as lists of expected rows with observed flags, errors as
      [aerror] values), the abstraction function [abs] from [pstate], the
      refinement theorems of the three state-changing operations, the
      API-call step relations [reachable] (arguments a caller may pass,
      table sizes that fit) and [reachable_typed] (any arguments of their
      C types) and their invariants.
    - [Report]: [mcdc_check_mcdc] (src/mcdc.c 74-107) and the report
      [a_report] the specification describes over abstract tables.
    - [Strncmp]: [spt_strncmp] (src/test/strncmp.c 3-33), written against
      the interface class [McdcProbe] (what instrumented code needs of the
      library: [MCDC_CHECK]); [probe_mcdc] implements it with
      [mcdc_check_row], [probe_log] with a log of the calls.
    - [Protocol]: the driver protocol as sequences of calls:
      [register_rows] (the harness's run of [MCDC_REGISTER]s) and
      [run_probes] of [MCDC_CHECK]s, their counterparts [a_registers] and
      [a_probes] over the specification's state, and [runs_to], the
      states a caller can reach by further API calls; the round trip of
      section 8 (allocate, register, check, report) composes them with
      the report.
    - [Concurrency]: concurrent calls (section 5 of the specification):
      [mcdc_register_row] and [mcdc_check_row] as [thread]s whose
      [thread_step] makes one access to shared memory at a time, in the
      order of the C code; [cstep] interleaves any unfinished thread's
      next step, and [rtc cstep] is a run ([run_sched] runs a given
      schedule).
    - [Harness]: [test_strncmp] and [main] (src/test/strncmp.c 42-97),
      and [main] under every allocation plan.

    ** Modelling choices

    - Integers: [unsigned int] values are [Z] in [0, 2^32); the products
      and decrements that can wrap are wrapped with [u32] ([m_rows *
      m_cols], [m_nrows * cols], [i * cols], [row * cols + col], [len -
      1], [m_nrows++], [len++]).  Loop counters bounded by a [rows], [len]
      or [n] that is at most [UINT_MAX] are incremented without [u32]:
      they stay below the bound, so the wrap never happens.
    - Undefined behaviour is a value: a read or write outside a buffer, a
      dereference of NULL or a read of an uninitialised context slot ends
      the run with [Fault].  The one exception is the [memset] of
      src/mcdc.c:180, which writes past the reallocated context array:
      it lands outside every object the model tracks, so it is recorded
      in the [wild] log of the libc state and the run goes on.
    - [calloc]/[realloc] consult the allocation plan (a list of outcomes,
      success once exhausted); failure returns NULL and sets [errno] to
      [ENOMEM].  [memcmp] is modelled by its use, equality of the
      compared bytes; [_Bool] bytes are [bool]; [char] is a signed byte.
    - Loops and fuel: each C [for] loop is a recursion on a count of
      remaining iterations equal to its trip count, because its bound is
      a field of a local copy ([this.rows], [this.cols]) or [len], which
      nothing in the loop changes.  The [while] of [spt_strncmp] takes
      fuel [n + 1]; every iteration needs [i < n], so it never runs out
      ([Strncmp.spt_strncmp_terminates]).
    - Allocation plans: [main] makes six allocation requests (flags,
      matrix and context array for each of its two tables) and nothing
      after them reads the plan, so the theorem over every plan
      ([Harness.main_allocation_plans]) is decided by the plans of fewer
      than six outcomes and the six-outcome prefixes of longer ones, all
      of which are enumerated.
    - The report's text is reproduced character for character; C strings
      of the harness are arrays of [char] values with their NUL.
    - Concurrency: the sequential files treat every call as one step.
      [Concurrency] refines registration and checking into their memory
      accesses and interleaves them under sequential consistency; each
      [memcmp] and [memcpy] is one atomic access (the bytes a [memcmp]
      reads do not change while checks run, so a finer grain changes
      nothing there).  Allocation and the report stay atomic: the
      protocol runs them from the single driver thread.  Weak memory and
      the C11 rule that an unsynchronised race is undefined are not
      modelled.
    - Not modelled: the preprocessor beyond the two macros (header
      guard, includes), [free] (the library never frees).

    ** Theorems, by group

    - [Matcher]: first-match marking (C1), the no-match no-op (C2),
      registration at the cursor (C3); registering past the row count,
      checking an out-of-range index, or registering with no table is
      undefined behaviour (C14-C16), where the specification wants errors.
    - [Alloc]: a successful allocation appends a zeroed table and resets
      the cursor (C4); a failed one adds no table (C18) but still resets
      the cursor, so later registrations overwrite the previous table
      (C19), and leaks the buffer that was allocated (C20); every
      allocation after the first writes past the context array (C21); the
      matrix size wraps at 2^32 (C22); when the context array cannot grow
      the code dereferences NULL (C38); [try] restores the caller's
      [errno] and reports exactly the failed requests (C39).
    - [CoverageSpec]: every state reached by calls with arguments of their
      C types, wrapping table sizes included, is well formed (C5); check,
      registration and successful allocation refine the specification's
      operations (C6-C8); a failed allocation diverges from it (C17);
      registration touches only the last table (C30).
    - [Report]: the printed report is exactly the specification's report
      of the abstract state (C9); for any table with its flag buffer,
      the counting loop counts the set flags and the header says PASS
      exactly when all are set (C10); reporting is read-only and
      idempotent (C11).
    - [Strncmp]: for every probe, the comparison makes the probes of a
      pure trace and returns a pure result (C12); it terminates (C23),
      agrees with the standard [strncmp] on ASCII (C24), dereferences
      NULL despite its test (C25), reads one past arrays of [n]
      characters (C26) and, on any two strings, compares signed
      [char]s: its result and the standard's (unsigned) one have
      opposite signs exactly when one of the first differing chars is
      a byte of 128 or more (C27).
    - [Harness]: under every allocation plan the sample program returns
      0 with its exact output when its six allocation requests succeed
      and faults when any fails (C13); and the test loop over any
      list of cases: it returns the number of passing cases, prints the
      failure line of each other case and records exactly the
      specification's checks of all the cases' traces (C37).
    - [Protocol]: the abstract tables of every reachable state are well
      typed (C32); a sequence of checks sets exactly the first matches
      of the observed vectors (C33); a table with distinct rows is
      eventually passed (C34, liveness as [runs_to]), one with a
      repeated row never is (C35); rows registered after an allocation
      read back in order (C36); from any reachable state the round trip
      of section 8 (allocate any table, register its rows, check vectors,
      report) prints a row as Checked exactly when it was observed (C28);
      the instrumented [spt_strncmp] with the
      library's probe records exactly the specification's checks of its
      trace, keeps the invariant and prints nothing
      ([strncmp_coverage_inv]); a table with no columns
      has its first row marked by every vector, where the specification
      changes nothing (C31).
    - [Concurrency]: from any reachable state with room for two rows,
      both sequential orders of two registrations register both rows,
      while interleavings lose a row or a row and an increment of the
      cursor (C29); concurrent checks are
      serialisable: no interleaving faults, each can be completed, and
      all end in the state of the same checks in any sequential order
      (C40). *)

From stdpp Require Export base list gmap strings.
From Stdlib Require Export ZArith Lia.

(** ** Unsigned 32-bit integers *)

Definition UINT_MAX : Z := 2 ^ 32 - 1.

(** The value an [unsigned int] holds after an arithmetic result [z]. *)
Definition u32 (z : Z) : Z := z mod 2 ^ 32.

Definition is_u32 (z : Z) : Prop := (0 <= z <= UINT_MAX)%Z.

#[export] Instance is_u32_dec z : Decision (is_u32 z).
Proof. unfold is_u32. apply _. Defined.

Lemma u32_range z : is_u32 (u32 z).
Proof. unfold is_u32, u32, UINT_MAX. pose proof (Z.mod_pos_bound z (2 ^ 32)). lia. Qed.

Lemma u32_small z : is_u32 z -> u32 z = z.
Proof. unfold is_u32, u32, UINT_MAX. intros. apply Z.mod_small. lia. Qed.

Lemma u32_nonneg z : (0 <= u32 z)%Z.
Proof. apply u32_range. Qed.

Lemma u32_le z : (0 <= z)%Z -> (u32 z <= z)%Z.
Proof. intros. unfold u32. apply Z.mod_le; lia. Qed.

Lemma u32_pred_zero : u32 (0 - 1) = UINT_MAX.
Proof. reflexivity. Qed.

(** ** The C-execution monad *)

(** Why a run stops: undefined behaviour at a named site of the source, or
    a loop model that ran out of fuel. *)
Inductive fault : Type :=
  | NullDeref (site : string)
  | OutOfBounds (site : string)
  | Uninitialized (site : string)
  | OutOfFuel (site : string).

#[export] Instance fault_eq_dec : EqDecision fault.
Proof. solve_decision. Defined.

Inductive cres (A : Type) : Type :=
  | Ret (a : A)
  | Fault (f : fault).
Arguments Ret {A} a.
Arguments Fault {A} f.

(** A computation over state [S] that returns an [A] or faults. *)
Definition cm (S A : Type) : Type := S -> cres (A * S).

Definition cret {S A} (a : A) : cm S A := fun s => Ret (a, s).
Definition cbind {S A B} (m : cm S A) (k : A -> cm S B) : cm S B :=
  fun s => match m s with Ret (a, s') => k a s' | Fault f => Fault f end.
Definition cfail {S A} (f : fault) : cm S A := fun _ => Fault f.
Definition cget {S} : cm S S := fun s => Ret (s, s).
Definition cput {S} (s : S) : cm S unit := fun _ => Ret (tt, s).
Definition cmodify {S} (f : S -> S) : cm S unit := fun s => Ret (tt, f s).
(** Reading an [option]: [None] is the fault [f]. *)
Definition cof_option {S A} (f : fault) (o : option A) : cm S A :=
  match o with Some a => cret a | None => cfail f end.

Declare Scope cm_scope.
Delimit Scope cm_scope with cm.
Notation "'let*' x := m 'in' k" := (cbind m (fun x => k))
  (at level 10, x name, m at level 100, k at level 200) : cm_scope.
Notation "'let*' ' p := m 'in' k" := (cbind m (fun x => match x with p => k end))
  (at level 10, p pattern, m at level 100, k at level 200) : cm_scope.
Notation "m ;; k" := (cbind m (fun _ => k))
  (at level 100, k at level 200, right associativity) : cm_scope.

(** The state a run ends in, or the start state when it faults: a driver
    for concrete scenarios. *)
Definition exec {S A} (m : cm S A) (s : S) : S :=
  match m s with Ret (_, s') => s' | Fault _ => s end.

(** Run [m] on the [S] component of a larger state. *)
Definition lift_cm {S T A} (get : T -> S) (set : S -> T -> T) (m : cm S A) : cm T A :=
  fun t => match m (get t) with
           | Ret (a, s') => Ret (a, set s' t)
           | Fault f => Fault f
           end.

Lemma cbind_Ret {S A B} (m : cm S A) (k : A -> cm S B) s a s' :
  m s = Ret (a, s') -> cbind m k s = k a s'.
Proof. unfold cbind. by intros ->. Qed.

Lemma cbind_Fault {S A B} (m : cm S A) (k : A -> cm S B) s f :
  m s = Fault f -> cbind m k s = Fault f.
Proof. unfold cbind. by intros ->. Qed.

Lemma cbind_cget {S B} (k : S -> cm S B) s : cbind cget k s = k s s.
Proof. reflexivity. Qed.

Lemma cbind_cmodify {S B} (f : S -> S) (k : unit -> cm S B) s :
  cbind (cmodify f) k s = k tt (f s).
Proof. reflexivity. Qed.

Lemma cbind_ret_l {S A B} (a : A) (k : A -> cm S B) s : cbind (cret a) k s = k a s.
Proof. reflexivity. Qed.

Lemma cbind_assoc {S A B C} (m : cm S A) (k : A -> cm S B) (h : B -> cm S C) s :
  cbind (cbind m k) h s = cbind m (fun a => cbind (k a) h) s.
Proof. unfold cbind. by destruct (m s) as [[a s']|]. Qed.

(** Binds whose continuations agree pointwise agree. *)
Lemma cbind_ext {S A B} (m : cm S A) (k1 k2 : A -> cm S B) s :
  (forall a s', k1 a s' = k2 a s') -> cbind m k1 s = cbind m k2 s.
Proof. intros H. unfold cbind. destruct (m s) as [[a s']|]; auto. Qed.

(** Inversion of a successful bind. *)
Lemma cbind_Ret_inv {S A B} (m : cm S A) (k : A -> cm S B) s b s'' :
  cbind m k s = Ret (b, s'') -> exists a s', m s = Ret (a, s') /\ k a s' = Ret (b, s'').
Proof. unfold cbind. destruct (m s) as [[a s']|]; [eauto | discriminate]. Qed.

(** ** Equivalence of computations

    Two computations are equivalent when they agree on every start state;
    programs are compared up to it, by setoid rewriting with the monad
    laws under binders. *)

Definition cm_equiv {S A} : relation (cm S A) := fun m1 m2 => forall s, m1 s = m2 s.
Notation "m1 ≈ m2" := (cm_equiv m1 m2) (at level 70) : cm_scope.

#[export] Instance cm_equiv_equivalence {S A} : Equivalence (@cm_equiv S A).
Proof.
  split; [intros m s; done | intros m1 m2 H s; by rewrite H | intros m1 m2 m3 H1 H2 s; by rewrite H1, H2].
Qed.

#[export] Instance cbind_proper {S A B} :
  Proper (cm_equiv ==> pointwise_relation A cm_equiv ==> cm_equiv) (@cbind S A B).
Proof.
  intros m1 m2 Hm k1 k2 Hk s. unfold cbind. rewrite Hm. destruct (m2 s) as [[a s']|]; [apply Hk | done].
Qed.

Lemma cm_bind_ret_l {S A B} (a : A) (k : A -> cm S B) : cm_equiv (cbind (cret a) k) (k a).
Proof. intros s. done. Qed.

Lemma cm_bind_assoc {S A B C} (m : cm S A) (k : A -> cm S B) (h : B -> cm S C) :
  cm_equiv (cbind (cbind m k) h) (cbind m (fun a => cbind (k a) h)).
Proof. intros s. apply cbind_assoc. Qed.

Lemma cm_bind_fail {S A B} (f : fault) (k : A -> cm S B) : cm_equiv (cbind (cfail f) k) (cfail f).
Proof. intros s. done. Qed.

(** ** Byte slices of a buffer *)

Section Slices.
Context {A : Type}.

(** The [len] elements of [l] from offset [off]. *)
Definition slice (l : list A) (off len : nat) : list A := take len (drop off l).

(** [l] with the elements from [off] on replaced by [xs] ([memcpy]). *)
Definition splice (l : list A) (off : nat) (xs : list A) : list A :=
  take off l ++ xs ++ drop (off + length xs) l.

Lemma length_splice l off xs :
  off + length xs <= length l -> length (splice l off xs) = length l.
Proof. intros. unfold splice. rewrite !length_app, length_take, length_drop. lia. Qed.

Lemma length_slice l off len :
  off + len <= length l -> length (slice l off len) = len.
Proof. intros. unfold slice. rewrite length_take, length_drop. lia. Qed.

Lemma slice_splice_eq l off xs :
  off + length xs <= length l -> slice (splice l off xs) off (length xs) = xs.
Proof.
  intros. unfold slice, splice.
  rewrite drop_app_length'; [| rewrite length_take; lia].
  by rewrite take_app_length.
Qed.

Lemma lookup_splice_lt l off xs i :
  off <= length l -> i < off -> splice l off xs !! i = l !! i.
Proof.
  intros. unfold splice.
  rewrite lookup_app_l by (rewrite length_take; lia). by apply lookup_take_lt.
Qed.

Lemma lookup_splice_ge l off xs i :
  off + length xs <= length l -> off + length xs <= i -> splice l off xs !! i = l !! i.
Proof.
  intros. unfold splice. rewrite lookup_app_r by (rewrite length_take; lia).
  rewrite lookup_app_r by (rewrite length_take; lia).
  rewrite lookup_drop, length_take. f_equal. lia.
Qed.

(** A write does not change a slice that lies wholly before or after it. *)
Lemma slice_splice_disjoint l off xs off' len :
  off + length xs <= length l ->
  off' + len <= off \/ off + length xs <= off' ->
  slice (splice l off xs) off' len = slice l off' len.
Proof.
  intros Hle Hdis. apply list_eq. intros i. unfold slice.
  rewrite !lookup_take, !lookup_drop.
  case_decide; [| done].
  destruct Hdis.
  - apply lookup_splice_lt; lia.
  - destruct (decide (off' + i < off)); [apply lookup_splice_lt; lia |].
    apply lookup_splice_ge; lia.
Qed.
(** A one-element write is a list update. *)
Lemma splice_singleton l i x :
  i < length l -> splice l i [x] = <[i := x]> l.
Proof.
  intros Hi. apply list_eq. intros j. unfold splice. simpl.
  destruct (decide (j < i)).
  - rewrite list_lookup_insert_ne by lia.
    rewrite lookup_app_l by (rewrite length_take; lia). by apply lookup_take_lt.
  - rewrite lookup_app_r by (rewrite length_take; lia). rewrite length_take.
    replace (i `min` length l) with i by lia.
    destruct (decide (j = i)) as [->|].
    + rewrite list_lookup_insert_eq by done. by rewrite Nat.sub_diag.
    + rewrite list_lookup_insert_ne by lia.
      replace (j - i) with (S (j - i - 1)) by lia. simpl.
      rewrite lookup_drop. f_equal. lia.
Qed.

Lemma slice_S l off k x : l !! off = Some x -> slice l off (S k) = x :: slice l (S off) k.
Proof. intros H. unfold slice. by rewrite (drop_S _ _ _ H). Qed.

Lemma slice_all l : slice l 0 (length l) = l.
Proof. unfold slice. by rewrite drop_0, take_ge. Qed.

(** Writing [x] at [off] and then [xs] right after it is writing [x :: xs]
    at [off]. *)
Lemma splice_insert l off x xs :
  (off < length l)%nat -> splice (<[off := x]> l) (S off) xs = splice l off (x :: xs).
Proof.
  intros Hoff. unfold splice. simpl.
  rewrite (take_S_r _ _ x) by (by rewrite list_lookup_insert_eq).
  rewrite take_insert_ge, drop_insert_lt by lia. rewrite <- app_assoc.
  by rewrite Nat.add_succ_r.
Qed.

Lemma splice_nil l off : (off <= length l)%nat -> splice l off [] = l.
Proof. intros. unfold splice. simpl. by rewrite Nat.add_0_r, take_drop. Qed.

(** A second copy over the same bytes replaces the first. *)
Lemma splice_splice l off xs ys :
  (off + length xs <= length l)%nat -> length ys = length xs ->
  splice (splice l off xs) off ys = splice l off ys.
Proof.
  intros Hl Hy. unfold splice.
  rewrite (take_app_length' _ _ off) by (rewrite length_take; lia).
  rewrite (app_assoc (take off l) xs), (drop_app_length' _ _ (off + length ys)) by (rewrite length_app, length_take; lia).
  by rewrite Hy.
Qed.

(** Replacing the last element. *)
Lemma insert_last (ts : list A) x y : <[length (ts ++ [x]) - 1 := y]> (ts ++ [x]) = ts ++ [y].
Proof.
  rewrite length_app. simpl. rewrite Nat.add_sub, insert_app_r_alt by lia.
  by rewrite Nat.sub_diag.
Qed.

End Slices.

(** ** Lists of results *)

(** [mapM] over a list in which one element now maps elsewhere. *)
Lemma mapM_update {A B} (f g : A -> option B) (l : list A) (k : list B) (i : nat) (y : B) :
  mapM f l = Some k ->
  (forall j x, l !! j = Some x -> j <> i -> g x = f x) ->
  (forall x, l !! i = Some x -> g x = Some y) ->
  mapM g l = Some (<[i := y]> k).
Proof.
  intros Hk Hother Hi. apply mapM_Some_1 in Hk. apply mapM_Some_2.
  apply Forall2_lookup. intros j. pose proof (proj1 (Forall2_lookup _ _ _) Hk j) as Hj.
  destruct (decide (j = i)) as [->|Hne].
  - inversion Hj as [x y' Hx Hl Hk'|Hl Hk'].
    2: { rewrite list_insert_ge by (apply lookup_ge_None_1; done). rewrite <- Hk'. constructor. }
    rewrite list_lookup_insert_eq by (rewrite <- (Forall2_length _ _ _ Hk); by apply lookup_lt_Some with x).
    constructor. apply Hi. done.
  - rewrite list_lookup_insert_ne by done.
    inversion Hj as [x y' Hx Hl Hk'|Hl Hk']; constructor. rewrite (Hother j x); done.
Qed.

(** ** Automation *)

(** [mapM] only looks at the elements of the list. *)
Lemma mapM_ext_in {A B} (f g : A -> option B) (l : list A) :
  Forall (fun x => f x = g x) l -> mapM f l = mapM g l.
Proof. induction 1 as [|x l Hx _ IH]; [done|]. simpl. by rewrite Hx, IH. Qed.

(** [mapM] over an appended list. *)
Lemma mapM_app_Some {A B} (f : A -> option B) (l l' : list A) k k' :
  mapM f l = Some k -> mapM f l' = Some k' -> mapM f (l ++ l') = Some (k ++ k').
Proof. intros H H'. apply mapM_Some_2, Forall2_app; by apply mapM_Some_1. Qed.

(** In a list without repetitions an element's first occurrence is its
    position. *)
Lemma list_find_NoDup {A} `{!EqDecision A} (l : list A) j x :
  NoDup l -> l !! j = Some x -> list_find (fun y => y = x) l = Some (j, x).
Proof.
  intros Hnd Hj. apply list_find_Some. split_and!; [done | done |].
  intros k y Hk Hlt ->. pose proof (NoDup_lookup _ _ _ _ Hnd Hk Hj). lia.
Qed.

(** A filter keeps every element exactly when all satisfy the predicate. *)
Lemma length_filter_all {A} (P : A -> Prop) `{!forall x, Decision (P x)} (l : list A) :
  length (filter P l) = length l <-> Forall P l.
Proof.
  split.
  - intros Hl. apply Forall_forall. intros x Hx. destruct (decide (P x)) as [|HP]; [done|].
    pose proof (length_filter_lt P l x Hx HP). lia.
  - induction 1 as [|x l Hx _ IH]; [done|]. rewrite filter_cons_True by done. simpl. by rewrite IH.
Qed.

Create HintDb mcdc discriminated.
Create Rewrite HintDb mcdc.
#[export] Hint Resolve u32_range u32_nonneg u32_le : mcdc.
#[export] Hint Rewrite @length_splice @length_slice using lia : mcdc.
#[export] Hint Rewrite @cbind_ret_l : mcdc.

(** Step a monadic computation through a bind whose first part is known. *)
Ltac cm_step H :=
  first [ rewrite (cbind_Ret _ _ _ _ _ H) | rewrite (cbind_Fault _ _ _ _ H) ]; cbv beta.

(** Split a successful bind in a hypothesis into its two halves. *)
Ltac cm_inv H :=
  let a := fresh "a" in let s := fresh "s" in
  let H1 := fresh H in let H2 := fresh H in
  apply cbind_Ret_inv in H as (a & s & H1 & H2).

(** Discharge a decidable proposition about a concrete state by evaluating
    its decision procedure. *)
Ltac decide_by_eval := apply (bool_decide_unpack _); vm_compute; reflexivity.
