(* ===== verification/CRuntime.v ===== *)
(** * The C runtime the library calls

    An environment model of the libc services src/mcdc.c and
    src/test/strncmp.c use: the heap of [_Bool] buffers handed out by
    [calloc], the outcome of each allocation (read from a plan, so that a
    run with failing allocations can be stated and computed), [errno],
    [stdout] and [stderr], [memcpy]/[memcmp] with their bounds, and the
    [printf] conversions of the report.  None of it is repository code. *)

From S2P Require Import Prelude.
From stdpp Require Import pretty.
From Stdlib Require Import Ascii.

Local Open Scope Z_scope.
Local Open Scope cm_scope.

(** [ENOMEM] of Linux's errno.h, the value [calloc] sets on failure. *)
Definition ENOMEM : Z := 12.

Record libc := mk_libc {
  heap : gmap N (list bool);   (** live [calloc]'ed buffers, by block *)
  next_blk : N;                (** the block the next [calloc] returns *)
  plan : list bool;            (** outcomes of the next allocations *)
  errno : Z;
  stdout : string;
  stderr : string;
  wild : list string           (** writes outside every tracked object *)
}.

Definition libc_init (p : list bool) : libc := mk_libc ∅ 1%N p 0 EmptyString EmptyString [].

Definition set_heap (h : gmap N (list bool)) (l : libc) : libc :=
  mk_libc h (next_blk l) (plan l) (errno l) (stdout l) (stderr l) (wild l).
Definition set_errno_l (e : Z) (l : libc) : libc :=
  mk_libc (heap l) (next_blk l) (plan l) e (stdout l) (stderr l) (wild l).
Definition set_plan (p : list bool) (l : libc) : libc :=
  mk_libc (heap l) (next_blk l) p (errno l) (stdout l) (stderr l) (wild l).

(** ** Allocation *)

(** The outcome of the next allocation: the head of the plan, success once
    the plan is exhausted. *)
Definition alloc_outcome : cm libc bool :=
  fun l => match plan l with
           | [] => Ret (true, l)
           | b :: p => Ret (b, set_plan p l)
           end.

Definition get_errno : cm libc Z := fun l => Ret (errno l, l).
Definition set_errno (e : Z) : cm libc unit := cmodify (set_errno_l e).

(** [calloc(nmemb, size)]: a fresh zeroed buffer, or NULL with [errno]
    set.  A zero-size request succeeds with an empty buffer (glibc returns
    a unique pointer). *)
Definition calloc (nmemb size : Z) : cm libc (option N) :=
  let* ok := alloc_outcome in
  if ok then
    fun l => let b := next_blk l in
      Ret (Some b, mk_libc (<[b := replicate (Z.to_nat (nmemb * size)) false]> (heap l))
                     (b + 1)%N (plan l) (errno l) (stdout l) (stderr l) (wild l))
  else set_errno ENOMEM ;; cret None.

(** An allocation of an object the model keeps outside the byte heap (the
    context array of [mcdc_table_t]): [calloc] or [realloc] of it succeeds
    or returns NULL with [errno] set. *)
Definition alloc_object : cm libc bool :=
  let* ok := alloc_outcome in
  if ok then cret true else set_errno ENOMEM ;; cret false.

(** ** Memory access *)

(** [memcpy(buf + off, xs, length xs)] into a heap buffer. *)
Definition mem_write (site : string) (b : N) (off : Z) (xs : list bool) : cm libc unit :=
  fun l => match heap l !! b with
           | Some buf =>
               if decide (0 <= off /\ off + Z.of_nat (length xs) <= Z.of_nat (length buf))
               then Ret (tt, set_heap (<[b := splice buf (Z.to_nat off) xs]> (heap l)) l)
               else Fault (OutOfBounds site)
           | None => Fault (OutOfBounds site)
           end.

(** The [len] bytes of a heap buffer from [off]. *)
Definition mem_read (site : string) (b : N) (off len : Z) : cm libc (list bool) :=
  fun l => match heap l !! b with
           | Some buf =>
               if decide (0 <= off /\ 0 <= len /\ off + len <= Z.of_nat (length buf))
               then Ret (slice buf (Z.to_nat off) (Z.to_nat len), l)
               else Fault (OutOfBounds site)
           | None => Fault (OutOfBounds site)
           end.

(** The first [len] bytes of an array the caller passes (a compound
    literal of [MCDC_CHECK] or [MCDC_REGISTER]). *)
Definition arg_read {S} (site : string) (xs : list bool) (len : Z) : cm S (list bool) :=
  if decide (0 <= len <= Z.of_nat (length xs))
  then cret (take (Z.to_nat len) xs) else cfail (OutOfBounds site).

(** ** Output *)

Definition put_stdout (s : string) : cm libc unit :=
  cmodify (fun l => mk_libc (heap l) (next_blk l) (plan l) (errno l)
                      (String.append (stdout l) s) (stderr l) (wild l)).
Definition put_stderr (s : string) : cm libc unit :=
  cmodify (fun l => mk_libc (heap l) (next_blk l) (plan l) (errno l)
                      (stdout l) (String.append (stderr l) s) (wild l)).
Definition log_wild (what : string) : cm libc unit :=
  cmodify (fun l => mk_libc (heap l) (next_blk l) (plan l) (errno l)
                      (stdout l) (stderr l) (wild l ++ [what])).

(** The newline character ([\n] of a C string literal). *)
Definition nl : string := String (ascii_of_nat 10) EmptyString.

(** [printf] conversions: [%u] of an unsigned value, [%d] of an int. *)
Definition fmt_u (z : Z) : string := pretty (Z.to_N z).
Definition fmt_d (z : Z) : string := pretty z.

Fixpoint spaces (n : nat) : string :=
  match n with O => EmptyString | S k => String " " (spaces k) end.

(** [%<w>s]: right-justified in a field of [w] characters. *)
Definition pad_left (w : nat) (s : string) : string :=
  String.append (spaces (w - String.length s)) s.

(** [%s] of a C character array: the characters before the first NUL. *)
Fixpoint cstr_text (cs : list Z) : string :=
  match cs with
  | [] => EmptyString
  | c :: cs' => if decide (c = 0) then EmptyString else String (ascii_of_nat (Z.to_nat (c mod 256))) (cstr_text cs')
  end.

(** ** Facts about the runtime *)

(** Every live block is below [next_blk]: a fresh block is new. *)
Definition heap_fresh (l : libc) : Prop :=
  map_Forall (fun b _ => (b < next_blk l)%N) (heap l).

#[export] Instance heap_fresh_dec l : Decision (heap_fresh l).
Proof. unfold heap_fresh. apply _. Defined.

Lemma heap_fresh_lookup l b buf :
  heap_fresh l -> heap l !! b = Some buf -> (b < next_blk l)%N.
Proof. intros Hf Hb. exact (Hf b buf Hb). Qed.

(** The libc state after [calloc] of [bytes] bytes succeeded. *)
Definition libc_after_calloc (bytes : Z) (l : libc) : libc :=
  mk_libc (<[next_blk l := replicate (Z.to_nat bytes) false]> (heap l))
    (next_blk l + 1)%N (tail (plan l)) (errno l) (stdout l) (stderr l) (wild l).

(** The next allocations succeed: the next [n] outcomes are successes. *)
Definition allocs_succeed (n : nat) (l : libc) : Prop := Forall (eq true) (take n (plan l)).

Lemma allocs_succeed_head n l :
  allocs_succeed (S n) l -> head (plan l) <> Some false.
Proof.
  unfold allocs_succeed. destruct (plan l) as [|b p]; simpl; [congruence|].
  intros Hf. apply Forall_cons_1 in Hf as [<- _]. congruence.
Qed.

Lemma allocs_succeed_tail n l l' :
  allocs_succeed (S n) l -> plan l' = tail (plan l) -> allocs_succeed n l'.
Proof.
  unfold allocs_succeed. intros H ->. destruct (plan l) as [|b p]; simpl in *.
  - by rewrite take_nil.
  - by apply Forall_cons_1 in H as [_ ?].
Qed.

Lemma allocs_succeed_3 l :
  head (plan l) <> Some false -> head (tail (plan l)) <> Some false ->
  head (tail (tail (plan l))) <> Some false -> allocs_succeed 3 l.
Proof.
  unfold allocs_succeed. destruct (plan l) as [|[] [|[] [|[] p]]]; simpl; try congruence;
    intros _ _ _; repeat constructor.
Qed.

Lemma alloc_outcome_ok l :
  head (plan l) <> Some false -> alloc_outcome l = Ret (true, set_plan (tail (plan l)) l).
Proof. destruct l as [h n p e o er w]; destruct p as [|[] p]; simpl; intros H; [done | done | congruence]. Qed.

Lemma alloc_outcome_fail l :
  head (plan l) = Some false -> alloc_outcome l = Ret (false, set_plan (tail (plan l)) l).
Proof. destruct l as [h n p e o er w]; destruct p as [|[] p]; simpl; intros H; [done | congruence | done]. Qed.

Lemma calloc_ok nmemb size l :
  head (plan l) <> Some false ->
  calloc nmemb size l = Ret (Some (next_blk l), libc_after_calloc (nmemb * size) l).
Proof. intros H. unfold calloc. by cm_step (alloc_outcome_ok l H). Qed.

Lemma calloc_fail nmemb size l :
  head (plan l) = Some false ->
  calloc nmemb size l = Ret (None, set_errno_l ENOMEM (set_plan (tail (plan l)) l)).
Proof. intros H. unfold calloc. by cm_step (alloc_outcome_fail l H). Qed.

Lemma alloc_object_ok l :
  head (plan l) <> Some false -> alloc_object l = Ret (true, set_plan (tail (plan l)) l).
Proof. intros H. unfold alloc_object. by cm_step (alloc_outcome_ok l H). Qed.

Lemma alloc_object_fail l :
  head (plan l) = Some false ->
  alloc_object l = Ret (false, set_errno_l ENOMEM (set_plan (tail (plan l)) l)).
Proof. intros H. unfold alloc_object. by cm_step (alloc_outcome_fail l H). Qed.

Lemma calloc_fresh nmemb size l o l' :
  heap_fresh l -> calloc nmemb size l = Ret (o, l') -> heap_fresh l'.
Proof.
  intros Hf. destruct (decide (head (plan l) = Some false)) as [H|H].
  - rewrite calloc_fail by done. intros [= <- <-]. exact Hf.
  - rewrite calloc_ok by done. intros [= <- <-]. unfold heap_fresh in *. simpl.
    apply map_Forall_insert_2; [lia|].
    eapply map_Forall_impl; [exact Hf|]. simpl. intros. lia.
Qed.

Lemma mem_write_spec site b off xs l buf :
  heap l !! b = Some buf -> 0 <= off -> off + Z.of_nat (length xs) <= Z.of_nat (length buf) ->
  mem_write site b off xs l = Ret (tt, set_heap (<[b := splice buf (Z.to_nat off) xs]> (heap l)) l).
Proof. intros Hb ? ?. unfold mem_write. rewrite Hb. rewrite decide_True by lia. done. Qed.

Lemma mem_write_oob site b off xs l buf :
  heap l !! b = Some buf -> Z.of_nat (length buf) < off + Z.of_nat (length xs) ->
  mem_write site b off xs l = Fault (OutOfBounds site).
Proof. intros Hb ?. unfold mem_write. rewrite Hb. rewrite decide_False by lia. done. Qed.

Lemma mem_read_spec site b off len l buf :
  heap l !! b = Some buf -> 0 <= off -> 0 <= len -> off + len <= Z.of_nat (length buf) ->
  mem_read site b off len l = Ret (slice buf (Z.to_nat off) (Z.to_nat len), l).
Proof. intros Hb ? ? ?. unfold mem_read. rewrite Hb. rewrite decide_True by lia. done. Qed.

(** A one-byte read. *)
Lemma mem_read_byte site b off l buf x :
  heap l !! b = Some buf -> buf !! off = Some x ->
  mem_read site b (Z.of_nat off) 1 l = Ret ([x], l).
Proof.
  intros Hb Hx. pose proof (lookup_lt_Some _ _ _ Hx).
  rewrite (mem_read_spec site b _ _ l buf Hb) by lia. rewrite Nat2Z.id. change (Z.to_nat 1) with (S 0).
  by rewrite (slice_S _ _ _ _ Hx).
Qed.

Lemma arg_read_spec {S} site (xs : list bool) len (s : S) :
  len = Z.of_nat (length xs) -> arg_read site xs len s = Ret (xs, s).
Proof.
  intros ->. unfold arg_read. rewrite decide_True by lia.
  rewrite Nat2Z.id, take_ge by lia. done.
Qed.

Lemma string_app_nil_r (x : string) : String.append x EmptyString = x.
Proof. induction x as [|a x IH]; [done | exact (f_equal (String a) IH)]. Qed.

Lemma string_app_assoc (x y z : string) :
  String.append x (String.append y z) = String.append (String.append x y) z.
Proof. induction x as [|a x IH]; [done | exact (f_equal (String a) IH)]. Qed.

Lemma spaces_length n : String.length (spaces n) = n.
Proof. induction n; simpl; auto. Qed.

(** [l'] only added fresh blocks to the heap of [l]. *)
Definition heap_extends (l l' : libc) : Prop :=
  (next_blk l <= next_blk l')%N /\
  (forall b, (b < next_blk l)%N -> heap l' !! b = heap l !! b) /\
  (heap_fresh l -> heap_fresh l').

Lemma heap_extends_refl l : heap_extends l l.
Proof. split_and!; auto; lia. Qed.

Lemma heap_extends_trans l1 l2 l3 :
  heap_extends l1 l2 -> heap_extends l2 l3 -> heap_extends l1 l3.
Proof.
  intros (H1 & H2 & H3) (H1' & H2' & H3'). split_and!; auto; [lia|].
  intros b Hb. rewrite H2' by lia. auto.
Qed.

Lemma heap_extends_calloc bytes l : heap_extends l (libc_after_calloc bytes l).
Proof.
  split_and!; simpl; [lia | |].
  - intros b Hb. rewrite lookup_insert_ne by lia. done.
  - intros Hf. unfold heap_fresh in *. simpl. apply map_Forall_insert_2; [lia|].
    eapply map_Forall_impl; [exact Hf|]. simpl. intros. lia.
Qed.

(** A libc state that differs from [l] in everything but the heap. *)
Lemma heap_extends_same_heap l l' :
  heap l' = heap l -> next_blk l' = next_blk l -> heap_extends l l'.
Proof. intros Hh Hn. unfold heap_extends, heap_fresh. rewrite Hh, Hn. split_and!; auto; lia. Qed.

(** Invert a successful [arg_read] in hypothesis [H]. *)
Ltac arg_read_inv H :=
  unfold arg_read, cret, cfail in H;
  match type of H with
  | context [decide ?P] => destruct (decide P); cbv beta in H; [injection H as <- <- | discriminate]
  end.

#[export] Hint Resolve calloc_fresh heap_extends_refl heap_extends_calloc : mcdc.
