(* ===== verification/McdcState.v ===== *)
(** * Types and global state of the library

    The types of src/mcdc.h and the globals of src/mcdc.c (lines 40-42,
    128-130), gathered into the whole-program state [pstate] with the libc
    state of [CRuntime]; the accessors the operations share; and [wf], the
    well-formedness invariant every reachable state satisfies
    ([CoverageSpec.reachable_wf]). *)

From S2P Require Import Prelude CRuntime.

Local Open Scope Z_scope.
Local Open Scope cm_scope.

(** [mcdc_table_t] (src/mcdc.h 9-16).  [table] and [checks] are the heap
    blocks of the two [calloc]'ed buffers: the row-major [rows x cols]
    matrix of expected conditions, and one checked flag per row. *)
Record mcdc_table_t := mk_table {
  name : string;
  table : N;
  checks : N;
  rows : Z;
  cols : Z
}.

#[export] Instance mcdc_table_eq_dec : EqDecision mcdc_table_t.
Proof. solve_decision. Defined.

(** The program state: the libc state, [m_nrows] (line 40), the context
    [m_mcdc_context] (line 42: [list] is NULL or an array whose slots are
    table records or uninitialised, [len] its count) and the scratch
    globals [m_ret_malloc], [m_rows], [m_cols] (lines 128-130). *)
Record pstate := mk_pstate {
  libc_of : libc;
  m_nrows : Z;
  ctx_list : option (list (option mcdc_table_t));
  ctx_len : Z;
  m_ret_malloc : option N;
  m_rows : Z;
  m_cols : Z
}.

(** The state at program start: zero-initialised globals. *)
Definition pstate_init (p : list bool) : pstate :=
  mk_pstate (libc_init p) 0 None 0 None 0 0.

Definition set_libc (l : libc) (s : pstate) : pstate :=
  mk_pstate l (m_nrows s) (ctx_list s) (ctx_len s) (m_ret_malloc s) (m_rows s) (m_cols s).
Definition set_nrows (n : Z) (s : pstate) : pstate :=
  mk_pstate (libc_of s) n (ctx_list s) (ctx_len s) (m_ret_malloc s) (m_rows s) (m_cols s).
Definition set_ctx (l : option (list (option mcdc_table_t))) (len : Z) (s : pstate) : pstate :=
  mk_pstate (libc_of s) (m_nrows s) l len (m_ret_malloc s) (m_rows s) (m_cols s).
Definition set_ret_malloc (p : option N) (s : pstate) : pstate :=
  mk_pstate (libc_of s) (m_nrows s) (ctx_list s) (ctx_len s) p (m_rows s) (m_cols s).
Definition set_dims (r c : Z) (s : pstate) : pstate :=
  mk_pstate (libc_of s) (m_nrows s) (ctx_list s) (ctx_len s) (m_ret_malloc s) r c.

(** The state after a write through a buffer pointer: block [b] holds
    [buf]. *)
Definition heap_update (b : N) (buf : list bool) (s : pstate) : pstate :=
  set_libc (set_heap (<[b := buf]> (heap (libc_of s))) (libc_of s)) s.

(** A libc call from the library. *)
Definition on_libc {A} (m : cm libc A) : cm pstate A := lift_cm libc_of set_libc m.

(** [m_mcdc_context.list[i]], read as a struct copy. *)
Definition ctx_get (site : string) (i : Z) : cm pstate mcdc_table_t :=
  fun s => match ctx_list s with
           | None => Fault (NullDeref site)
           | Some l => match l !! Z.to_nat i with
                       | Some (Some t) => Ret (t, s)
                       | Some None => Fault (Uninitialized site)
                       | None => Fault (OutOfBounds site)
                       end
           end.

(** The initialised table records of the context. *)
Definition tables (s : pstate) : list mcdc_table_t :=
  match ctx_list s with Some l => omap id l | None => [] end.

(** The heap blocks the tables own. *)
Definition blocks (ts : list mcdc_table_t) : list N :=
  ts ≫= (fun t => [table t; checks t]).

(** Row [i] of a row-major matrix with [c] columns. *)
Definition row_of (tb : list bool) (c i : nat) : list bool := slice tb (i * c) c.

(** ** Well-formedness *)

(** A table record whose buffers are live and sized as [calloc] sized
    them: [u32 (rows * cols)] bytes for the matrix, [rows] flags. *)
Definition table_wf (h : gmap N (list bool)) (t : mcdc_table_t) : Prop :=
  is_u32 (rows t) /\ is_u32 (cols t) /\
  length <$> h !! table t = Some (Z.to_nat (u32 (rows t * cols t))) /\
  length <$> h !! checks t = Some (Z.to_nat (rows t)).

#[export] Instance table_wf_dec h t : Decision (table_wf h t).
Proof. unfold table_wf. apply _. Defined.

(** The shape of the context array: NULL with no table, or an array of
    exactly [len] initialised slots. *)
Definition ctx_shape (s : pstate) : Prop :=
  match ctx_list s with
  | None => ctx_len s = 0
  | Some l => l = Some <$> tables s /\ ctx_len s = Z.of_nat (length l)
  end.

#[export] Instance ctx_shape_dec s : Decision (ctx_shape s).
Proof. unfold ctx_shape. destruct (ctx_list s); apply _. Defined.

Definition wf (s : pstate) : Prop :=
  heap_fresh (libc_of s) /\
  is_u32 (m_nrows s) /\
  is_u32 (ctx_len s) /\
  ctx_shape s /\
  Forall (table_wf (heap (libc_of s))) (tables s) /\
  NoDup (blocks (tables s)) /\
  Forall (fun b => (b < next_blk (libc_of s))%N) (blocks (tables s)).

#[export] Instance wf_dec s : Decision (wf s).
Proof. unfold wf. apply _. Defined.

(** ** Basic facts *)

Lemma tables_some (ts : list mcdc_table_t) : omap id (Some <$> ts) = ts.
Proof. induction ts as [|t ts IH]; [done|]. csimpl. by f_equal. Qed.

Lemma on_libc_Ret {A} (m : cm libc A) s a l :
  m (libc_of s) = Ret (a, l) -> on_libc m s = Ret (a, set_libc l s).
Proof. unfold on_libc, lift_cm. by intros ->. Qed.

Lemma on_libc_Fault {A} (m : cm libc A) s f :
  m (libc_of s) = Fault f -> on_libc m s = Fault f.
Proof. unfold on_libc, lift_cm. by intros ->. Qed.

(** Under [wf], slot [i] of the context is table [i]. *)
Lemma ctx_get_table site s i t :
  wf s -> tables s !! Z.to_nat i = Some t -> ctx_get site i s = Ret (t, s).
Proof.
  intros (_ & _ & _ & Hl & _) Ht. unfold ctx_get, ctx_shape in *.
  destruct (ctx_list s) as [l|] eqn:E.
  - destruct Hl as [-> _]. by rewrite list_lookup_fmap, Ht.
  - unfold tables in Ht. rewrite E in Ht. done.
Qed.

(** Under [wf], an index at or beyond [len] is a fault. *)
Lemma ctx_get_out_of_range site s i :
  wf s -> 0 <= i -> ctx_len s <= i ->
  ctx_get site i s = Fault (NullDeref site) \/ ctx_get site i s = Fault (OutOfBounds site).
Proof.
  intros (_ & _ & _ & Hl & _) ? ?. unfold ctx_get, ctx_shape in *.
  destruct (ctx_list s) as [l|]; [| by left].
  destruct Hl as [_ Hlen]. right.
  rewrite lookup_ge_None_2; [done | lia].
Qed.

Lemma table_wf_heap_ext h h' t :
  (forall b, b = table t \/ b = checks t -> length <$> h' !! b = length <$> h !! b) ->
  table_wf h t -> table_wf h' t.
Proof.
  intros Hext (? & ? & Htb & Hcb). unfold table_wf.
  rewrite !Hext by auto. done.
Qed.

(** The sizes of a well-formed table's buffers. *)
Lemma table_wf_lengths h t tb cb :
  table_wf h t -> h !! table t = Some tb -> h !! checks t = Some cb ->
  length tb = Z.to_nat (u32 (rows t * cols t)) /\ length cb = Z.to_nat (rows t).
Proof. intros (_ & _ & Htb & Hcb) Ht Hc. rewrite Ht in Htb. rewrite Hc in Hcb. simpl in Htb, Hcb. split; congruence. Qed.

Lemma set_libc_id s : set_libc (libc_of s) s = s.
Proof. by destruct s. Qed.

Lemma wf_table_wf s (n : nat) t :
  wf s -> tables s !! n = Some t -> table_wf (heap (libc_of s)) t.
Proof. intros (_ & _ & _ & _ & Hf & _) Ht. by eapply Forall_lookup_1. Qed.

Lemma blocks_cons t ts : blocks (t :: ts) = table t :: checks t :: blocks ts.
Proof. done. Qed.

Lemma blocks_app ts ts' : blocks (ts ++ ts') = blocks ts ++ blocks ts'.
Proof. induction ts as [|t ts IH]; [done|]. rewrite <- app_comm_cons, !blocks_cons, IH. done. Qed.

Lemma blocks_lookup ts (n : nat) t :
  ts !! n = Some t ->
  blocks ts !! (2 * n)%nat = Some (table t) /\ blocks ts !! (2 * n + 1)%nat = Some (checks t).
Proof.
  revert n. induction ts as [|t' ts IH]; intros [|n] Ht; [done | done | |];
    rewrite blocks_cons; simpl in Ht; [by simplify_eq|].
  destruct (IH n Ht) as [H1 H2].
  replace (2 * S n)%nat with (S (S (2 * n))) by lia.
  replace (S (S (2 * n)) + 1)%nat with (S (S (2 * n + 1))) by lia. done.
Qed.

(** The two buffers of a table are distinct blocks. *)
Lemma wf_table_ne_checks s (n : nat) t :
  wf s -> tables s !! n = Some t -> table t <> checks t.
Proof.
  intros (_ & _ & _ & _ & _ & Hnd & _) Ht Heq.
  destruct (blocks_lookup _ _ _ Ht) as [H1 H2].
  rewrite Heq in H1. pose proof (NoDup_lookup _ _ _ _ Hnd H1 H2). lia.
Qed.

(** The blocks of [ts] are the two buffers of each of its tables. *)
Lemma elem_of_blocks ts b :
  b ∈ blocks ts <-> exists t, t ∈ ts /\ (b = table t \/ b = checks t).
Proof.
  unfold blocks. rewrite list_elem_of_bind. split.
  - intros (t & Hb & Ht). exists t. split; [done|]. set_solver.
  - intros (t & Ht & Hb). exists t. split; [|done]. destruct Hb as [-> | ->]; set_solver.
Qed.

(** [len] counts the tables. *)
Lemma wf_ctx_len s : wf s -> ctx_len s = Z.of_nat (length (tables s)).
Proof.
  intros (_ & _ & _ & Hsh & _). unfold ctx_shape in Hsh.
  destruct (ctx_list s) as [l|] eqn:E.
  - destruct Hsh as [Hl ->]. by rewrite Hl, length_fmap.
  - unfold tables. by rewrite E.
Qed.

(** The two shapes of a well-formed context. *)
Lemma wf_ctx_cases s :
  wf s ->
  (ctx_list s = None /\ tables s = [] /\ ctx_len s = 0) \/
  (ctx_list s = Some (Some <$> tables s) /\ ctx_len s = Z.of_nat (length (tables s))).
Proof.
  intros Hwf. pose proof (wf_ctx_len s Hwf) as Hlen.
  destruct Hwf as (_ & _ & _ & Hsh & _). unfold ctx_shape in Hsh.
  destruct (ctx_list s) as [l|] eqn:E.
  - right. destruct Hsh as [-> _]. done.
  - left. unfold tables. by rewrite E.
Qed.

Lemma tables_set_ctx ts len s : tables (set_ctx (Some (Some <$> ts)) len s) = ts.
Proof. apply tables_some. Qed.

(** A state with the same context, a cursor in range and a heap that only
    grew is well formed when the original is. *)
Lemma wf_heap_extends s s' :
  wf s -> heap_extends (libc_of s) (libc_of s') ->
  ctx_list s' = ctx_list s -> ctx_len s' = ctx_len s -> is_u32 (m_nrows s') -> wf s'.
Proof.
  intros (Hfr & _ & Hl & Hsh & Hf & Hnd & Hlt) (Hnb & Hold & Hfr') Hcl Hcn Hn.
  assert (Ht : tables s' = tables s) by (unfold tables; by rewrite Hcl).
  unfold wf, ctx_shape in *. rewrite Ht, Hcl, Hcn. split_and!; auto.
  - rewrite Forall_forall in Hf. rewrite Forall_forall in Hlt. rewrite Forall_forall. intros t Ht'.
    apply (table_wf_heap_ext (heap (libc_of s))); [| by apply Hf].
    intros b Hbt. rewrite Hold; [done|]. apply Hlt, elem_of_blocks. eauto.
  - eapply Forall_impl; [exact Hlt|]. simpl. intros. lia.
Qed.

Lemma ctx_get_Ret site i s t s' :
  wf s -> ctx_get site i s = Ret (t, s') -> s' = s /\ tables s !! Z.to_nat i = Some t.
Proof.
  intros (_ & _ & _ & Hsh & _). unfold ctx_get, ctx_shape in *.
  destruct (ctx_list s) as [l|]; [| discriminate]. destruct Hsh as [Hl _].
  destruct (l !! Z.to_nat i) as [[t'|]|] eqn:E; intros H; try discriminate.
  injection H as <- <-. split; [done|]. rewrite Hl, list_lookup_fmap in E.
  destruct (tables s !! Z.to_nat i); simpl in E; congruence.
Qed.

Lemma wf_set_nrows s n : wf s -> is_u32 n -> wf (set_nrows n s).
Proof. intros (? & _ & ?) ?. unfold wf. done. Qed.

Lemma tables_set_nrows n s : tables (set_nrows n s) = tables s.
Proof. done. Qed.

Lemma tables_heap_update b buf s : tables (heap_update b buf s) = tables s.
Proof. done. Qed.

(** A write through a table's buffer that keeps its length keeps [wf]. *)
Lemma wf_heap_update s b buf buf' :
  wf s -> heap (libc_of s) !! b = Some buf -> length buf' = length buf ->
  wf (heap_update b buf' s).
Proof.
  intros (Hfr & Hn & Hl & Hctx & Hf & Hnd & Hlt) Hb Hlen.
  unfold wf, heap_update. simpl. split_and!; try done.
  - apply map_Forall_insert_2; [| done]. exact (Hfr b buf Hb).
  - eapply Forall_impl; [exact Hf|]. intros t. apply table_wf_heap_ext.
    intros b' _. simpl. rewrite lookup_insert. case_decide; subst; [|done].
    rewrite Hb. simpl. by rewrite Hlen.
Qed.

#[export] Hint Resolve on_libc_Ret on_libc_Fault ctx_get_table : mcdc.
