(* ===== verification/Matcher.v ===== *)
(** * Row registration and row matching

    [mcdc_register_row] and [mcdc_check_row] of src/mcdc.c (lines 51-72):
    registration copies a condition vector into the most recently
    allocated table at the global cursor [m_nrows]; checking scans a
    table's rows in order and marks the first one equal to the observed
    vector.  The scan is related to [find_row], a pure first-match search,
    from which the functional theorems follow. *)

From S2P Require Import Prelude CRuntime McdcState.

Local Open Scope Z_scope.
Local Open Scope cm_scope.

(** [mcdc_register_row] (src/mcdc.c 51-58).  [len - 1] is unsigned: with
    no table it wraps to [UINT_MAX]. *)
Definition mcdc_register_row (conds : list bool) : cm pstate unit :=
  let* s := cget in
  let* this := ctx_get "mcdc_register_row" (u32 (ctx_len s - 1)) in
  let* src := arg_read "mcdc_register_row" conds (cols this) in
  on_libc (mem_write "mcdc_register_row" (table this) (u32 (m_nrows s * cols this)) src) ;;
  cmodify (fun s' => set_nrows (u32 (m_nrows s' + 1)) s').

(** [MCDC_REGISTER(...)] (src/mcdc.h 30): the conditions, as a compound
    literal, passed to [mcdc_register_row]. *)
Definition MCDC_REGISTER (conds : list bool) : cm pstate unit := mcdc_register_row conds.

(** The loop of [mcdc_check_row] from row [i], with [k] rows left: the
    [memcmp] of row [i] against the observed vector, then the write of the
    checked flag and [break], or the next row. *)
Fixpoint check_row_loop (this : mcdc_table_t) (row : list bool) (i : Z) (k : nat)
  : cm pstate unit :=
  match k with
  | O => cret tt
  | S k' =>
      let* expected := on_libc (mem_read "mcdc_check_row" (table this)
                                  (u32 (i * cols this)) (cols this)) in
      let* observed := arg_read "mcdc_check_row" row (cols this) in
      if decide (expected = observed)
      then on_libc (mem_write "mcdc_check_row" (checks this) i [true])
      else check_row_loop this row (i + 1) k'
  end.

(** [mcdc_check_row] (src/mcdc.c 60-72). *)
Definition mcdc_check_row (at_table : Z) (row : list bool) : cm pstate unit :=
  let* this := ctx_get "mcdc_check_row" at_table in
  check_row_loop this row 0 (Z.to_nat (rows this)).

(** The first row among [i, i + k) of the matrix [tb] equal to [v]. *)
Fixpoint find_row (tb : list bool) (c : nat) (v : list bool) (i k : nat) : option nat :=
  match k with
  | O => None
  | S k' => if decide (row_of tb c i = v) then Some i else find_row tb c v (S i) k'
  end.

(** ** The first-match search *)

Lemma find_row_Some tb c v i k j :
  find_row tb c v i k = Some j ->
  (i <= j < i + k)%nat /\ row_of tb c j = v /\ forall m, (i <= m < j)%nat -> row_of tb c m <> v.
Proof.
  revert i. induction k as [|k IH]; intros i; simpl; [done|].
  case_decide; [intros [= <-]; split_and!; [lia | lia | done | lia] |].
  intros Hf. destruct (IH _ Hf) as (? & ? & Hm). split_and!; [lia | lia | done |].
  intros m ?. destruct (decide (m = i)) as [->|]; [done|]. apply Hm. lia.
Qed.

Lemma find_row_None tb c v i k :
  find_row tb c v i k = None -> forall m, (i <= m < i + k)%nat -> row_of tb c m <> v.
Proof.
  revert i. induction k as [|k IH]; intros i; simpl; [lia|].
  case_decide; [done|]. intros Hf m ?.
  destruct (decide (m = i)) as [->|]; [done|]. apply (IH _ Hf). lia.
Qed.

(** The first match is what [find_row] returns. *)
Lemma find_row_first tb c v j :
  row_of tb c j = v -> (forall m, (m < j)%nat -> row_of tb c m <> v) ->
  forall k, (j < k)%nat -> find_row tb c v 0 k = Some j.
Proof.
  intros Hj Hbefore k Hk.
  destruct (find_row tb c v 0 k) as [j'|] eqn:E.
  - apply find_row_Some in E as (? & Hj' & Hm). f_equal.
    destruct (decide (j' < j)%nat); [exfalso; by apply (Hbefore j') |].
    destruct (decide (j < j')%nat); [exfalso; apply (Hm j); [lia | done] | lia].
  - exfalso. apply (find_row_None _ _ _ _ _ E j); [lia | done].
Qed.

(** ** The scan, against [find_row] *)

Section Scan.
Context (s : pstate) (t : mcdc_table_t) (tb cb v : list bool).
Hypothesis Htb : heap (libc_of s) !! table t = Some tb.
Hypothesis Hcb : heap (libc_of s) !! checks t = Some cb.
Hypothesis Hne : table t <> checks t.
Hypothesis Hrows : 0 <= rows t.
Hypothesis Hcols : 0 <= cols t.
Hypothesis Hnov : rows t * cols t <= UINT_MAX.
Hypothesis Htb_len : length tb = Z.to_nat (rows t * cols t).
Hypothesis Hcb_len : length cb = Z.to_nat (rows t).
Hypothesis Hv : length v = Z.to_nat (cols t).

Let c := Z.to_nat (cols t).

Lemma check_row_read (i : nat) :
  (i < Z.to_nat (rows t))%nat ->
  on_libc (mem_read "mcdc_check_row" (table t) (u32 (Z.of_nat i * cols t)) (cols t)) s
  = Ret (row_of tb c i, s).
Proof.
  intros Hi. rewrite (on_libc_Ret _ _ (row_of tb c i) (libc_of s)), set_libc_id; [done|].
  assert (Z.of_nat i * cols t + cols t <= rows t * cols t) by nia.
  rewrite u32_small by (unfold is_u32, UINT_MAX in *; nia).
  rewrite (mem_read_spec _ _ _ _ _ tb) by (done || lia).
  unfold row_of, c. rewrite Z2Nat.inj_mul, Nat2Z.id by lia. done.
Qed.

Lemma check_row_loop_spec (k i : nat) :
  (i + k <= Z.to_nat (rows t))%nat ->
  check_row_loop t v (Z.of_nat i) k s =
    match find_row tb c v i k with
    | Some j => Ret (tt, heap_update (checks t) (<[j := true]> cb) s)
    | None => Ret (tt, s)
    end.
Proof.
  revert i. induction k as [|k IH]; intros i Hik; [done|]. simpl.
  rewrite (cbind_Ret _ _ _ _ _ (check_row_read i ltac:(lia))).
  rewrite (cbind_Ret _ _ _ _ _ (arg_read_spec _ v (cols t) _ ltac:(lia))).
  case_decide.
  - apply on_libc_Ret. rewrite (mem_write_spec _ _ _ _ _ cb) by (done || simpl; lia).
    rewrite Nat2Z.id, splice_singleton by lia. done.
  - replace (Z.of_nat i + 1) with (Z.of_nat (S i)) by lia. apply IH. lia.
Qed.
End Scan.

(** ** Functional behaviour of [mcdc_check_row] *)

Section CheckRow.
Context (s : pstate) (k : nat) (t : mcdc_table_t) (tb cb v : list bool).
Hypothesis Hwf : wf s.
Hypothesis Ht : tables s !! k = Some t.
Hypothesis Hnov : rows t * cols t <= UINT_MAX.
Hypothesis Htb : heap (libc_of s) !! table t = Some tb.
Hypothesis Hcb : heap (libc_of s) !! checks t = Some cb.
Hypothesis Hv : length v = Z.to_nat (cols t).

(** [mcdc_check_row] is the scan of table [k] against [find_row]. *)
Lemma mcdc_check_row_find :
  mcdc_check_row (Z.of_nat k) v s =
    match find_row tb (Z.to_nat (cols t)) v 0 (Z.to_nat (rows t)) with
    | Some j => Ret (tt, heap_update (checks t) (<[j := true]> cb) s)
    | None => Ret (tt, s)
    end.
Proof.
  pose proof (wf_table_wf _ _ _ Hwf Ht) as Htw.
  destruct (table_wf_lengths _ _ _ _ Htw Htb Hcb) as [Hl Hl']. destruct Htw as (Hr & Hc & _).
  unfold mcdc_check_row. rewrite (cbind_Ret _ _ _ _ _ (ctx_get_table _ _ _ _ Hwf ltac:(by rewrite Nat2Z.id))).
  unfold is_u32 in *. rewrite u32_small in Hl by (unfold is_u32; nia).
  change 0 with (Z.of_nat 0). apply check_row_loop_spec; try done; try lia.
  eapply wf_table_ne_checks; eauto.
Qed.

(** C1: an observed vector equal to row [i], and to no row before it,
    marks row [i] checked and changes nothing else. *)
Theorem mcdc_check_row_marks_first (i : nat) :
  (i < Z.to_nat (rows t))%nat ->
  row_of tb (Z.to_nat (cols t)) i = v ->
  (forall j, (j < i)%nat -> row_of tb (Z.to_nat (cols t)) j <> v) ->
  mcdc_check_row (Z.of_nat k) v s = Ret (tt, heap_update (checks t) (<[i := true]> cb) s).
Proof.
  intros Hi Hrow Hbefore. rewrite mcdc_check_row_find.
  by rewrite (find_row_first _ _ _ _ Hrow Hbefore).
Qed.

(** C2: an observed vector equal to no expected row changes nothing. *)
Theorem mcdc_check_row_no_match :
  (forall j, (j < Z.to_nat (rows t))%nat -> row_of tb (Z.to_nat (cols t)) j <> v) ->
  mcdc_check_row (Z.of_nat k) v s = Ret (tt, s).
Proof.
  intros Hnone. rewrite mcdc_check_row_find.
  destruct (find_row _ _ _ _ _) as [j|] eqn:E; [| done].
  apply find_row_Some in E as (? & Hj & _). exfalso. apply (Hnone j); [lia | done].
Qed.
End CheckRow.

(** C15: [mcdc_check_row] on an index at or beyond the number of tables
    is undefined behaviour (the read of [list[at_table]]). *)
Theorem mcdc_check_row_bad_index s (at_table : Z) v :
  wf s -> ctx_len s <= at_table ->
  mcdc_check_row at_table v s = Fault (NullDeref "mcdc_check_row") \/
  mcdc_check_row at_table v s = Fault (OutOfBounds "mcdc_check_row").
Proof.
  intros Hwf Hge. pose proof (proj1 (proj2 (proj2 Hwf))) as Hlen.
  unfold mcdc_check_row, is_u32 in *.
  destruct (ctx_get_out_of_range "mcdc_check_row" s at_table Hwf ltac:(lia) Hge) as [H | H];
    [left | right]; by cm_step H.
Qed.

(** ** Functional behaviour of [mcdc_register_row] *)

(** The last table of a well-formed context is the one [len - 1] names. *)
Lemma ctx_get_last site s ts t :
  wf s -> tables s = ts ++ [t] -> ctx_get site (u32 (ctx_len s - 1)) s = Ret (t, s).
Proof.
  intros Hwf Hts. apply ctx_get_table; [done|].
  rewrite (wf_ctx_len _ Hwf), Hts, length_app. simpl.
  rewrite u32_small by (pose proof (proj1 (proj2 (proj2 Hwf))) as H;
                        rewrite (wf_ctx_len _ Hwf), Hts, length_app in H; simpl in H;
                        unfold is_u32 in *; lia).
  replace (Z.of_nat (length ts + 1) - 1) with (Z.of_nat (length ts)) by lia.
  rewrite Nat2Z.id. by apply list_lookup_middle.
Qed.

Section RegisterRow.
Context (s : pstate) (ts : list mcdc_table_t) (t : mcdc_table_t) (tb conds : list bool).
Hypothesis Hwf : wf s.
Hypothesis Hts : tables s = ts ++ [t].
Hypothesis Htb : heap (libc_of s) !! table t = Some tb.

Lemma register_table_wf : table_wf (heap (libc_of s)) t.
Proof. apply (wf_table_wf s (length ts)); [done|]. rewrite Hts. by apply list_lookup_middle. Qed.

(** Registration at the cursor, as a state. *)
Lemma register_row_spec :
  m_nrows s < rows t -> rows t * cols t <= UINT_MAX ->
  length conds = Z.to_nat (cols t) ->
  mcdc_register_row conds s =
    Ret (tt, set_nrows (m_nrows s + 1)
               (heap_update (table t) (splice tb (Z.to_nat (m_nrows s * cols t)) conds) s)).
Proof.
  intros Hlt Hnov Hc.
  pose proof register_table_wf as Htw. destruct Htw as (Hr & Hcl & Htbl & _).
  rewrite Htb in Htbl. simpl in Htbl. injection Htbl as Hl.
  pose proof (proj1 (proj2 Hwf)) as Hn. unfold is_u32 in *.
  unfold mcdc_register_row. rewrite cbind_cget. cbv beta.
  cm_step (ctx_get_last "mcdc_register_row" s ts t Hwf Hts).
  cm_step (arg_read_spec (S := pstate) "mcdc_register_row" conds (cols t) s ltac:(lia)).
  assert (m_nrows s * cols t + cols t <= rows t * cols t) by nia.
  rewrite u32_small in Hl |- * by (unfold is_u32; nia).
  cm_step (on_libc_Ret _ s _ _ (mem_write_spec "mcdc_register_row" _ (m_nrows s * cols t) conds _ tb
             Htb ltac:(nia) ltac:(rewrite Hl, Hc; lia))).
  unfold cmodify. simpl. rewrite u32_small by (unfold is_u32; lia). done.
Qed.

(** C3: registration copies the vector into row [m_nrows] of the last
    table, advances the cursor, and changes nothing else. *)
Theorem mcdc_register_row_writes :
  m_nrows s < rows t -> rows t * cols t <= UINT_MAX ->
  length conds = Z.to_nat (cols t) ->
  mcdc_register_row conds s =
    Ret (tt, set_nrows (m_nrows s + 1)
               (heap_update (table t) (splice tb (Z.to_nat (m_nrows s * cols t)) conds) s)).
Proof. apply register_row_spec. Qed.

(** Registration whose row ends past the matrix buffer faults. *)
Lemma register_row_oob :
  Z.of_nat (length tb) < m_nrows s * cols t + cols t -> m_nrows s * cols t <= UINT_MAX ->
  (Z.to_nat (cols t) <= length conds)%nat ->
  mcdc_register_row conds s = Fault (OutOfBounds "mcdc_register_row").
Proof.
  intros Hend Hnov Hc.
  pose proof register_table_wf as (Hr & Hcl & _).
  pose proof (proj1 (proj2 Hwf)) as Hn. unfold is_u32 in *.
  unfold mcdc_register_row. rewrite cbind_cget. cbv beta.
  cm_step (ctx_get_last "mcdc_register_row" s ts t Hwf Hts).
  unfold arg_read. rewrite decide_True by lia.
  rewrite cbind_ret_l. apply cbind_Fault, on_libc_Fault. apply (mem_write_oob _ _ _ _ _ tb Htb).
  rewrite length_take, (u32_small (m_nrows s * cols t)) by (unfold is_u32; nia). lia.
Qed.

(** C14: registering once more than the declared number of rows is an
    out-of-bounds write, when the offset does not wrap and [cols > 0]. *)
Theorem mcdc_register_row_overflow :
  rows t <= m_nrows s -> m_nrows s * cols t <= UINT_MAX -> 0 < cols t ->
  (Z.to_nat (cols t) <= length conds)%nat ->
  mcdc_register_row conds s = Fault (OutOfBounds "mcdc_register_row").
Proof.
  intros Hge Hnov Hpos Hc.
  pose proof register_table_wf as (Hr & Hcl & Htbl & _).
  rewrite Htb in Htbl. simpl in Htbl. injection Htbl as Hl.
  pose proof (u32_le (rows t * cols t) ltac:(unfold is_u32 in *; nia)).
  apply register_row_oob; [| done | done]. rewrite Hl. unfold is_u32 in *. nia.
Qed.
End RegisterRow.

(** C16: registering before any table is allocated is undefined
    behaviour: [len - 1] wraps to [UINT_MAX]. *)
Theorem mcdc_register_row_no_table s conds :
  wf s -> ctx_len s = 0 ->
  mcdc_register_row conds s = Fault (NullDeref "mcdc_register_row") \/
  mcdc_register_row conds s = Fault (OutOfBounds "mcdc_register_row").
Proof.
  intros Hwf H0. unfold mcdc_register_row. rewrite cbind_cget. cbv beta. rewrite H0.
  destruct (ctx_get_out_of_range "mcdc_register_row" s (u32 (0 - 1)) Hwf
             ltac:(apply u32_nonneg) ltac:(rewrite H0; apply u32_nonneg)) as [H | H];
    [left | right]; by cm_step H.
Qed.

(** ** Any successful run *)

(** A successful scan changes nothing, or sets one flag of the table. *)
Lemma check_row_loop_Ret t v i k s s' :
  check_row_loop t v i k s = Ret (tt, s') ->
  s' = s \/ exists cb j, heap (libc_of s) !! checks t = Some cb /\ (j < length cb)%nat /\
                         s' = heap_update (checks t) (<[j := true]> cb) s.
Proof.
  revert i s. induction k as [|k IH]; intros i s H; simpl in H; [injection H as <-; by left|].
  apply cbind_Ret_inv in H as (e & s1 & Hread & H).
  unfold on_libc, lift_cm, mem_read in Hread.
  destruct (heap (libc_of s) !! table t) as [tb|]; [| discriminate].
  case_decide; [| discriminate]. injection Hread as <- <-. rewrite set_libc_id in H.
  apply cbind_Ret_inv in H as (o & s2 & Harg & H).
  arg_read_inv Harg.
  case_decide; [| by apply (IH (i + 1))].
  unfold on_libc, lift_cm, mem_write in H.
  destruct (heap (libc_of s) !! checks t) as [cb|] eqn:E; [| discriminate].
  case_decide; [| discriminate]. injection H as <-. right. exists cb, (Z.to_nat i).
  simpl in *. split_and!; [done | lia |]. by rewrite splice_singleton by lia.
Qed.

Lemma mcdc_check_row_Ret at_table v s s' :
  wf s -> mcdc_check_row at_table v s = Ret (tt, s') ->
  s' = s \/ exists n t cb j, tables s !! n = Some t /\ heap (libc_of s) !! checks t = Some cb /\
                           (j < length cb)%nat /\ s' = heap_update (checks t) (<[j := true]> cb) s.
Proof.
  intros Hwf H. unfold mcdc_check_row in H. apply cbind_Ret_inv in H as (t & s1 & Hget & H).
  destruct (ctx_get_Ret _ _ _ _ _ Hwf Hget) as [-> Ht].
  destruct (check_row_loop_Ret _ _ _ _ _ _ H) as [-> | (cb & j & ? & ? & ->)]; [by left|].
  right. eauto 10.
Qed.

(** The last element of a list, found by its index. *)
Lemma lookup_last_split {A} (l : list A) x :
  l !! (length l - 1)%nat = Some x -> exists l', l = l' ++ [x].
Proof.
  intros H. destruct l as [|y l] using rev_ind; [done|].
  rewrite length_app in H. simpl in H. rewrite Nat.add_sub, lookup_app_r, Nat.sub_diag in H by lia.
  injection H as ->. eauto.
Qed.

(** A successful registration wrote a row's worth of bytes inside the
    last table's matrix, at the offset the cursor gives, and advanced the
    cursor. *)
Lemma mcdc_register_row_Ret conds s s' :
  wf s -> mcdc_register_row conds s = Ret (tt, s') ->
  exists ts t tb xs, tables s = ts ++ [t] /\ heap (libc_of s) !! table t = Some tb /\
    (Z.to_nat (u32 (m_nrows s * cols t)) + length xs <= length tb)%nat /\
    length xs = Z.to_nat (cols t) /\
    s' = set_nrows (u32 (m_nrows s + 1))
           (heap_update (table t) (splice tb (Z.to_nat (u32 (m_nrows s * cols t))) xs) s).
Proof.
  intros Hwf H. unfold mcdc_register_row in H. rewrite cbind_cget in H. cbv beta in H.
  apply cbind_Ret_inv in H as (t & s1 & Hget & H). destruct (ctx_get_Ret _ _ _ _ _ Hwf Hget) as [-> Ht].
  pose proof (wf_ctx_len _ Hwf) as Hlen. pose proof (proj1 (proj2 (proj2 Hwf))) as Hu.
  assert (Hidx : Z.to_nat (u32 (ctx_len s - 1)) = (length (tables s) - 1)%nat).
  { destruct (decide (ctx_len s = 0)) as [E|E].
    - rewrite E in Ht |- *. rewrite Hlen in E. rewrite lookup_ge_None_2 in Ht; [done|].
      rewrite u32_pred_zero. unfold UINT_MAX. lia.
    - rewrite u32_small by (unfold is_u32 in *; lia). lia. }
  rewrite Hidx in Ht. destruct (lookup_last_split _ _ Ht) as [ts Hts].
  apply cbind_Ret_inv in H as (xs & s2 & Harg & H).
  arg_read_inv Harg.
  apply cbind_Ret_inv in H as (u & s3 & Hw & H).
  unfold on_libc, lift_cm, mem_write in Hw.
  destruct (heap (libc_of s) !! table t) as [tb|] eqn:E; [| discriminate].
  case_decide as Hb; [| discriminate]. injection Hw as <- <-. injection H as <-.
  exists ts, t, tb, (take (Z.to_nat (cols t)) conds).
  rewrite length_take. pose proof (u32_nonneg (m_nrows s * cols t)).
  split_and!; try done; try lia. rewrite length_take in Hb. lia.
Qed.

(** ** Witnesses *)

(** A context holding one 4 x 3 table, the specification's example
    [(F,T,T), (T,F,T), (T,T,F), (T,T,T)], with its matrix [tb] and cursor
    [n]: matrix in block 2, flags in block 1. *)
Definition demo_rows : list bool :=
  [false; true; true; true; false; true; true; true; false; true; true; true].

Definition demo_table : mcdc_table_t := mk_table "decision" 2 1 4 3.

Definition demo_state (n : Z) (tb : list bool) : pstate :=
  mk_pstate (mk_libc (<[2%N := tb]> (<[1%N := replicate 4 false]> ∅)) 3%N [] 0
               EmptyString EmptyString [])
    n (Some [Some demo_table]) 1 None 4 3.

Lemma mcdc_check_row_marks_first_witness :
  wf (demo_state 4 demo_rows) /\
  mcdc_check_row (Z.of_nat 0) [true; true; true] (demo_state 4 demo_rows) =
    Ret (tt, heap_update 1 (<[3%nat := true]> (replicate 4 false)) (demo_state 4 demo_rows)).
Proof.
  split; [apply (bool_decide_unpack _); vm_compute; reflexivity|].
  apply (mcdc_check_row_marks_first (demo_state 4 demo_rows) 0 demo_table demo_rows
           (replicate 4 false) [true; true; true]);
    try (apply (bool_decide_unpack _); vm_compute; reflexivity); try reflexivity; try lia.
  intros j Hj. do 3 (destruct j as [|j]; [vm_compute; discriminate|]). lia.
Defined.

Lemma mcdc_check_row_no_match_witness :
  wf (demo_state 4 demo_rows) /\
  mcdc_check_row (Z.of_nat 0) [false; false; false] (demo_state 4 demo_rows) =
    Ret (tt, demo_state 4 demo_rows).
Proof.
  split; [apply (bool_decide_unpack _); vm_compute; reflexivity|].
  apply (mcdc_check_row_no_match (demo_state 4 demo_rows) 0 demo_table demo_rows
           (replicate 4 false) [false; false; false]);
    try (apply (bool_decide_unpack _); vm_compute; reflexivity); try reflexivity; try lia.
  intros j Hj. vm_compute in Hj. do 4 (destruct j as [|j]; [vm_compute; discriminate|]). lia.
Defined.

Lemma mcdc_register_row_writes_witness :
  wf (demo_state 2 (take 6 demo_rows ++ replicate 6 false)) /\
  let s := demo_state 2 (take 6 demo_rows ++ replicate 6 false) in
  mcdc_register_row [true; true; false] s =
    Ret (tt, set_nrows (m_nrows s + 1)
               (heap_update (table demo_table)
                  (splice (take 6 demo_rows ++ replicate 6 false) (Z.to_nat (m_nrows s * cols demo_table))
                     [true; true; false]) s)).
Proof.
  split; [apply (bool_decide_unpack _); vm_compute; reflexivity|]. cbv zeta.
  apply (mcdc_register_row_writes _ [] demo_table); try reflexivity;
    try (apply (bool_decide_unpack _); vm_compute; reflexivity); vm_compute; try lia; discriminate.
Defined.

Lemma mcdc_register_row_overflow_witness :
  wf (demo_state 4 demo_rows) /\
  mcdc_register_row [true; true; true] (demo_state 4 demo_rows) = Fault (OutOfBounds "mcdc_register_row").
Proof.
  split; [apply (bool_decide_unpack _); vm_compute; reflexivity|].
  apply (mcdc_register_row_overflow _ [] demo_table demo_rows); try reflexivity;
    try (apply (bool_decide_unpack _); vm_compute; reflexivity); vm_compute; try lia; discriminate.
Defined.

Lemma mcdc_check_row_bad_index_witness :
  wf (demo_state 4 demo_rows) /\ ctx_len (demo_state 4 demo_rows) <= 1 /\
  (mcdc_check_row 1 [true; true; true] (demo_state 4 demo_rows) = Fault (NullDeref "mcdc_check_row") \/
   mcdc_check_row 1 [true; true; true] (demo_state 4 demo_rows) = Fault (OutOfBounds "mcdc_check_row")).
Proof.
  split; [apply (bool_decide_unpack _); vm_compute; reflexivity|]. split; [vm_compute; discriminate|].
  apply mcdc_check_row_bad_index; [apply (bool_decide_unpack _); vm_compute; reflexivity | vm_compute; discriminate].
Defined.

Lemma mcdc_register_row_no_table_witness :
  wf (pstate_init []) /\
  (mcdc_register_row [true] (pstate_init []) = Fault (NullDeref "mcdc_register_row") \/
   mcdc_register_row [true] (pstate_init []) = Fault (OutOfBounds "mcdc_register_row")).
Proof.
  split; [apply (bool_decide_unpack _); vm_compute; reflexivity|].
  apply mcdc_register_row_no_table; [apply (bool_decide_unpack _); vm_compute; reflexivity | reflexivity].
Defined.
