(* ===== verification/Alloc.v ===== *)
(** * Table allocation

    [try], [try_mcdc_alloc_checks], [try_mcdc_alloc_table] and
    [mcdc_alloc_table] of src/mcdc.c (lines 113-196).  The two buffers are
    requested through [try], which clears [errno], runs the request,
    reports a failure on [stderr] and restores [errno]; the request
    functions pass their result through the global [m_ret_malloc].  When
    both buffers exist the context array grows by one slot ([calloc] the
    first time, [realloc] after, followed by the [memset] of line 180) and
    the new record is stored at index [len]. *)

From S2P Require Import Prelude CRuntime McdcState Matcher.

Local Open Scope Z_scope.
Local Open Scope cm_scope.

(** [sizeof(mcdc_cond_t)]: [_Bool] is one byte. *)
Definition sizeof_mcdc_cond_t : Z := 1.

(** [try] (src/mcdc.c 113-126). *)
Definition try (func : cm pstate unit) (msg : string) : cm pstate unit :=
  let* saved_err := on_libc get_errno in
  on_libc (set_errno 0) ;;
  func ;;
  let* e := on_libc get_errno in
  (if negb (e =? 0)
   then on_libc (put_stderr (String.append "[ERROR] " (String.append msg nl)))
   else cret tt) ;;
  on_libc (set_errno saved_err).

(** [try_mcdc_alloc_table] (src/mcdc.c 132-136): the matrix, of
    [m_rows * m_cols] bytes computed in [unsigned int]; the cursor is reset
    whatever [calloc] returned. *)
Definition try_mcdc_alloc_table : cm pstate unit :=
  let* s := cget in
  let* p := on_libc (calloc (u32 (m_rows s * m_cols s)) sizeof_mcdc_cond_t) in
  cmodify (set_ret_malloc p) ;;
  cmodify (set_nrows 0).

(** [try_mcdc_alloc_checks] (src/mcdc.c 138-141). *)
Definition try_mcdc_alloc_checks : cm pstate unit :=
  let* s := cget in
  let* p := on_libc (calloc (m_rows s) sizeof_mcdc_cond_t) in
  cmodify (set_ret_malloc p).

(** [memset(&m_mcdc_context.list[idx], 0, sizeof(mcdc_table_size_t))]:
    inside the array it clobbers the slot (which then holds no whole
    record); past its end it writes outside every tracked object. *)
Definition memset_ctx_slot (idx : Z) : cm pstate unit :=
  fun s => match ctx_list s with
           | None => Fault (NullDeref "mcdc_alloc_table")
           | Some l =>
               if decide (Z.to_nat idx < length l)%nat
               then Ret (tt, set_ctx (Some (<[Z.to_nat idx := None]> l)) (ctx_len s) s)
               else on_libc (log_wild "mcdc_alloc_table: memset past the context array") s
           end.

(** Lines 173-181: the context array grows to [len + 1] slots. *)
Definition regrow_context : cm pstate unit :=
  let* s := cget in
  match ctx_list s with
  | None =>
      let* ok := on_libc alloc_object in
      cmodify (set_ctx (if ok then Some [None] else None) (ctx_len s))
  | Some l =>
      let* ok := on_libc alloc_object in
      let n := Z.to_nat (1 + ctx_len s) in
      cmodify (set_ctx (if ok then Some (take n l ++ replicate (n - length l) None) else None)
                       (ctx_len s)) ;;
      memset_ctx_slot (ctx_len s + 1)
  end.

(** Lines 183-189: the record is stored at index [len], which grows. *)
Definition store_table (t : mcdc_table_t) : cm pstate unit :=
  fun s => match ctx_list s with
           | None => Fault (NullDeref "mcdc_alloc_table")
           | Some l =>
               if decide (Z.to_nat (ctx_len s) < length l)%nat
               then Ret (tt, set_ctx (Some (<[Z.to_nat (ctx_len s) := Some t]> l))
                                     (u32 (ctx_len s + 1)) s)
               else Fault (OutOfBounds "mcdc_alloc_table")
           end.

(** Lines 170-195: the table is committed only when both buffers exist. *)
Definition commit_table (name : string) (rows cols : Z) (checks table : option N)
  : cm pstate unit :=
  match checks, table with
  | Some c, Some tb =>
      regrow_context ;;
      store_table (mk_table name tb c rows cols)
  | _, _ => cret tt
  end.

(** [mcdc_alloc_table] (src/mcdc.c 143-196).  [checks] and [table] start
    NULL and take [m_ret_malloc] when it is not NULL, so each is the
    result of its own request. *)
Definition mcdc_alloc_table (rows cols : Z) (name : string) : cm pstate unit :=
  cmodify (set_dims rows cols) ;;
  try try_mcdc_alloc_checks "MC/DC checks allocation" ;;
  let* s1 := cget in
  let checks := m_ret_malloc s1 in
  try try_mcdc_alloc_table "MC/DC table allocation" ;;
  let* s2 := cget in
  let table := m_ret_malloc s2 in
  commit_table name rows cols checks table.

(** ** Phases of [mcdc_alloc_table] *)

(** The libc state after a request under [try] that failed: the outcome
    is used, [errno] is back to its saved value, the message is printed. *)
Definition libc_after_failed_try (msg : string) (l : libc) : libc :=
  mk_libc (heap l) (next_blk l) (tail (plan l)) (errno l) (stdout l)
    (String.append (stderr l) (String.append "[ERROR] " (String.append msg nl))) (wild l).

Section Requests.
Context (s : pstate) (msg : string).
Let l := libc_of s.

Lemma try_alloc_checks_ok :
  head (plan l) <> Some false ->
  try try_mcdc_alloc_checks msg s =
    Ret (tt, set_ret_malloc (Some (next_blk l))
               (set_libc (libc_after_calloc (m_rows s * sizeof_mcdc_cond_t) l) s)).
Proof.
  subst l. destruct s as [[h nb p e o er w] nr cl len rm r c]; simpl.
  destruct p as [|[] p]; simpl; [reflexivity | reflexivity | congruence].
Qed.

Lemma try_alloc_checks_fail :
  head (plan l) = Some false ->
  try try_mcdc_alloc_checks msg s =
    Ret (tt, set_ret_malloc None (set_libc (libc_after_failed_try msg l) s)).
Proof.
  subst l. destruct s as [[h nb p e o er w] nr cl len rm r c]; simpl.
  destruct p as [|[] p]; simpl; [congruence | congruence | reflexivity].
Qed.

Lemma try_alloc_table_ok :
  head (plan l) <> Some false ->
  try try_mcdc_alloc_table msg s =
    Ret (tt, set_nrows 0 (set_ret_malloc (Some (next_blk l))
               (set_libc (libc_after_calloc (u32 (m_rows s * m_cols s) * sizeof_mcdc_cond_t) l) s))).
Proof.
  subst l. destruct s as [[h nb p e o er w] nr cl len rm r c]; simpl.
  destruct p as [|[] p]; simpl; [reflexivity | reflexivity | congruence].
Qed.

Lemma try_alloc_table_fail :
  head (plan l) = Some false ->
  try try_mcdc_alloc_table msg s =
    Ret (tt, set_nrows 0 (set_ret_malloc None (set_libc (libc_after_failed_try msg l) s))).
Proof.
  subst l. destruct s as [[h nb p e o er w] nr cl len rm r c]; simpl.
  destruct p as [|[] p]; simpl; [congruence | congruence | reflexivity].
Qed.
End Requests.

(** The context array after it grew: the old records and one new slot. *)
Lemma regrow_list (ts : list mcdc_table_t) :
  let n := Z.to_nat (1 + Z.of_nat (length ts)) in
  take n (Some <$> ts) ++ replicate (n - length (Some <$> ts)) None = (Some <$> ts) ++ [None].
Proof.
  simpl. rewrite length_fmap, take_ge by (rewrite length_fmap; lia).
  replace (Z.to_nat (1 + Z.of_nat (length ts)) - length ts)%nat with 1%nat by lia. done.
Qed.

Lemma regrow_context_first s :
  ctx_list s = None -> head (plan (libc_of s)) <> Some false ->
  regrow_context s =
    Ret (tt, set_ctx (Some [None]) (ctx_len s) (set_libc (set_plan (tail (plan (libc_of s))) (libc_of s)) s)).
Proof.
  intros Hn Hok. unfold regrow_context. rewrite cbind_cget. cbv beta. rewrite Hn.
  by cm_step (on_libc_Ret _ s _ _ (alloc_object_ok _ Hok)).
Qed.

(** The message the [memset] past the context array leaves in the log. *)
Definition memset_msg : string := "mcdc_alloc_table: memset past the context array".

Lemma regrow_context_next s ts :
  ctx_list s = Some (Some <$> ts) -> ctx_len s = Z.of_nat (length ts) ->
  head (plan (libc_of s)) <> Some false ->
  regrow_context s =
    Ret (tt, set_libc (mk_libc (heap (libc_of s)) (next_blk (libc_of s)) (tail (plan (libc_of s)))
                         (errno (libc_of s)) (stdout (libc_of s)) (stderr (libc_of s))
                         (wild (libc_of s) ++ [memset_msg]))
               (set_ctx (Some ((Some <$> ts) ++ [None])) (ctx_len s) s)).
Proof.
  intros Hl Hlen Hok. unfold regrow_context. rewrite cbind_cget. cbv beta. rewrite Hl.
  cm_step (on_libc_Ret _ s _ _ (alloc_object_ok _ Hok)).
  unfold cmodify, cbind. rewrite Hlen, regrow_list. unfold memset_ctx_slot. simpl.
  rewrite decide_False by (rewrite length_app, length_fmap; simpl; lia).
  by destruct s.
Qed.

(** [realloc] failing sets the array to NULL, and the [memset] then
    dereferences it. *)
Lemma regrow_context_realloc_fail s l :
  ctx_list s = Some l -> head (plan (libc_of s)) = Some false ->
  regrow_context s = Fault (NullDeref "mcdc_alloc_table").
Proof.
  intros Hl Hf. unfold regrow_context. rewrite cbind_cget. cbv beta. rewrite Hl.
  by cm_step (on_libc_Ret _ s _ _ (alloc_object_fail _ Hf)).
Qed.

Lemma store_table_spec s ts t :
  ctx_list s = Some ((Some <$> ts) ++ [None]) -> ctx_len s = Z.of_nat (length ts) ->
  is_u32 (ctx_len s + 1) ->
  store_table t s = Ret (tt, set_ctx (Some (Some <$> (ts ++ [t]))) (ctx_len s + 1) s).
Proof.
  intros Hl Hlen Hu. unfold store_table. rewrite Hl.
  rewrite decide_True by (rewrite length_app, length_fmap; simpl; lia).
  rewrite u32_small by done. rewrite Hlen, Nat2Z.id.
  rewrite insert_app_r_alt by (rewrite length_fmap; lia).
  rewrite length_fmap, Nat.sub_diag, fmap_app. done.
Qed.

(** When the context array cannot be allocated, the store through it
    dereferences NULL. *)
Lemma commit_table_ctx_fail s name rows cols c tb :
  head (plan (libc_of s)) = Some false ->
  commit_table name rows cols (Some c) (Some tb) s = Fault (NullDeref "mcdc_alloc_table").
Proof.
  intros H. unfold commit_table. destruct (ctx_list s) as [l|] eqn:E.
  - by cm_step (regrow_context_realloc_fail s l E H).
  - unfold regrow_context. rewrite cbind_assoc, cbind_cget. cbv beta. rewrite E.
    rewrite cbind_assoc. cm_step (on_libc_Ret _ _ _ _ (alloc_object_fail _ H)). done.
Qed.

(** ** Successful allocation *)

(** The whole run of [mcdc_alloc_table] when its three allocations
    succeed: the state it ends in, field by field. *)
Lemma mcdc_alloc_table_success s rows cols name :
  wf s -> allocs_succeed 3 (libc_of s) -> is_u32 (ctx_len s + 1) ->
  let l := libc_of s in
  let c := next_blk l in
  let tb := (next_blk l + 1)%N in
  exists s', mcdc_alloc_table rows cols name s = Ret (tt, s') /\
    tables s' = tables s ++ [mk_table name tb c rows cols] /\
    ctx_list s' = Some (Some <$> tables s') /\
    ctx_len s' = ctx_len s + 1 /\
    heap (libc_of s') = <[tb := replicate (Z.to_nat (u32 (rows * cols))) false]>
                          (<[c := replicate (Z.to_nat rows) false]> (heap l)) /\
    next_blk (libc_of s') = (next_blk l + 2)%N /\
    m_nrows s' = 0 /\
    errno (libc_of s') = errno l /\ stdout (libc_of s') = stdout l /\
    stderr (libc_of s') = stderr l /\
    wild (libc_of s') = wild l ++ (if ctx_list s is None then [] else [memset_msg]).
Proof.
  intros Hwf Hok Hu. cbv zeta.
  pose proof (allocs_succeed_head _ _ Hok) as H1.
  pose proof (allocs_succeed_tail _ _ (set_plan (tail (plan (libc_of s))) (libc_of s)) Hok eq_refl) as Hok2.
  pose proof (allocs_succeed_head _ _ Hok2) as H2.
  pose proof (allocs_succeed_head _ _ (allocs_succeed_tail _ _
    (set_plan (tail (tail (plan (libc_of s)))) (libc_of s)) Hok2 eq_refl)) as H3.
  simpl in H2, H3.
  unfold mcdc_alloc_table. rewrite cbind_cmodify.
  cm_step (try_alloc_checks_ok (set_dims rows cols s) "MC/DC checks allocation" H1).
  rewrite cbind_cget. cbv beta.
  erewrite cbind_Ret by (apply try_alloc_table_ok; exact H2). cbv beta.
  rewrite cbind_cget. cbv beta. unfold commit_table. cbn [m_ret_malloc set_nrows set_ret_malloc].
  destruct (wf_ctx_cases s Hwf) as [(Hn & Ht & Hlen) | (Hl & Hlen)].
  - erewrite cbind_Ret by (apply regrow_context_first; [exact Hn | exact H3]). cbv beta.
    rewrite (store_table_spec _ [] _) by (simpl; rewrite ?Hn, ?Hlen; done).
    eexists. split; [reflexivity|]. simpl. rewrite Ht, Hn. unfold sizeof_mcdc_cond_t.
    rewrite !Z.mul_1_r. split_and!; try done; [lia | by rewrite app_nil_r].
  - erewrite cbind_Ret by (eapply regrow_context_next; [exact Hl | exact Hlen | exact H3]). cbv beta.
    rewrite (store_table_spec _ (tables s) _) by (simpl; done).
    eexists. split; [reflexivity|]. simpl. rewrite !tables_set_ctx, Hl.
    unfold sizeof_mcdc_cond_t. rewrite !Z.mul_1_r. split_and!; try done. lia.
Qed.

(** ** Failed allocation *)

(** The line [try] prints for a failed request. *)
Definition err_line (msg : string) : string :=
  String.append "[ERROR] " (String.append msg nl).

(** One of the two buffer requests fails. *)
Definition alloc_fails (l : libc) : Prop :=
  head (plan l) = Some false \/
  (head (plan l) <> Some false /\ head (tail (plan l)) = Some false).

(** Whatever the second request does after the first failed. *)
Lemma mcdc_alloc_table_checks_failed s rows cols name :
  head (plan (libc_of s)) = Some false ->
  exists s', mcdc_alloc_table rows cols name s = Ret (tt, s') /\
    ctx_list s' = ctx_list s /\ ctx_len s' = ctx_len s /\ m_nrows s' = 0 /\
    heap_extends (libc_of s) (libc_of s') /\
    (exists rest, stderr (libc_of s') =
       String.append (String.append (stderr (libc_of s)) (err_line "MC/DC checks allocation")) rest).
Proof.
  intros H1. unfold mcdc_alloc_table. rewrite cbind_cmodify.
  cm_step (try_alloc_checks_fail (set_dims rows cols s) "MC/DC checks allocation" H1).
  rewrite cbind_cget. cbv beta.
  destruct (decide (head (tail (plan (libc_of s))) = Some false)) as [H2|H2].
  - erewrite cbind_Ret by (apply try_alloc_table_fail; exact H2). cbv beta.
    rewrite cbind_cget. cbv beta. eexists. split; [reflexivity|]. simpl.
    split_and!; try done; try (by apply heap_extends_same_heap).
    eexists. reflexivity.
  - erewrite cbind_Ret by (apply try_alloc_table_ok; exact H2). cbv beta.
    rewrite cbind_cget. cbv beta. eexists. split; [reflexivity|]. simpl.
    split_and!; try done.
    all: try (eapply heap_extends_trans; [| apply heap_extends_calloc]; by apply heap_extends_same_heap).
    exists EmptyString. by rewrite string_app_nil_r.
Qed.

(** The checks buffer was allocated, the matrix was not. *)
Lemma mcdc_alloc_table_table_failed s rows cols name :
  head (plan (libc_of s)) <> Some false -> head (tail (plan (libc_of s))) = Some false ->
  exists s', mcdc_alloc_table rows cols name s = Ret (tt, s') /\
    ctx_list s' = ctx_list s /\ ctx_len s' = ctx_len s /\ m_nrows s' = 0 /\
    heap (libc_of s') = <[next_blk (libc_of s) := replicate (Z.to_nat rows) false]> (heap (libc_of s)) /\
    next_blk (libc_of s') = (next_blk (libc_of s) + 1)%N /\
    m_ret_malloc s' = None /\
    heap_extends (libc_of s) (libc_of s') /\
    stderr (libc_of s') = String.append (stderr (libc_of s)) (err_line "MC/DC table allocation").
Proof.
  intros H1 H2. unfold mcdc_alloc_table. rewrite cbind_cmodify.
  cm_step (try_alloc_checks_ok (set_dims rows cols s) "MC/DC checks allocation" H1).
  rewrite cbind_cget. cbv beta.
  erewrite cbind_Ret by (apply try_alloc_table_fail; exact H2). cbv beta.
  rewrite cbind_cget. cbv beta. eexists. split; [reflexivity|]. simpl.
  unfold sizeof_mcdc_cond_t. rewrite Z.mul_1_r. split_and!; try done.
  eapply heap_extends_trans; [apply heap_extends_calloc|]. by apply heap_extends_same_heap.
Qed.

Lemma mcdc_alloc_table_failed s rows cols name :
  alloc_fails (libc_of s) ->
  exists s', mcdc_alloc_table rows cols name s = Ret (tt, s') /\
    ctx_list s' = ctx_list s /\ ctx_len s' = ctx_len s /\ m_nrows s' = 0 /\
    heap_extends (libc_of s) (libc_of s') /\
    exists msg rest, msg ∈ ["MC/DC checks allocation"; "MC/DC table allocation"] /\
      stderr (libc_of s') = String.append (String.append (stderr (libc_of s)) (err_line msg)) rest.
Proof.
  intros [H1 | [H1 H2]].
  - destruct (mcdc_alloc_table_checks_failed s rows cols name H1) as (s' & ? & ? & ? & ? & ? & rest & ?).
    exists s'. split_and!; try done. exists "MC/DC checks allocation", rest. split; [set_solver | done].
  - destruct (mcdc_alloc_table_table_failed s rows cols name H1 H2) as (s' & ? & ? & ? & ? & _ & _ & _ & ? & Herr).
    exists s'. split_and!; try done. exists "MC/DC table allocation", EmptyString. split; [set_solver|].
    by rewrite Herr, string_app_nil_r.
Qed.

(** ** Well-formedness is preserved *)

(** The state a successful allocation ends in is well formed: the new
    table's buffers are fresh, distinct and sized by its dimensions. *)
Lemma wf_after_success s s' rows cols name :
  wf s -> is_u32 rows -> is_u32 cols -> is_u32 (ctx_len s + 1) ->
  let c := next_blk (libc_of s) in
  let tb := (next_blk (libc_of s) + 1)%N in
  tables s' = tables s ++ [mk_table name tb c rows cols] ->
  ctx_list s' = Some (Some <$> tables s') ->
  ctx_len s' = ctx_len s + 1 ->
  heap (libc_of s') = <[tb := replicate (Z.to_nat (u32 (rows * cols))) false]>
                        (<[c := replicate (Z.to_nat rows) false]> (heap (libc_of s))) ->
  next_blk (libc_of s') = (next_blk (libc_of s) + 2)%N ->
  m_nrows s' = 0 -> wf s'.
Proof.
  intros Hwf Hr Hc Hu c tb Ht Hl Hlen Hh Hnb Hn.
  pose proof (wf_ctx_len s Hwf) as Hlen0.
  destruct Hwf as (Hfr & _ & _ & _ & Hf & Hnd & Hlt).
  unfold wf, ctx_shape. rewrite Hl, Hlen, Hn, Ht, blocks_app, Hnb.
  rewrite Forall_forall in Hlt.
  split_and!.
  - unfold heap_fresh in *. rewrite Hh, Hnb. apply map_Forall_insert_2; [lia|].
    apply map_Forall_insert_2; [lia|]. eapply map_Forall_impl; [exact Hfr|]. simpl. intros. lia.
  - unfold is_u32, UINT_MAX. lia.
  - done.
  - done.
  - rewrite length_fmap, length_app, Hlen0. simpl. lia.
  - apply Forall_app. split.
    + rewrite Forall_forall in Hf |- *. intros t Ht'.
      apply (table_wf_heap_ext (heap (libc_of s))); [| by apply Hf].
      intros b Hbt. assert (b < c)%N by (apply Hlt, elem_of_blocks; eauto).
      rewrite Hh, !lookup_insert_ne by lia. done.
    + apply Forall_singleton. unfold table_wf. simpl. rewrite Hh.
      rewrite lookup_insert_eq, lookup_insert_ne, lookup_insert_eq by lia. simpl.
      rewrite !length_replicate. split_and!; done.
  - apply NoDup_app. split_and!; [done | |].
    + intros b Hb Hb'. apply Hlt in Hb. simpl in Hb'. set_solver by lia.
    + apply NoDup_cons. split; [set_solver by lia | apply NoDup_singleton].
  - apply Forall_app. split.
    + rewrite Forall_forall. intros b Hb. apply Hlt in Hb. lia.
    + simpl. repeat constructor; lia.
Qed.

Lemma mcdc_alloc_table_wf s rows cols name s' :
  wf s -> is_u32 rows -> is_u32 cols -> is_u32 (ctx_len s + 1) ->
  mcdc_alloc_table rows cols name s = Ret (tt, s') ->
  wf s' /\ m_nrows s' = 0 /\
  (tables s' = tables s \/ exists c tb, tables s' = tables s ++ [mk_table name tb c rows cols]).
Proof.
  intros Hwf Hr Hc Hu Hrun.
  destruct (decide (alloc_fails (libc_of s))) as [Hf | Hok].
  - destruct (mcdc_alloc_table_failed s rows cols name Hf) as (s'' & Hrun' & Hl & Hlen & Hn & Hext & _).
    rewrite Hrun in Hrun'. injection Hrun' as <-. split_and!; [| done | left; unfold tables; by rewrite Hl].
    apply (wf_heap_extends s); try done. rewrite Hn. unfold is_u32, UINT_MAX. lia.
  - destruct (decide (head (tail (tail (plan (libc_of s)))) = Some false)) as [H3 | H3].
    + (* the context allocation fails: NULL is dereferenced *)
      exfalso. unfold alloc_fails in Hok.
      assert (H1 : head (plan (libc_of s)) <> Some false) by naive_solver.
      assert (H2 : head (tail (plan (libc_of s))) <> Some false) by naive_solver.
      revert Hrun. unfold mcdc_alloc_table. rewrite cbind_cmodify.
      cm_step (try_alloc_checks_ok (set_dims rows cols s) "MC/DC checks allocation" H1).
      rewrite cbind_cget. cbv beta.
      erewrite cbind_Ret by (apply try_alloc_table_ok; exact H2). cbv beta.
      rewrite cbind_cget. cbv beta. cbn [m_ret_malloc set_nrows set_ret_malloc].
      rewrite commit_table_ctx_fail by exact H3. discriminate.
    + unfold alloc_fails in Hok.
      assert (H1 : head (plan (libc_of s)) <> Some false) by (intros E; apply Hok; by left).
      assert (H2 : head (tail (plan (libc_of s))) <> Some false) by (intros E; apply Hok; by right).
      assert (Hok3 : allocs_succeed 3 (libc_of s)) by (by apply allocs_succeed_3).
      destruct (mcdc_alloc_table_success s rows cols name Hwf Hok3 Hu)
        as (s'' & Hrun' & Ht & Hl & Hlen & Hh & Hnb & Hn & _).
      rewrite Hrun in Hrun'. injection Hrun' as <-. split_and!; [| done | right; eauto].
      by apply (wf_after_success s s' rows cols name).
Qed.

(** ** Properties of allocation *)

(** C4: when its three allocations succeed, [mcdc_alloc_table] appends a
    table whose two buffers are fresh and zeroed, the matrix sized
    [rows * cols] computed in [unsigned int], leaves every older buffer
    alone and resets the cursor. *)
Theorem mcdc_alloc_table_appends s rows cols name :
  wf s -> allocs_succeed 3 (libc_of s) -> is_u32 (ctx_len s + 1) ->
  let c := next_blk (libc_of s) in
  let tb := (next_blk (libc_of s) + 1)%N in
  exists s', mcdc_alloc_table rows cols name s = Ret (tt, s') /\
    tables s' = tables s ++ [mk_table name tb c rows cols] /\
    heap (libc_of s') !! tb = Some (replicate (Z.to_nat (u32 (rows * cols))) false) /\
    heap (libc_of s') !! c = Some (replicate (Z.to_nat rows) false) /\
    (forall b, (b < c)%N -> heap (libc_of s') !! b = heap (libc_of s) !! b) /\
    m_nrows s' = 0.
Proof.
  intros Hwf Hok Hu c tb.
  destruct (mcdc_alloc_table_success s rows cols name Hwf Hok Hu)
    as (s' & Hrun & Ht & _ & _ & Hh & _ & Hn & _).
  exists s'. rewrite Hh. split_and!; try done.
  - by rewrite lookup_insert_eq.
  - subst c tb. rewrite lookup_insert_ne, lookup_insert_eq by lia. done.
  - intros b Hb. subst c tb. rewrite !lookup_insert_ne by lia. done.
Qed.

(** C18: when a buffer request fails, no table is added: the context is
    unchanged and [try] prints an error line on [stderr]. *)
Theorem mcdc_alloc_table_failure_keeps_tables s rows cols name :
  alloc_fails (libc_of s) ->
  exists s', mcdc_alloc_table rows cols name s = Ret (tt, s') /\
    tables s' = tables s /\ ctx_len s' = ctx_len s /\
    exists msg rest, msg ∈ ["MC/DC checks allocation"; "MC/DC table allocation"] /\
      stderr (libc_of s') = String.append (String.append (stderr (libc_of s)) (err_line msg)) rest.
Proof.
  intros Hf. destruct (mcdc_alloc_table_failed s rows cols name Hf) as (s' & Hrun & Hl & Hlen & _ & _ & Herr).
  exists s'. split_and!; try done. unfold tables. by rewrite Hl.
Qed.

(** C19: a failed allocation still resets the registration cursor, so the
    rows the driver goes on to register overwrite the previous table from
    its first row. *)
Theorem mcdc_alloc_table_failure_resets_cursor s ts t tb conds r c nm :
  wf s -> tables s = ts ++ [t] -> heap (libc_of s) !! table t = Some tb ->
  0 < rows t -> rows t * cols t <= UINT_MAX -> length conds = Z.to_nat (cols t) ->
  alloc_fails (libc_of s) ->
  exists s' s'', mcdc_alloc_table r c nm s = Ret (tt, s') /\
    mcdc_register_row conds s' = Ret (tt, s'') /\
    heap (libc_of s'') !! table t = Some (splice tb 0 conds).
Proof.
  intros Hwf Hts Htb Hr Hnov Hc Hf.
  destruct (mcdc_alloc_table_failed s r c nm Hf) as (s' & Hrun & Hl & Hlen & Hn & Hext & _).
  assert (Hwf' : wf s') by (apply (wf_heap_extends s); try done; rewrite Hn; unfold is_u32, UINT_MAX; lia).
  assert (Hts' : tables s' = ts ++ [t]) by (unfold tables; rewrite Hl; exact Hts).
  assert (Htb' : heap (libc_of s') !! table t = Some tb).
  { destruct Hext as (_ & Hold & _). rewrite Hold; [done|].
    destruct Hwf as (_ & _ & _ & _ & _ & _ & Hlt). rewrite Forall_forall in Hlt.
    apply Hlt, elem_of_blocks. exists t. split; [| by left]. rewrite Hts. set_solver. }
  exists s'. eexists. split_and!; [done | |].
  - apply (register_row_spec s' ts t tb conds Hwf' Hts' Htb'); [lia | done | done].
  - simpl. rewrite Hn, Z.mul_0_l. apply lookup_insert_eq.
Qed.

(** C20: when the matrix request fails after the checks request
    succeeded, the checks buffer stays allocated but nothing refers to it:
    no table, and not [m_ret_malloc]. *)
Theorem mcdc_alloc_table_leaks_checks s rows cols name :
  wf s -> head (plan (libc_of s)) <> Some false -> head (tail (plan (libc_of s))) = Some false ->
  exists s', mcdc_alloc_table rows cols name s = Ret (tt, s') /\
    heap (libc_of s') !! next_blk (libc_of s) = Some (replicate (Z.to_nat rows) false) /\
    (next_blk (libc_of s) ∉ blocks (tables s')) /\
    m_ret_malloc s' = None.
Proof.
  intros Hwf H1 H2.
  destruct (mcdc_alloc_table_table_failed s rows cols name H1 H2)
    as (s' & Hrun & Hl & _ & _ & Hh & _ & Hm & _).
  exists s'. rewrite Hh, lookup_insert_eq. split_and!; try done.
  assert (Ht : tables s' = tables s) by (unfold tables; by rewrite Hl). rewrite Ht.
  destruct Hwf as (_ & _ & _ & _ & _ & _ & Hlt). rewrite Forall_forall in Hlt.
  intros Hin. apply Hlt in Hin. lia.
Qed.

(** C21: every allocation after the first writes past the end of the
    context array it has just reallocated (the [memset] of line 180
    targets slot [len + 1] of an array of [len + 1] slots). *)
Theorem mcdc_alloc_table_writes_past_context s rows cols name :
  wf s -> tables s <> [] -> allocs_succeed 3 (libc_of s) -> is_u32 (ctx_len s + 1) ->
  exists s', mcdc_alloc_table rows cols name s = Ret (tt, s') /\
    wild (libc_of s') = wild (libc_of s) ++ [memset_msg].
Proof.
  intros Hwf Hne Hok Hu.
  destruct (mcdc_alloc_table_success s rows cols name Hwf Hok Hu) as (s' & Hrun & _ & _ & _ & _ & _ & _ & _ & _ & _ & Hw).
  exists s'. split; [done|]. rewrite Hw.
  destruct (wf_ctx_cases s Hwf) as [(_ & Ht & _) | (Hl & _)]; [done|]. by rewrite Hl.
Qed.

(** C22: the matrix size [rows * cols] wraps at [2^32]: a table whose
    wrapped size is smaller than one row cannot take its first row, the
    registration writes out of bounds. *)
Theorem mcdc_alloc_table_size_wraps s rows cols name conds :
  wf s -> allocs_succeed 3 (libc_of s) -> is_u32 (ctx_len s + 1) ->
  is_u32 rows -> is_u32 cols -> u32 (rows * cols) < cols ->
  (Z.to_nat cols <= length conds)%nat ->
  exists s', mcdc_alloc_table rows cols name s = Ret (tt, s') /\
    mcdc_register_row conds s' = Fault (OutOfBounds "mcdc_register_row").
Proof.
  intros Hwf Hok Hu Hr Hc Hwrap Hlen.
  destruct (mcdc_alloc_table_success s rows cols name Hwf Hok Hu)
    as (s' & Hrun & Ht & Hl & Hlen' & Hh & Hnb & Hn & _).
  assert (Hwf' : wf s') by (by apply (wf_after_success s s' rows cols name)).
  exists s'. split; [done|].
  apply (register_row_oob s' (tables s) (mk_table name (next_blk (libc_of s) + 1) (next_blk (libc_of s)) rows cols)
           (replicate (Z.to_nat (u32 (rows * cols))) false));
    try done; simpl.
  - rewrite Hh. by rewrite lookup_insert_eq.
  - rewrite length_replicate, Hn. pose proof (u32_nonneg (rows * cols)). lia.
  - rewrite Hn. unfold UINT_MAX. lia.
Qed.

(** C38: when both buffers are allocated but the context array cannot
    grow ([calloc] of line 175 or [realloc] of line 179 returns NULL),
    [mcdc_alloc_table] dereferences the NULL array (the [memset] of line
    180 or the store of line 183) instead of reporting
    [AllocationFailure]; the result of [realloc] overwrote the only
    pointer to the old array. *)
Theorem mcdc_alloc_table_context_fail s rows cols name :
  head (plan (libc_of s)) <> Some false -> head (tail (plan (libc_of s))) <> Some false ->
  head (tail (tail (plan (libc_of s)))) = Some false ->
  mcdc_alloc_table rows cols name s = Fault (NullDeref "mcdc_alloc_table").
Proof.
  intros H1 H2 H3. unfold mcdc_alloc_table. rewrite cbind_cmodify.
  cm_step (try_alloc_checks_ok (set_dims rows cols s) "MC/DC checks allocation" H1).
  rewrite cbind_cget. cbv beta.
  erewrite cbind_Ret by (apply try_alloc_table_ok; exact H2). cbv beta.
  rewrite cbind_cget. cbv beta. by apply commit_table_ctx_fail.
Qed.

(** C39: [try] runs [func] with [errno] cleared, prints
    ["[ERROR] " ^ msg] on standard error exactly when [func] left a
    nonzero [errno], and gives back the caller's [errno]; nothing else
    of the state [func] produced is touched. *)
Theorem try_restores_errno (func : cm pstate unit) msg s s1 :
  func (set_libc (set_errno_l 0 (libc_of s)) s) = Ret (tt, s1) ->
  let l1 := libc_of s1 in
  try func msg s =
    Ret (tt, set_libc (mk_libc (heap l1) (next_blk l1) (plan l1) (errno (libc_of s)) (stdout l1)
                         (String.append (stderr l1)
                            (if decide (errno l1 = 0) then EmptyString else err_line msg))
                         (wild l1)) s1).
Proof.
  intros H. unfold try.
  rewrite (cbind_Ret _ _ s (errno (libc_of s)) (set_libc (libc_of s) s)) by reflexivity.
  rewrite (cbind_Ret _ _ _ tt (set_libc (set_errno_l 0 (libc_of s)) s)) by reflexivity.
  rewrite (cbind_Ret _ _ _ tt s1 H).
  destruct s1 as [[h1 nb1 p1 e1 o1 er1 w1] nr1 cl1 len1 rm1 r1 c1]. cbn.
  destruct (decide (e1 = 0)) as [->|He]; cbn.
  - by rewrite string_app_nil_r.
  - by rewrite (proj2 (Z.eqb_neq _ _) He).
Qed.

(** ** Witnesses *)

(** The specification's 4 x 3 table, allocated and filled from the start
    state; the allocations after it follow the plan [p]. *)
Definition sample_registered (p : list bool) : pstate :=
  exec (mcdc_alloc_table 4 3 "decision" ;;
        mcdc_register_row [false; true; true] ;;
        mcdc_register_row [true; false; true] ;;
        mcdc_register_row [true; true; false] ;;
        mcdc_register_row [true; true; true])
    (pstate_init (true :: true :: true :: p)).

Lemma mcdc_alloc_table_appends_witness :
  wf (pstate_init []) /\
  let s := pstate_init [] in
  let c := next_blk (libc_of s) in
  let tb := (next_blk (libc_of s) + 1)%N in
  exists s', mcdc_alloc_table 4 3 "decision" s = Ret (tt, s') /\
    tables s' = tables s ++ [mk_table "decision" tb c 4 3] /\
    heap (libc_of s') !! tb = Some (replicate (Z.to_nat (u32 (4 * 3))) false) /\
    heap (libc_of s') !! c = Some (replicate (Z.to_nat 4) false) /\
    (forall b, (b < c)%N -> heap (libc_of s') !! b = heap (libc_of s) !! b) /\
    m_nrows s' = 0.
Proof.
  split; [apply (bool_decide_unpack _); vm_compute; reflexivity|].
  apply mcdc_alloc_table_appends; [apply (bool_decide_unpack _); vm_compute; reflexivity | | ].
  - unfold allocs_succeed. vm_compute. repeat constructor.
  - vm_compute. split; discriminate.
Defined.

Lemma mcdc_alloc_table_failure_keeps_tables_witness :
  alloc_fails (libc_of (pstate_init [false])) /\
  exists s', mcdc_alloc_table 4 3 "decision" (pstate_init [false]) = Ret (tt, s') /\
    tables s' = tables (pstate_init [false]) /\ ctx_len s' = ctx_len (pstate_init [false]) /\
    exists msg rest, msg ∈ ["MC/DC checks allocation"; "MC/DC table allocation"] /\
      stderr (libc_of s') = String.append (String.append (stderr (libc_of (pstate_init [false]))) (err_line msg)) rest.
Proof.
  split; [left; reflexivity|].
  apply mcdc_alloc_table_failure_keeps_tables. left. reflexivity.
Defined.

Lemma mcdc_alloc_table_failure_resets_cursor_witness :
  wf (sample_registered [false]) /\
  exists s' s'', mcdc_alloc_table 2 1 "i == n" (sample_registered [false]) = Ret (tt, s') /\
    mcdc_register_row [true; true; true] s' = Ret (tt, s'') /\
    heap (libc_of s'') !! table demo_table = Some (splice demo_rows 0 [true; true; true]).
Proof.
  split; [apply (bool_decide_unpack _); vm_compute; reflexivity|].
  apply (mcdc_alloc_table_failure_resets_cursor (sample_registered [false]) []);
    try (apply (bool_decide_unpack _); vm_compute; reflexivity); try reflexivity; try (vm_compute; lia);
    left; reflexivity.
Defined.

Lemma mcdc_alloc_table_leaks_checks_witness :
  wf (pstate_init [true; false]) /\
  exists s', mcdc_alloc_table 4 3 "decision" (pstate_init [true; false]) = Ret (tt, s') /\
    heap (libc_of s') !! next_blk (libc_of (pstate_init [true; false])) = Some (replicate (Z.to_nat 4) false) /\
    (next_blk (libc_of (pstate_init [true; false])) ∉ blocks (tables s')) /\
    m_ret_malloc s' = None.
Proof.
  split; [apply (bool_decide_unpack _); vm_compute; reflexivity|].
  apply mcdc_alloc_table_leaks_checks;
    [apply (bool_decide_unpack _); vm_compute; reflexivity | discriminate | reflexivity].
Defined.

Lemma mcdc_alloc_table_writes_past_context_witness :
  wf (sample_registered []) /\ tables (sample_registered []) <> [] /\
  exists s', mcdc_alloc_table 2 1 "i == n" (sample_registered []) = Ret (tt, s') /\
    wild (libc_of s') = wild (libc_of (sample_registered [])) ++ [memset_msg].
Proof.
  split; [apply (bool_decide_unpack _); vm_compute; reflexivity|].
  split; [vm_compute; discriminate|].
  apply mcdc_alloc_table_writes_past_context;
    [apply (bool_decide_unpack _); vm_compute; reflexivity | vm_compute; discriminate |
     unfold allocs_succeed; vm_compute; repeat constructor | vm_compute; split; discriminate].
Defined.

Lemma mcdc_alloc_table_size_wraps_witness :
  u32 (65536 * 65536) < 65536 /\
  exists s', mcdc_alloc_table 65536 65536 "wide" (pstate_init []) = Ret (tt, s') /\
    mcdc_register_row (replicate (Z.to_nat 65536) true) s' = Fault (OutOfBounds "mcdc_register_row").
Proof.
  split; [vm_compute; reflexivity|].
  apply mcdc_alloc_table_size_wraps;
    [apply (bool_decide_unpack _); vm_compute; reflexivity | unfold allocs_succeed; vm_compute; repeat constructor |
     vm_compute; split; discriminate | vm_compute; split; discriminate | vm_compute; split; discriminate |
     vm_compute; reflexivity | rewrite length_replicate; lia].
Defined.

Lemma mcdc_alloc_table_context_fail_witness :
  head (plan (libc_of (sample_registered [true; true; false]))) <> Some false /\
  head (tail (plan (libc_of (sample_registered [true; true; false])))) <> Some false /\
  head (tail (tail (plan (libc_of (sample_registered [true; true; false]))))) = Some false /\
  mcdc_alloc_table 2 1 "i == n" (sample_registered [true; true; false]) = Fault (NullDeref "mcdc_alloc_table").
Proof.
  assert (H1 : head (plan (libc_of (sample_registered [true; true; false]))) <> Some false) by (vm_compute; discriminate).
  assert (H2 : head (tail (plan (libc_of (sample_registered [true; true; false])))) <> Some false) by (vm_compute; discriminate).
  assert (H3 : head (tail (tail (plan (libc_of (sample_registered [true; true; false]))))) = Some false) by (vm_compute; reflexivity).
  split_and!; [exact H1 | exact H2 | exact H3 | exact (mcdc_alloc_table_context_fail _ 2 1 "i == n" H1 H2 H3)].
Defined.

(** A caller whose [errno] is 7 runs the checks request, which fails. *)
Definition try_demo : pstate :=
  set_libc (set_errno_l 7 (libc_of (pstate_init [false]))) (set_dims 2 1 (pstate_init [false])).

Definition try_demo_after : pstate :=
  exec try_mcdc_alloc_checks (set_libc (set_errno_l 0 (libc_of try_demo)) try_demo).

Lemma try_restores_errno_witness :
  try_mcdc_alloc_checks (set_libc (set_errno_l 0 (libc_of try_demo)) try_demo) = Ret (tt, try_demo_after) /\
  errno (libc_of try_demo_after) = ENOMEM /\
  let l1 := libc_of try_demo_after in
  try try_mcdc_alloc_checks "MC/DC checks allocation" try_demo =
    Ret (tt, set_libc (mk_libc (heap l1) (next_blk l1) (plan l1) (errno (libc_of try_demo)) (stdout l1)
                         (String.append (stderr l1)
                            (if decide (errno l1 = 0) then EmptyString else err_line "MC/DC checks allocation"))
                         (wild l1)) try_demo_after).
Proof.
  assert (H : try_mcdc_alloc_checks (set_libc (set_errno_l 0 (libc_of try_demo)) try_demo) = Ret (tt, try_demo_after))
    by (vm_compute; reflexivity).
  split_and!; [exact H | vm_compute; reflexivity |].
  exact (try_restores_errno _ "MC/DC checks allocation" _ _ H).
Defined.
