(* ===== verification/CoverageSpec.v ===== *)
(** * The coverage engine of the specification, and its refinement

    The specification (sections 3, 4 and 7) describes the engine over
    abstract data: a table is a name, its dimensions, the list of expected
    condition rows registered so far and one observed flag per row; the
    engine keeps the tables in allocation order and a registration cursor,
    and reports errors as values ([aerror]).  [abs] reads that abstract
    state off a [pstate]: the rows of each table are the [cols]-byte slices
    of its matrix buffer, the flags its checks buffer.  The refinement
    theorems show that [mcdc_check_row], [mcdc_register_row] and a
    successful [mcdc_alloc_table] move [abs] exactly as the abstract
    operations do, that a failed allocation does not (it resets the
    cursor), that registration touches only the last table, and that
    every state an API call sequence reaches is well formed. *)

From S2P Require Import Prelude CRuntime McdcState Matcher Alloc.

Local Open Scope Z_scope.
Local Open Scope cm_scope.

(** ** The abstract engine *)

Record atable := mk_atable {
  a_name : string;
  a_rows : nat;
  a_cols : nat;
  a_expected : list (list bool);
  a_observed : list bool
}.

Record astate := mk_astate {
  a_tables : list atable;
  a_cursor : nat
}.

(** The error taxonomy of section 7 that the operations can raise. *)
Inductive aerror := AllocationFailure | OutOfRangeRegistration | OutOfRangeTableIndex.

(** The observed flags after [v] was seen: the first equal row is marked. *)
Definition mark_first (expected : list (list bool)) (observed : list bool) (v : list bool)
  : list bool :=
  match list_find (fun r => r = v) expected with
  | Some (i, _) => <[i := true]> observed
  | None => observed
  end.

Definition a_alloc (ok : bool) (rows cols : nat) (name : string) (a : astate) : aerror + astate :=
  if ok then inr (mk_astate (a_tables a ++ [mk_atable name rows cols
                                              (replicate rows (replicate cols false))
                                              (replicate rows false)]) 0)
  else inl AllocationFailure.

Definition a_register (conds : list bool) (a : astate) : aerror + astate :=
  match last (a_tables a) with
  | None => inl OutOfRangeTableIndex
  | Some t =>
      if decide (a_cursor a < a_rows t)%nat
      then inr (mk_astate (<[(length (a_tables a) - 1)%nat :=
                               mk_atable (a_name t) (a_rows t) (a_cols t)
                                 (<[a_cursor a := conds]> (a_expected t)) (a_observed t)]>
                             (a_tables a)) (S (a_cursor a)))
      else inl OutOfRangeRegistration
  end.

Definition a_check (idx : nat) (v : list bool) (a : astate) : aerror + astate :=
  match a_tables a !! idx with
  | None => inl OutOfRangeTableIndex
  | Some t =>
      inr (mk_astate (<[idx := mk_atable (a_name t) (a_rows t) (a_cols t) (a_expected t)
                                 (mark_first (a_expected t) (a_observed t) v)]> (a_tables a))
             (a_cursor a))
  end.

(** Section 4.3: the number of observed rows, and PASS when it is [rows]. *)
Definition a_checks_passed (t : atable) : nat := length (filter (fun b => b = true) (a_observed t)).
Definition a_pass (t : atable) : bool := Nat.eqb (a_checks_passed t) (a_rows t).

(** ** The abstraction function *)

Definition abs_table (h : gmap N (list bool)) (t : mcdc_table_t) : option atable :=
  tb ← h !! table t;
  cb ← h !! checks t;
  Some (mk_atable (name t) (Z.to_nat (rows t)) (Z.to_nat (cols t))
          (map (row_of tb (Z.to_nat (cols t))) (seq 0 (Z.to_nat (rows t)))) cb).

Definition abs (s : pstate) : option astate :=
  ts ← mapM (abs_table (heap (libc_of s))) (tables s);
  Some (mk_astate ts (Z.to_nat (m_nrows s))).

(** No table's matrix size wraps. *)
Definition no_overflow (s : pstate) : Prop :=
  Forall (fun t => rows t * cols t <= UINT_MAX) (tables s).

#[export] Instance no_overflow_dec s : Decision (no_overflow s).
Proof. unfold no_overflow. apply _. Defined.

(** ** Facts about the abstraction *)

Lemma abs_Some s a :
  abs s = Some a ->
  a_cursor a = Z.to_nat (m_nrows s) /\
  Forall2 (fun t at' => abs_table (heap (libc_of s)) t = Some at') (tables s) (a_tables a).
Proof.
  unfold abs. destruct (mapM _ _) as [ts|] eqn:E; [| discriminate]. intros [= <-].
  split; [done|]. by apply mapM_Some_1.
Qed.

Lemma abs_table_Some h t at' :
  abs_table h t = Some at' ->
  exists tb cb, h !! table t = Some tb /\ h !! checks t = Some cb /\
    at' = mk_atable (name t) (Z.to_nat (rows t)) (Z.to_nat (cols t))
            (map (row_of tb (Z.to_nat (cols t))) (seq 0 (Z.to_nat (rows t)))) cb.
Proof.
  unfold abs_table. destruct (h !! table t) as [tb|]; [| discriminate].
  destruct (h !! checks t) as [cb|]; [| discriminate]. simpl. intros [= <-]. eauto.
Qed.

(** A write to a block the table does not own leaves its reading alone. *)
Lemma abs_table_insert_other h t b x :
  b <> table t -> b <> checks t -> abs_table (<[b := x]> h) t = abs_table h t.
Proof. intros. unfold abs_table. rewrite !lookup_insert_ne by done. done. Qed.

(** The first-match scan of the code is the [list_find] of the rows. *)
Lemma find_row_list_find tb c v k :
  find_row tb c v 0 k = fst <$> list_find (fun r => r = v) (map (row_of tb c) (seq 0 k)).
Proof.
  destruct (find_row tb c v 0 k) as [j|] eqn:E.
  - apply find_row_Some in E as (Hj & Hrow & Hbefore).
    assert (Hf : list_find (fun r => r = v) (map (row_of tb c) (seq 0 k)) = Some (j, v)).
    { apply list_find_Some. split_and!.
      - rewrite list_lookup_fmap, lookup_seq_lt by lia. simpl. by rewrite Hrow.
      - done.
      - intros m y Hm Hlt. rewrite list_lookup_fmap in Hm.
        rewrite lookup_seq_lt in Hm by lia. simpl in Hm. injection Hm as <-.
        apply Hbefore. lia. }
    by rewrite Hf.
  - assert (Hf : list_find (fun r => r = v) (map (row_of tb c) (seq 0 k)) = None).
    { apply list_find_None, Forall_forall. intros r Hr.
      apply list_elem_of_fmap in Hr as (m & -> & Hm). apply elem_of_seq in Hm.
      apply (find_row_None _ _ _ _ _ E). lia. }
    by rewrite Hf.
Qed.

(** The blocks of two different tables differ. *)
Lemma wf_blocks_disjoint s n n' t t' :
  wf s -> tables s !! n = Some t -> tables s !! n' = Some t' -> n <> n' ->
  table t' <> checks t /\ checks t' <> checks t /\ table t' <> table t /\ checks t' <> table t.
Proof.
  intros (_ & _ & _ & _ & _ & Hnd & _) Ht Ht' Hne.
  destruct (blocks_lookup _ _ _ Ht) as [H1 H2]. destruct (blocks_lookup _ _ _ Ht') as [H1' H2'].
  assert (Hd : forall i j x y, blocks (tables s) !! i = Some x -> blocks (tables s) !! j = Some y ->
                 i <> j -> x <> y).
  { intros i j x y Hx Hy Hij ->. apply Hij. by eapply NoDup_lookup. }
  split_and!; eapply Hd; eauto; lia.
Qed.

(** ** Refinement of [mcdc_check_row] *)

(** The abstract state after the checks buffer of table [idx] was
    rewritten to [cb']. *)
Lemma abs_update_checks s a idx t at' cb' :
  wf s -> abs s = Some a -> tables s !! idx = Some t -> a_tables a !! idx = Some at' ->
  abs (heap_update (checks t) cb' s) =
    Some (mk_astate (<[idx := mk_atable (a_name at') (a_rows at') (a_cols at') (a_expected at') cb']>
                       (a_tables a)) (a_cursor a)).
Proof.
  intros Hwf Ha Ht Hat. pose proof (abs_Some _ _ Ha) as [Hcur Hall].
  pose proof (proj1 (Forall2_lookup _ _ _) Hall idx) as Hidx. rewrite Ht, Hat in Hidx.
  inversion Hidx as [? ? Habs|]; subst.
  destruct (abs_table_Some _ _ _ Habs) as (tb & cb & Htb & Hcb & ->).
  pose proof (wf_table_ne_checks _ _ _ Hwf Ht) as Hne.
  unfold abs. rewrite tables_heap_update.
  erewrite mapM_update; [by rewrite Hcur | by apply mapM_Some_2 | |].
  - intros j x Hx Hj. simpl. destruct (wf_blocks_disjoint s idx j t x Hwf Ht Hx) as (? & ? & _); [lia|].
    by apply abs_table_insert_other.
  - intros x Hx. rewrite Ht in Hx. injection Hx as <-. unfold abs_table. simpl.
    rewrite (lookup_insert_ne _ (checks t) (table t)) by congruence. rewrite Htb, lookup_insert_eq. done.
Qed.

Lemma check_row_abs s a (idx : nat) v :
  wf s -> abs s = Some a -> no_overflow s ->
  (forall t, tables s !! idx = Some t -> length v = Z.to_nat (cols t)) ->
  match a_check idx v a with
  | inr a' => exists s', mcdc_check_row (Z.of_nat idx) v s = Ret (tt, s') /\ abs s' = Some a'
  | inl e => e = OutOfRangeTableIndex /\ exists f, mcdc_check_row (Z.of_nat idx) v s = Fault f
  end.
Proof.
  intros Hwf Ha Hno Hv. pose proof (abs_Some _ _ Ha) as [Hcur Hall].
  unfold a_check. destruct (a_tables a !! idx) as [at'|] eqn:Ea.
  - destruct (Forall2_lookup_r _ _ _ _ _ Hall Ea) as (t & Ht & Habs).
    destruct (abs_table_Some _ _ _ Habs) as (tb & cb & Htb & Hcb & Hat).
    pose proof (Forall_lookup_1 _ _ _ _ Hno Ht) as Hnov.
    rewrite (mcdc_check_row_find s idx t tb cb v Hwf Ht Hnov Htb Hcb (Hv t Ht)).
    rewrite find_row_list_find. unfold mark_first. rewrite Hat. simpl.
    destruct (list_find _ _) as [[j r]|] eqn:F; simpl.
    + eexists. split; [reflexivity|].
      rewrite (abs_update_checks s a idx t at' _ Hwf Ha Ht Ea), Hat. done.
    + exists s. split; [done|]. rewrite Ha. destruct a as [ts cur]. simpl in *.
      rewrite list_insert_id; [done|]. by rewrite Ea, Hat.
  - split; [done|].
    pose proof (Forall2_length _ _ _ Hall) as Hlen.
    apply lookup_ge_None_1 in Ea. rewrite <- Hlen in Ea.
    pose proof (wf_ctx_len _ Hwf) as Hctx.
    unfold mcdc_check_row.
    destruct (ctx_get_out_of_range "mcdc_check_row" s (Z.of_nat idx) Hwf ltac:(lia) ltac:(lia)) as [H | H];
      eexists; by cm_step H.
Qed.

(** C6: [mcdc_check_row] refines [a_check]: on a valid index it moves the
    abstract state exactly as the specification's first-match marking
    does, and on an invalid index the specification's error is the code's
    undefined behaviour. *)
Theorem mcdc_check_row_refines s a (idx : nat) v :
  wf s -> abs s = Some a -> no_overflow s ->
  (forall t, tables s !! idx = Some t -> length v = Z.to_nat (cols t)) ->
  match a_check idx v a with
  | inr a' => exists s', mcdc_check_row (Z.of_nat idx) v s = Ret (tt, s') /\ abs s' = Some a'
  | inl e => e = OutOfRangeTableIndex /\ exists f, mcdc_check_row (Z.of_nat idx) v s = Fault f
  end.
Proof. apply check_row_abs. Qed.

(** ** Refinement of [mcdc_register_row] *)

(** The cursor never passes the last table's row count (for a table with
    columns: with none, registration writes nothing and never fails). *)
Definition cursor_ok (s : pstate) : Prop :=
  forall ts t, tables s = ts ++ [t] -> 0 < cols t -> m_nrows s <= rows t.

(** Writing row [k] of a row-major matrix replaces that row only. *)
Lemma rows_splice tb (c r k : nat) xs :
  length tb = (r * c)%nat -> (k < r)%nat -> length xs = c ->
  map (row_of (splice tb (k * c) xs) c) (seq 0 r) = <[k := xs]> (map (row_of tb c) (seq 0 r)).
Proof.
  intros Htb Hk Hxs. apply list_eq. intros i.
  rewrite list_lookup_fmap. destruct (decide (i < r)%nat) as [Hi|Hi].
  - rewrite lookup_seq_lt by done. simpl. destruct (decide (i = k)) as [->|Hne].
    + rewrite list_lookup_insert_eq by (rewrite length_map, length_seq; lia).
      assert (Hs : slice (splice tb (k * c) xs) (k * c) (length xs) = xs) by (apply slice_splice_eq; nia).
      rewrite Hxs in Hs. unfold row_of. by rewrite Hs.
    + rewrite list_lookup_insert_ne by done. rewrite list_lookup_fmap, lookup_seq_lt by done.
      simpl. unfold row_of. f_equal. apply slice_splice_disjoint; [nia|].
      destruct (decide (i < k)%nat); [left | right]; nia.
  - rewrite lookup_seq_ge by lia. rewrite list_lookup_insert_ne by lia.
    rewrite list_lookup_fmap, lookup_seq_ge by lia. done.
Qed.

(** The abstract state after the matrix of table [idx] was rewritten. *)
Lemma abs_update_table s a idx t at' tb' :
  wf s -> abs s = Some a -> tables s !! idx = Some t -> a_tables a !! idx = Some at' ->
  abs (heap_update (table t) tb' s) =
    Some (mk_astate (<[idx := mk_atable (a_name at') (a_rows at') (a_cols at')
                                (map (row_of tb' (a_cols at')) (seq 0 (a_rows at'))) (a_observed at')]>
                       (a_tables a)) (a_cursor a)).
Proof.
  intros Hwf Ha Ht Hat. pose proof (abs_Some _ _ Ha) as [Hcur Hall].
  pose proof (proj1 (Forall2_lookup _ _ _) Hall idx) as Hidx. rewrite Ht, Hat in Hidx.
  inversion Hidx as [? ? Habs|]; subst.
  destruct (abs_table_Some _ _ _ Habs) as (tb & cb & Htb & Hcb & ->).
  pose proof (wf_table_ne_checks _ _ _ Hwf Ht) as Hne.
  unfold abs. rewrite tables_heap_update.
  erewrite mapM_update; [by rewrite Hcur | by apply mapM_Some_2 | |].
  - intros j x Hx Hj. simpl. destruct (wf_blocks_disjoint s idx j t x Hwf Ht Hx) as (_ & _ & ? & ?); [lia|].
    by apply abs_table_insert_other.
  - intros x Hx. rewrite Ht in Hx. injection Hx as <-. unfold abs_table. simpl.
    rewrite lookup_insert_eq, (lookup_insert_ne _ (table t) (checks t)) by done. rewrite Hcb. done.
Qed.

Lemma abs_set_nrows s a n :
  abs s = Some a -> abs (set_nrows n s) = Some (mk_astate (a_tables a) (Z.to_nat n)).
Proof.
  unfold abs. simpl. rewrite tables_set_nrows.
  destruct (mapM _ _); [| discriminate]. by intros [= <-].
Qed.

(** The last abstract table reads the last table of the context. *)
Lemma abs_last s a at' :
  abs s = Some a -> last (a_tables a) = Some at' ->
  exists ts t, tables s = ts ++ [t] /\ abs_table (heap (libc_of s)) t = Some at' /\
    length ts = (length (a_tables a) - 1)%nat.
Proof.
  intros Ha Hl. pose proof (abs_Some _ _ Ha) as [_ Hall].
  apply last_Some in Hl as [ks Hks]. rewrite Hks in Hall.
  apply Forall2_app_inv_r in Hall as (ts & ts' & Hts & Hlast & ->).
  inversion Hlast as [|t ? ? ? Habs Hnil]; subst. inversion Hnil; subst.
  exists ts, t. split_and!; [done | done |]. rewrite Hks, length_app. simpl.
  rewrite (Forall2_length _ _ _ Hts). lia.
Qed.

Lemma register_row_abs s a conds :
  wf s -> abs s = Some a -> no_overflow s -> cursor_ok s ->
  (forall ts t, tables s = ts ++ [t] -> 0 < cols t /\ length conds = Z.to_nat (cols t)) ->
  match a_register conds a with
  | inr a' => exists s', mcdc_register_row conds s = Ret (tt, s') /\ abs s' = Some a'
  | inl _ => exists f, mcdc_register_row conds s = Fault f
  end.
Proof.
  intros Hwf Ha Hno Hcur Hc. pose proof (abs_Some _ _ Ha) as [Hcura Hall].
  unfold a_register. destruct (last (a_tables a)) as [at'|] eqn:El.
  - destruct (abs_last _ _ _ Ha El) as (ts & t & Hts & Habs & Hlen).
    destruct (abs_table_Some _ _ _ Habs) as (tb & cb & Htb & Hcb & Hat).
    destruct (Hc ts t Hts) as [Hpos Hconds].
    assert (Hnov : rows t * cols t <= UINT_MAX).
    { apply (Forall_lookup_1 _ _ (length ts) _ Hno). rewrite Hts. by apply list_lookup_middle. }
    assert (Hidx : tables s !! length ts = Some t) by (rewrite Hts; by apply list_lookup_middle).
    assert (Hidxa : a_tables a !! length ts = Some at').
    { apply last_Some in El as [ks Hks]. rewrite Hks in Hlen |- *. rewrite length_app in Hlen.
      simpl in Hlen. rewrite list_lookup_middle; [done | lia]. }
    pose proof (wf_table_wf _ _ _ Hwf Hidx) as Htw.
    destruct (table_wf_lengths _ _ _ _ Htw Htb Hcb) as [Hltb _]. destruct Htw as (Hr & Hcl & _).
    pose proof (proj1 (proj2 Hwf)) as Hn. unfold is_u32 in *.
    rewrite u32_small in Hltb by (unfold is_u32; nia).
    rewrite Hat, Hcura. simpl. case_decide as Hlt.
    + eexists. split.
      { apply (register_row_spec s ts t tb conds Hwf Hts Htb); [lia | done | done]. }
      erewrite abs_set_nrows by (apply (abs_update_table s a (length ts) t at'); done).
      rewrite Hlen, Hat, Hcura. simpl. do 3 f_equal; [| lia].
      f_equal. f_equal. rewrite Z2Nat.inj_mul by lia.
      apply rows_splice; [rewrite Hltb; apply Z2Nat.inj_mul; lia | lia | done].
    + exists (OutOfBounds "mcdc_register_row").
      assert (m_nrows s = rows t) by (pose proof (Hcur ts t Hts Hpos); lia).
      apply (register_row_oob s ts t tb conds Hwf Hts Htb); [| nia | lia].
      rewrite Hltb. rewrite Z2Nat.id by nia. nia.
  - apply last_None in El. assert (Ht : tables s = []).
    { apply Forall2_length in Hall. rewrite El in Hall. by apply nil_length_inv. }
    pose proof (wf_ctx_len _ Hwf) as Hlen. rewrite Ht in Hlen. simpl in Hlen.
    unfold mcdc_register_row. rewrite cbind_cget. cbv beta.
    destruct (ctx_get_out_of_range "mcdc_register_row" s (u32 (ctx_len s - 1)) Hwf
                ltac:(apply u32_nonneg) ltac:(rewrite Hlen; apply u32_nonneg)) as [H | H];
      eexists; by cm_step H.
Qed.

(** C7: [mcdc_register_row] refines [a_register]: below the declared row
    count it writes the vector as the row at the cursor and advances the
    cursor; past it, or with no table, the specification's error is the
    code's undefined behaviour. *)
Theorem mcdc_register_row_refines s a conds :
  wf s -> abs s = Some a -> no_overflow s -> cursor_ok s ->
  (forall ts t, tables s = ts ++ [t] -> 0 < cols t /\ length conds = Z.to_nat (cols t)) ->
  match a_register conds a with
  | inr a' => exists s', mcdc_register_row conds s = Ret (tt, s') /\ abs s' = Some a'
  | inl _ => exists f, mcdc_register_row conds s = Fault f
  end.
Proof. apply register_row_abs. Qed.

(** ** Refinement of [mcdc_alloc_table] *)

(** A heap that agrees below [next_blk] reads the same tables. *)
Lemma abs_tables_grow s h' :
  wf s -> (forall b, (b < next_blk (libc_of s))%N -> h' !! b = heap (libc_of s) !! b) ->
  mapM (abs_table h') (tables s) = mapM (abs_table (heap (libc_of s))) (tables s).
Proof.
  intros (_ & _ & _ & _ & _ & _ & Hlt) Hh. apply mapM_ext_in, Forall_forall. intros t Ht.
  rewrite Forall_forall in Hlt.
  assert (H1 : (table t < next_blk (libc_of s))%N) by (apply Hlt, elem_of_blocks; eauto).
  assert (H2 : (checks t < next_blk (libc_of s))%N) by (apply Hlt, elem_of_blocks; eauto).
  unfold abs_table. by rewrite !Hh.
Qed.

Lemma abs_tables s a : abs s = Some a -> mapM (abs_table (heap (libc_of s))) (tables s) = Some (a_tables a).
Proof. intros Ha. apply mapM_Some_2. exact (proj2 (abs_Some _ _ Ha)). Qed.

(** The rows of a zeroed matrix are zero. *)
Lemma rows_zero (r c : nat) :
  map (row_of (replicate (r * c) false) c) (seq 0 r) = replicate r (replicate c false).
Proof.
  apply list_eq. intros i. rewrite list_lookup_fmap.
  destruct (decide (i < r)%nat) as [Hi|Hi].
  - rewrite lookup_seq_lt, lookup_replicate_2 by done. simpl. f_equal.
    unfold row_of, slice. rewrite drop_replicate, take_replicate. f_equal. nia.
  - rewrite lookup_seq_ge by lia. rewrite (proj1 (lookup_replicate_None _ _ _)) by lia. done.
Qed.

Lemma alloc_abs s a rows cols name :
  wf s -> abs s = Some a -> allocs_succeed 3 (libc_of s) -> is_u32 (ctx_len s + 1) ->
  0 <= rows -> 0 <= cols -> rows * cols <= UINT_MAX ->
  exists s' a', mcdc_alloc_table rows cols name s = Ret (tt, s') /\
    a_alloc true (Z.to_nat rows) (Z.to_nat cols) name a = inr a' /\ abs s' = Some a'.
Proof.
  intros Hwf Ha Hok Hu Hr Hc Hno.
  destruct (mcdc_alloc_table_success s rows cols name Hwf Hok Hu)
    as (s' & Hrun & Ht & _ & _ & Hh & _ & Hn & _).
  exists s'. eexists. split_and!; [exact Hrun | reflexivity |].
  unfold abs. rewrite Ht, Hn. erewrite mapM_app_Some; [reflexivity | |].
  - rewrite abs_tables_grow by (done || (intros b Hb; rewrite Hh, !lookup_insert_ne by lia; done)).
    by apply abs_tables.
  - simpl. unfold abs_table. simpl. rewrite Hh, lookup_insert_eq, lookup_insert_ne, lookup_insert_eq by lia.
    simpl. rewrite u32_small by (unfold is_u32; nia). rewrite Z2Nat.inj_mul by lia.
    by rewrite rows_zero.
Qed.

(** C8: a successful [mcdc_alloc_table] refines [a_alloc]: when the three
    allocations succeed and [rows * cols] fits in [unsigned int], the
    abstract state gains a new last table with every row unregistered and
    every flag clear, the older tables read the same, and the cursor is 0. *)
Theorem mcdc_alloc_table_refines s a rows cols name :
  wf s -> abs s = Some a -> allocs_succeed 3 (libc_of s) -> is_u32 (ctx_len s + 1) ->
  0 <= rows -> 0 <= cols -> rows * cols <= UINT_MAX ->
  exists s' a', mcdc_alloc_table rows cols name s = Ret (tt, s') /\
    a_alloc true (Z.to_nat rows) (Z.to_nat cols) name a = inr a' /\ abs s' = Some a'.
Proof. apply alloc_abs. Qed.

(** C17: a failed [mcdc_alloc_table] diverges from [a_alloc]: where the
    specification raises an allocation failure and changes nothing, the
    code returns with every table reading as before but the cursor reset
    to 0. *)
Theorem mcdc_alloc_table_failure_refines s a rows cols name :
  wf s -> abs s = Some a -> alloc_fails (libc_of s) ->
  a_alloc false (Z.to_nat rows) (Z.to_nat cols) name a = inl AllocationFailure /\
  exists s', mcdc_alloc_table rows cols name s = Ret (tt, s') /\
    abs s' = Some (mk_astate (a_tables a) 0).
Proof.
  intros Hwf Ha Hf. split; [done|].
  destruct (mcdc_alloc_table_failed s rows cols name Hf) as (s' & Hrun & Hl & _ & Hn & (_ & Hold & _) & _).
  exists s'. split; [done|].
  assert (Ht : tables s' = tables s) by (unfold tables; by rewrite Hl).
  unfold abs. rewrite Ht, Hn, abs_tables_grow by done. by rewrite (abs_tables _ _ Ha).
Qed.

(** ** The API and the states it reaches *)

(** The three state-changing entry points of src/mcdc.h (lines 24-26). *)
Inductive api_call :=
| CallAlloc (rows cols : Z) (name : string)
| CallRegister (conds : list bool)
| CallCheck (at_table : Z) (row : list bool).

Definition run_call (c : api_call) : cm pstate unit :=
  match c with
  | CallAlloc r c nm => mcdc_alloc_table r c nm
  | CallRegister conds => mcdc_register_row conds
  | CallCheck i row => mcdc_check_row i row
  end.

(** What a caller guarantees: arguments of their C types, a matrix size
    that does not wrap and a table count that fits [len]. *)
Definition call_ok (c : api_call) (s : pstate) : Prop :=
  match c with
  | CallAlloc r c _ => is_u32 r /\ is_u32 c /\ r * c <= UINT_MAX /\ is_u32 (ctx_len s + 1)
  | CallRegister _ => True
  | CallCheck i _ => is_u32 i
  end.

(** The states a program reaches from start-up by calls that return. *)
Inductive reachable : pstate -> Prop :=
| reachable_init p : reachable (pstate_init p)
| reachable_step s c s' :
    reachable s -> call_ok c s -> run_call c s = Ret (tt, s') -> reachable s'.

(** What the C types of the arguments alone guarantee: unlike [call_ok],
    the product [rows * cols] may wrap. *)
Definition call_typed (c : api_call) (s : pstate) : Prop :=
  match c with
  | CallAlloc r c _ => is_u32 r /\ is_u32 c /\ is_u32 (ctx_len s + 1)
  | CallRegister _ => True
  | CallCheck i _ => is_u32 i
  end.

(** The states reached by calls with arguments of their C types. *)
Inductive reachable_typed : pstate -> Prop :=
| reachable_typed_init p : reachable_typed (pstate_init p)
| reachable_typed_step s c s' :
    reachable_typed s -> call_typed c s -> run_call c s = Ret (tt, s') -> reachable_typed s'.

(** The invariant of reachable states. *)
Definition inv (s : pstate) : Prop := wf s /\ no_overflow s /\ cursor_ok s.

(** Every call that returns keeps the state well formed, whether or not
    the table size wraps. *)
Lemma wf_run_call c s s' : wf s -> call_typed c s -> run_call c s = Ret (tt, s') -> wf s'.
Proof.
  destruct c as [r c nm | conds | i row]; simpl; intros Hwf Hok Hrun.
  - destruct Hok as (Hr & Hc & Hu). by destruct (mcdc_alloc_table_wf s r c nm s' Hwf Hr Hc Hu Hrun).
  - destruct (mcdc_register_row_Ret conds s s' Hwf Hrun) as (ts & t & tb & xs & Hts & Htb & Hfit & _ & ->).
    apply wf_set_nrows; [| apply u32_range].
    apply (wf_heap_update _ _ tb); [done | done | by rewrite length_splice].
  - destruct (mcdc_check_row_Ret i row s s' Hwf Hrun) as [-> | (n & t & cb & j & Ht & Hcb & Hj & ->)]; [done|].
    apply (wf_heap_update _ _ cb); [done | done | by rewrite length_insert].
Qed.

Lemma call_ok_typed c s : call_ok c s -> call_typed c s.
Proof. destruct c; simpl; naive_solver. Qed.

Lemma cursor_ok_reset s : wf s -> m_nrows s = 0 -> cursor_ok s.
Proof.
  intros Hwf Hn ts t Hts _. rewrite Hn.
  assert (Ht : tables s !! length ts = Some t) by (rewrite Hts; by apply list_lookup_middle).
  destruct (wf_table_wf _ _ _ Hwf Ht) as [[? _] _]. done.
Qed.

Lemma cursor_ok_same s s' :
  cursor_ok s -> tables s' = tables s -> m_nrows s' = m_nrows s -> cursor_ok s'.
Proof. intros H Ht Hn ts t Hts. rewrite Hn. apply (H ts t). by rewrite <- Ht. Qed.

Lemma inv_init p : inv (pstate_init p).
Proof.
  split_and!.
  - apply (bool_decide_unpack _). vm_compute. reflexivity.
  - unfold no_overflow. done.
  - intros ts t Hts. destruct ts; discriminate.
Qed.

Lemma inv_alloc s r c nm s' :
  inv s -> call_ok (CallAlloc r c nm) s -> mcdc_alloc_table r c nm s = Ret (tt, s') -> inv s'.
Proof.
  intros (Hwf & Hno & _) (Hr & Hc & Hrc & Hu) Hrun.
  destruct (mcdc_alloc_table_wf s r c nm s' Hwf Hr Hc Hu Hrun) as (Hwf' & Hn & Ht).
  split_and!; [done | | by apply cursor_ok_reset].
  unfold no_overflow. destruct Ht as [-> | (? & ? & ->)]; [done|].
  apply Forall_app. split; [done|]. by apply Forall_singleton.
Qed.

Lemma inv_register s conds s' :
  inv s -> mcdc_register_row conds s = Ret (tt, s') -> inv s'.
Proof.
  intros (Hwf & Hno & Hcur) Hrun.
  destruct (mcdc_register_row_Ret conds s s' Hwf Hrun) as (ts & t & tb & xs & Hts & Htb & Hfit & Hxs & ->).
  assert (Ht : tables s !! length ts = Some t) by (rewrite Hts; by apply list_lookup_middle).
  pose proof (wf_table_wf _ _ _ Hwf Ht) as Htw.
  pose proof (Forall_lookup_1 _ _ _ _ Hno Ht) as Hnov. simpl in Hnov.
  destruct Htw as (Hr & Hc & Hltb & _). rewrite Htb in Hltb. injection Hltb as Hltb.
  pose proof (proj1 (proj2 Hwf)) as Hn. unfold is_u32 in *.
  rewrite u32_small in Hltb by (unfold is_u32; nia).
  split_and!.
  - by apply (wf_run_call (CallRegister conds) s).
  - done.
  - intros ts' t' Hts' Hpos. rewrite tables_set_nrows, tables_heap_update, Hts in Hts'. apply app_inj_tail in Hts' as [_ <-].
    pose proof (Hcur ts t Hts Hpos) as Hle. simpl.
    rewrite u32_small in Hfit by (unfold is_u32; nia).
    assert (m_nrows s + 1 <= rows t) by nia. rewrite u32_small by (unfold is_u32; lia). lia.
Qed.

Lemma inv_check s i row s' :
  inv s -> mcdc_check_row i row s = Ret (tt, s') -> inv s'.
Proof.
  intros (Hwf & Hno & Hcur) Hrun.
  destruct (mcdc_check_row_Ret i row s s' Hwf Hrun) as [-> | (n & t & cb & j & Ht & Hcb & Hj & ->)];
    [by split_and! |].
  split_and!.
  - apply (wf_heap_update _ _ cb); [done | done | by rewrite length_insert].
  - done.
  - by apply (cursor_ok_same s).
Qed.

(** A well-formed state has an abstract reading: every buffer its tables
    name is live. *)
Lemma wf_abs_Some s : wf s -> is_Some (abs s).
Proof.
  intros Hwf. unfold abs. destruct (mapM_is_Some_2 (abs_table (heap (libc_of s))) (tables s)) as [ts ->].
  - destruct Hwf as (_ & _ & _ & _ & Hf & _). eapply Forall_impl; [exact Hf|].
    intros t (_ & _ & Htb & Hcb). simpl. unfold abs_table.
    destruct (heap (libc_of s) !! table t); [| discriminate].
    destruct (heap (libc_of s) !! checks t); [| discriminate]. done.
  - done.
Qed.

Lemma reachable_inv_step s : reachable s -> inv s.
Proof.
  induction 1 as [p | s [r c nm | conds | i row] s' _ IH Hok Hrun].
  - apply inv_init.
  - by apply (inv_alloc s r c nm).
  - by apply (inv_register s conds).
  - by apply (inv_check s i row).
Qed.

(** C5: every state that a sequence of calls with arguments of their C
    types reaches from start-up is well formed: its buffers are live,
    pairwise distinct and below the next fresh block, every table's
    matrix holds [u32 (rows * cols)] bytes and its flags [rows] bytes, the
    cursor and [len] are [unsigned int] values and the context array
    holds exactly the [len] table records; and it has an abstract
    reading.  Table sizes may wrap here (the matrix is then short, as
    the code allocates it): the theorem assumes nothing about them. *)
Theorem reachable_wf s :
  reachable_typed s -> wf s /\ is_Some (abs s).
Proof.
  intros Hr. assert (Hwf : wf s).
  { induction Hr as [p | s c s' _ IH Hok Hrun]; [by destruct (inv_init p) | by apply (wf_run_call c s)]. }
  split; [done | by apply wf_abs_Some].
Qed.

Lemma reachable_typed_of s : reachable s -> reachable_typed s.
Proof.
  induction 1 as [p | s c s' _ IH Hok Hrun]; [constructor |].
  apply (reachable_typed_step s c s'); [done | by apply call_ok_typed | done].
Qed.

Lemma cursor_ok_last s :
  (forall t, last (tables s) = Some t -> 0 < cols t -> m_nrows s <= rows t) -> cursor_ok s.
Proof. intros H ts t Hts. apply H. by rewrite Hts, last_snoc. Qed.

(** ** Witnesses *)

(** A short session: a 4x3 table, two registered rows, one check. *)
Definition session_alloc : pstate := exec (mcdc_alloc_table 4 3 "decision") (pstate_init []).
Definition session_reg1 : pstate := exec (mcdc_register_row [false; true; true]) session_alloc.
Definition session_reg2 : pstate := exec (mcdc_register_row [true; false; true]) session_reg1.
Definition session_check : pstate := exec (mcdc_check_row 0 [true; false; true]) session_reg2.

Lemma session_reachable : reachable session_check.
Proof.
  apply (reachable_step session_reg2 (CallCheck 0 [true; false; true])); [| decide_by_eval | vm_compute; reflexivity].
  apply (reachable_step session_reg1 (CallRegister [true; false; true])); [| exact I | vm_compute; reflexivity].
  apply (reachable_step session_alloc (CallRegister [false; true; true])); [| exact I | vm_compute; reflexivity].
  apply (reachable_step (pstate_init []) (CallAlloc 4 3 "decision")); [constructor | | vm_compute; reflexivity].
  vm_compute. split_and!; congruence.
Qed.

(** A 2 x 2^31 table: its size wraps to 0. *)
Definition wrap_state : pstate := exec (mcdc_alloc_table 2 2147483648 "wide") (pstate_init []).

Lemma reachable_wf_witness :
  reachable_typed wrap_state /\ ~ no_overflow wrap_state /\
  wf wrap_state /\ is_Some (abs wrap_state).
Proof.
  assert (Hr : reachable_typed wrap_state).
  { apply (reachable_typed_step (pstate_init []) (CallAlloc 2 2147483648 "wide")); [constructor | | vm_compute; reflexivity].
    vm_compute. split_and!; congruence. }
  split_and!; [exact Hr | decide_by_eval | exact (proj1 (reachable_wf _ Hr)) | exact (proj2 (reachable_wf _ Hr))].
Defined.

Lemma mcdc_check_row_refines_witness :
  let s := demo_state 4 demo_rows in
  let a := default (mk_astate [] 0) (abs s) in
  wf s /\ abs s = Some a /\ no_overflow s /\
  (forall t, tables s !! 0%nat = Some t -> length [true; true; true] = Z.to_nat (cols t)) /\
  match a_check 0 [true; true; true] a with
  | inr a' => exists s', mcdc_check_row (Z.of_nat 0) [true; true; true] s = Ret (tt, s') /\ abs s' = Some a'
  | inl e => e = OutOfRangeTableIndex /\ exists f, mcdc_check_row (Z.of_nat 0) [true; true; true] s = Fault f
  end.
Proof.
  cbv zeta.
  assert (Hv : forall t, tables (demo_state 4 demo_rows) !! 0%nat = Some t ->
                 length [true; true; true] = Z.to_nat (cols t)).
  { intros t Ht. vm_compute in Ht. by injection Ht as <-. }
  split_and!; [decide_by_eval | vm_compute; reflexivity | decide_by_eval | exact Hv |].
  apply mcdc_check_row_refines; [decide_by_eval | vm_compute; reflexivity | decide_by_eval | exact Hv].
Defined.

Lemma mcdc_register_row_refines_witness :
  let s := demo_state 2 (take 6 demo_rows ++ replicate 6 false) in
  let a := default (mk_astate [] 0) (abs s) in
  wf s /\ abs s = Some a /\ no_overflow s /\ cursor_ok s /\
  (forall ts t, tables s = ts ++ [t] -> 0 < cols t /\ length [true; true; false] = Z.to_nat (cols t)) /\
  match a_register [true; true; false] a with
  | inr a' => exists s', mcdc_register_row [true; true; false] s = Ret (tt, s') /\ abs s' = Some a'
  | inl _ => exists f, mcdc_register_row [true; true; false] s = Fault f
  end.
Proof.
  cbv zeta.
  assert (Hc : forall ts t, tables (demo_state 2 (take 6 demo_rows ++ replicate 6 false)) = ts ++ [t] ->
                 0 < cols t /\ length [true; true; false] = Z.to_nat (cols t)).
  { intros ts t Hts. assert (E : tables (demo_state 2 (take 6 demo_rows ++ replicate 6 false)) = [] ++ [demo_table])
      by reflexivity.
    rewrite E in Hts. apply app_inj_tail in Hts as [_ <-]. vm_compute. split; [done | vm_compute; reflexivity]. }
  assert (Hcur : cursor_ok (demo_state 2 (take 6 demo_rows ++ replicate 6 false))).
  { apply cursor_ok_last. intros t Ht. vm_compute in Ht. injection Ht as <-. vm_compute. congruence. }
  split_and!; [decide_by_eval | vm_compute; reflexivity | decide_by_eval | exact Hcur | exact Hc |].
  apply mcdc_register_row_refines; [decide_by_eval | vm_compute; reflexivity | decide_by_eval | exact Hcur | exact Hc].
Defined.

Lemma mcdc_alloc_table_refines_witness :
  let s := demo_state 4 demo_rows in
  let a := default (mk_astate [] 0) (abs s) in
  wf s /\ abs s = Some a /\ allocs_succeed 3 (libc_of s) /\ is_u32 (ctx_len s + 1) /\
  exists s' a', mcdc_alloc_table 2 3 "inner" s = Ret (tt, s') /\
    a_alloc true (Z.to_nat 2) (Z.to_nat 3) "inner" a = inr a' /\ abs s' = Some a'.
Proof.
  cbv zeta.
  assert (Hok : allocs_succeed 3 (libc_of (demo_state 4 demo_rows))) by (unfold allocs_succeed; vm_compute; constructor).
  split_and!; [decide_by_eval | vm_compute; reflexivity | exact Hok | decide_by_eval |].
  apply mcdc_alloc_table_refines; [decide_by_eval | vm_compute; reflexivity | exact Hok | decide_by_eval | lia | lia | vm_compute; congruence].
Defined.

Lemma mcdc_alloc_table_failure_refines_witness :
  let s := set_libc (set_plan [false] (libc_of (demo_state 4 demo_rows))) (demo_state 4 demo_rows) in
  let a := default (mk_astate [] 0) (abs s) in
  wf s /\ abs s = Some a /\ alloc_fails (libc_of s) /\
  a_alloc false (Z.to_nat 2) (Z.to_nat 2) "inner" a = inl AllocationFailure /\
  exists s', mcdc_alloc_table 2 2 "inner" s = Ret (tt, s') /\ abs s' = Some (mk_astate (a_tables a) 0).
Proof.
  cbv zeta.
  assert (Hf : alloc_fails (libc_of (set_libc (set_plan [false] (libc_of (demo_state 4 demo_rows)))
                                       (demo_state 4 demo_rows)))) by (left; reflexivity).
  split_and!; [decide_by_eval | vm_compute; reflexivity | exact Hf | reflexivity |].
  apply mcdc_alloc_table_failure_refines; [decide_by_eval | vm_compute; reflexivity | exact Hf].
Defined.

(** ** Isolation of tables *)

(** C30: registration changes only the last table (section 8: rows
    registered into a second table do not corrupt the first): every other
    table reads the same afterwards. *)
Theorem mcdc_register_row_isolation s a conds s' :
  wf s -> abs s = Some a -> mcdc_register_row conds s = Ret (tt, s') ->
  exists a', abs s' = Some a' /\ length (a_tables a') = length (a_tables a) /\
    forall j, (S j < length (a_tables a))%nat -> a_tables a' !! j = a_tables a !! j.
Proof.
  intros Hwf Ha Hrun.
  destruct (mcdc_register_row_Ret conds s s' Hwf Hrun) as (ts & t & tb & xs & Hts & Htb & _ & _ & ->).
  pose proof (Forall2_length _ _ _ (proj2 (abs_Some _ _ Ha))) as Hlen.
  assert (Ht : tables s !! length ts = Some t) by (rewrite Hts; by apply list_lookup_middle).
  destruct (Forall2_lookup_l _ _ _ _ _ (proj2 (abs_Some _ _ Ha)) Ht) as (at' & Hat & _).
  erewrite abs_set_nrows by (apply (abs_update_table s a (length ts) t at'); done).
  eexists. split; [reflexivity|]. simpl. rewrite length_insert. split; [done|].
  intros j Hj. rewrite list_lookup_insert_ne; [done|].
  rewrite <- Hlen, Hts, length_app in Hj. simpl in Hj. lia.
Qed.

Lemma mcdc_register_row_isolation_witness :
  let s := session_reg1 in
  let a := default (mk_astate [] 0) (abs s) in
  wf s /\ abs s = Some a /\ mcdc_register_row [true; false; true] s = Ret (tt, session_reg2) /\
  exists a', abs session_reg2 = Some a' /\ length (a_tables a') = length (a_tables a) /\
    forall j, (S j < length (a_tables a))%nat -> a_tables a' !! j = a_tables a !! j.
Proof.
  cbv zeta.
  assert (Hwf : wf session_reg1) by decide_by_eval.
  assert (Ha : abs session_reg1 = Some (default (mk_astate [] 0) (abs session_reg1))) by (vm_compute; reflexivity).
  assert (Hr : mcdc_register_row [true; false; true] session_reg1 = Ret (tt, session_reg2)) by (vm_compute; reflexivity).
  split_and!; [exact Hwf | exact Ha | exact Hr |]. exact (mcdc_register_row_isolation _ _ _ _ Hwf Ha Hr).
Defined.
