(* ===== verification/Report.v ===== *)
(** * The coverage report

    [mcdc_check_mcdc] of src/mcdc.c (lines 74-107): for every table of the
    context, count the rows whose checked flag is set, print the header
    with [checks_passed x rows] and PASS or FAIL, then one line per row
    with the expected conditions as T/F and Checked or Unchecked.  The
    four nested C loops are four fuelled loops; each bound is a field of
    the table (or [len]) that nothing in the loop changes, so the fuel is
    exactly the C trip count.  [a_report] is the report the specification
    (sections 4.3 and 6) describes over the abstract tables; the theorems
    show that the code prints exactly it and changes nothing else. *)

From S2P Require Import Prelude CRuntime McdcState Matcher Alloc CoverageSpec.

Local Open Scope Z_scope.
Local Open Scope cm_scope.

(** ** The text *)

Definition banner : string := "====================================================".
Definition rule : string := "- - - - - - - - - - - - - - - - - - - - - - - - - -".

(** The header [printf] of line 94: [%u] of [checks_passed] and [rows],
    [%39s] of the verdict, [%s] of the name. *)
Definition header_text (passed rows : Z) (all_passed : bool) (nm : string) : string :=
  banner +:+ nl +:+ " MC/DC " +:+ fmt_u passed +:+ " x " +:+ fmt_u rows +:+ " " +:+
  pad_left 39 (if all_passed then "PASS" else "FAIL") +:+ nl +:+
  rule +:+ nl +:+ " " +:+ nm +:+ nl +:+ banner +:+ nl.

(** [printf("%s ", b ? "T" : "F")] of line 101. *)
Definition cell (b : bool) : string := (if b then "T" else "F") +:+ " ".

(** The [%s] of line 104. *)
Definition status (b : bool) : string := if b then "Checked" else "Unchecked".

(** A one-byte read tested against [true] ([== true], or [?:] of a
    normalised [_Bool]). *)
Definition byte_true (x : list bool) : bool := bool_decide (x = [true]).

(** ** The code *)

(** The loops count with [unsigned int] variables that stay below [rows]
    (or [len]), at most [UINT_MAX], so their [++] never wraps.  The index
    [row * cols + col] of line 101 is computed in [unsigned int]. *)

(** Lines 84-90: count the set checked flags from [row] on. *)
Fixpoint count_loop (this : mcdc_table_t) (row : Z) (k : nat) (passed : Z) : cm libc Z :=
  match k with
  | O => cret passed
  | S k' =>
      let* x := mem_read "mcdc_check_mcdc" (checks this) row 1 in
      count_loop this (row + 1) k' (if byte_true x then passed + 1 else passed)
  end.

(** Lines 99-102: print the cells of row [row] from column [col] on. *)
Fixpoint cols_loop (this : mcdc_table_t) (row col : Z) (k : nat) : cm libc unit :=
  match k with
  | O => cret tt
  | S k' =>
      let* x := mem_read "mcdc_check_mcdc" (table this) (u32 (row * cols this + col)) 1 in
      put_stdout (cell (byte_true x)) ;;
      cols_loop this row (col + 1) k'
  end.

(** Lines 96-105: print the rows from [row] on. *)
Fixpoint rows_loop (this : mcdc_table_t) (row : Z) (k : nat) : cm libc unit :=
  match k with
  | O => cret tt
  | S k' =>
      put_stdout (" Test No. " +:+ fmt_u (1 + row) +:+ " | ") ;;
      cols_loop this row 0 (Z.to_nat (cols this)) ;;
      let* x := mem_read "mcdc_check_mcdc" (checks this) row 1 in
      put_stdout ("| " +:+ status (byte_true x) +:+ nl) ;;
      rows_loop this (row + 1) k'
  end.

(** Lines 78-105: the report of one table. *)
Definition report_table (this : mcdc_table_t) : cm libc unit :=
  let* passed := count_loop this 0 (Z.to_nat (rows this)) 0 in
  put_stdout (header_text passed (rows this) (bool_decide (passed = rows this)) (name this)) ;;
  rows_loop this 0 (Z.to_nat (rows this)).

(** Line 76: the tables from [at_table] on. *)
Fixpoint tables_loop (at_table : Z) (k : nat) : cm pstate unit :=
  match k with
  | O => cret tt
  | S k' =>
      let* this := ctx_get "mcdc_check_mcdc" at_table in
      on_libc (report_table this) ;;
      tables_loop (at_table + 1) k'
  end.

(** [mcdc_check_mcdc] (src/mcdc.c 74-107). *)
Definition mcdc_check_mcdc : cm pstate unit :=
  let* s := cget in
  tables_loop 0 (Z.to_nat (ctx_len s)).

(** ** The report of the specification *)

Definition cells (r : list bool) : string := foldr (fun b acc => cell b +:+ acc) EmptyString r.

Definition a_row_text (n : nat) (r : list bool) (o : bool) : string :=
  " Test No. " +:+ fmt_u (Z.of_nat (S n)) +:+ " | " +:+ cells r +:+ "| " +:+ status o +:+ nl.

(** The row lines, numbered from [n + 1]. *)
Fixpoint a_rows_text (n : nat) (rs : list (list bool)) (os : list bool) : string :=
  match rs, os with
  | r :: rs', o :: os' => a_row_text n r o +:+ a_rows_text (S n) rs' os'
  | _, _ => EmptyString
  end.

Definition a_table_text (t : atable) : string :=
  header_text (Z.of_nat (a_checks_passed t)) (Z.of_nat (a_rows t)) (a_pass t) (a_name t) +:+
  a_rows_text 0 (a_expected t) (a_observed t).

Definition a_tables_text (ts : list atable) : string :=
  foldr (fun t acc => a_table_text t +:+ acc) EmptyString ts.

(** Section 4.3: the report of every table, in allocation order. *)
Definition a_report (a : astate) : string := a_tables_text (a_tables a).

(** The libc state after [str] was printed. *)
Definition stdout_app (str : string) (l : libc) : libc :=
  mk_libc (heap l) (next_blk l) (plan l) (errno l) (stdout l +:+ str) (stderr l) (wild l).

Definition print (str : string) (s : pstate) : pstate := set_libc (stdout_app str (libc_of s)) s.

(** ** Printing *)

Lemma put_stdout_spec str l : put_stdout str l = Ret (tt, stdout_app str l).
Proof. done. Qed.

Lemma stdout_app_app a b l : stdout_app b (stdout_app a l) = stdout_app (a +:+ b) l.
Proof. unfold stdout_app. simpl. by rewrite string_app_assoc. Qed.

Lemma print_print a b s : print b (print a s) = print (a +:+ b) s.
Proof. unfold print. simpl. by rewrite stdout_app_app. Qed.

Lemma print_nil s : print EmptyString s = s.
Proof. destruct s as [[] ? ? ? ? ? ?]. unfold print, stdout_app. simpl. by rewrite string_app_nil_r. Qed.

Lemma byte_true_single x : byte_true [x] = x.
Proof. by destruct x. Qed.

(** Printing changes neither the well-formedness nor the abstract state. *)
Lemma wf_print str s : wf s -> wf (print str s).
Proof. done. Qed.

Lemma abs_print str s : abs (print str s) = abs s.
Proof. done. Qed.

Lemma tables_print str s : tables (print str s) = tables s.
Proof. done. Qed.

Lemma no_overflow_print str s : no_overflow s -> no_overflow (print str s).
Proof. done. Qed.

#[export] Hint Resolve wf_print no_overflow_print : mcdc.

(** The report of one more table is the old report followed by its text. *)
Lemma a_tables_text_snoc ts t : a_tables_text (ts ++ [t]) = a_tables_text ts +:+ a_table_text t.
Proof.
  unfold a_tables_text. rewrite foldr_app. simpl. rewrite string_app_nil_r.
  induction ts as [|t' ts IH]; simpl; [done|]. by rewrite IH, string_app_assoc.
Qed.

Lemma stdout_print str s : stdout (libc_of (print str s)) = stdout (libc_of s) +:+ str.
Proof. done. Qed.

(** ** The loops *)

Lemma count_loop_spec this cb l (off k : nat) p :
  heap l !! checks this = Some cb -> (off + k <= length cb)%nat ->
  count_loop this (Z.of_nat off) k p l =
    Ret (p + Z.of_nat (length (filter (fun b => b = true) (slice cb off k))), l).
Proof.
  revert off p. induction k as [|k IH]; intros off p Hcb Hk; cbn [count_loop].
  - unfold slice. rewrite take_0. simpl. by rewrite Z.add_0_r.
  - destruct (lookup_lt_is_Some_2 cb off) as [x Hx]; [lia|].
    cm_step (mem_read_byte "mcdc_check_mcdc" _ _ _ _ _ Hcb Hx).
    replace (Z.of_nat off + 1) with (Z.of_nat (S off)) by lia.
    rewrite byte_true_single, IH by (done || lia).
    rewrite (slice_S _ _ _ _ Hx). destruct x; rewrite filter_cons; simpl; [| done].
    f_equal. f_equal. lia.
Qed.

Lemma cols_loop_spec this tb l (r col k : nat) :
  heap l !! table this = Some tb -> 0 <= cols this ->
  (r * Z.to_nat (cols this) + col + k <= length tb)%nat -> Z.of_nat (length tb) <= UINT_MAX ->
  cols_loop this (Z.of_nat r) (Z.of_nat col) k l =
    Ret (tt, stdout_app (cells (slice tb (r * Z.to_nat (cols this) + col) k)) l).
Proof.
  revert col l. induction k as [|k IH]; intros col l Htb Hc Hk Hlen; cbn [cols_loop].
  - unfold slice. rewrite take_0. unfold cells. simpl.
    unfold stdout_app. rewrite string_app_nil_r. by destruct l.
  - destruct (lookup_lt_is_Some_2 tb (r * Z.to_nat (cols this) + col)) as [x Hx]; [lia|].
    assert (Hoff : u32 (Z.of_nat r * cols this + Z.of_nat col) = Z.of_nat (r * Z.to_nat (cols this) + col))
      by (rewrite u32_small; [lia | unfold is_u32; lia]).
    rewrite Hoff. cm_step (mem_read_byte "mcdc_check_mcdc" _ _ _ _ _ Htb Hx).
    rewrite byte_true_single. cm_step (put_stdout_spec (cell x) l).
    replace (Z.of_nat col + 1) with (Z.of_nat (S col)) by lia.
    rewrite IH by (done || lia). rewrite stdout_app_app, (slice_S _ _ _ _ Hx).
    rewrite Nat.add_succ_r. done.
Qed.

(** Reassociate string appends to the right. *)
Ltac string_assoc := repeat rewrite <- string_app_assoc.

Lemma rows_loop_spec this tb cb l (r k : nat) :
  heap l !! table this = Some tb -> heap l !! checks this = Some cb -> 0 <= cols this ->
  length tb = (Z.to_nat (rows this) * Z.to_nat (cols this))%nat -> length cb = Z.to_nat (rows this) ->
  (r + k <= Z.to_nat (rows this))%nat -> Z.of_nat (length tb) <= UINT_MAX ->
  rows_loop this (Z.of_nat r) k l =
    Ret (tt, stdout_app (a_rows_text r (map (row_of tb (Z.to_nat (cols this))) (seq r k)) (slice cb r k)) l).
Proof.
  revert r l. induction k as [|k IH]; intros r l Htb Hcb Hc Hltb Hlcb Hk Hlen; cbn [rows_loop].
  - unfold slice. rewrite take_0. simpl. unfold stdout_app. rewrite string_app_nil_r. by destruct l.
  - destruct (lookup_lt_is_Some_2 cb r) as [x Hx]; [lia|].
    cm_step (put_stdout_spec (" Test No. " +:+ fmt_u (1 + Z.of_nat r) +:+ " | ") l).
    erewrite cbind_Ret by (apply (cols_loop_spec this tb _ r 0 _); (done || nia)). cbv beta.
    erewrite cbind_Ret by (eapply mem_read_byte; [exact Hcb | exact Hx]). cbv beta.
    rewrite byte_true_single.
    cm_step (put_stdout_spec ("| " +:+ status x +:+ nl) (stdout_app (cells (slice tb (r * Z.to_nat (cols this) + 0) (Z.to_nat (cols this)))) (stdout_app (" Test No. " +:+ fmt_u (1 + Z.of_nat r) +:+ " | ") l))).
    replace (Z.of_nat r + 1) with (Z.of_nat (S r)) by lia.
    rewrite IH by (done || lia). rewrite !stdout_app_app, (slice_S _ _ _ _ Hx).
    f_equal. f_equal. simpl. unfold a_row_text, row_of. rewrite Nat.add_0_r.
    replace (1 + Z.of_nat r) with (Z.of_nat (S r)) by lia. by string_assoc.
Qed.

Lemma verdict_eq (n : nat) (r : Z) :
  0 <= r -> bool_decide (Z.of_nat n = r) = Nat.eqb n (Z.to_nat r).
Proof.
  intros Hr. apply eq_bool_prop_intro. rewrite bool_decide_spec, Is_true_true, Nat.eqb_eq. lia.
Qed.

(** One table's report is the specification's text of its reading. *)
Lemma report_table_spec this at' l :
  abs_table (heap l) this = Some at' -> table_wf (heap l) this -> rows this * cols this <= UINT_MAX ->
  report_table this l = Ret (tt, stdout_app (a_table_text at') l).
Proof.
  intros Habs Htw Hno.
  destruct (abs_table_Some _ _ _ Habs) as (tb & cb & Htb & Hcb & ->).
  destruct (table_wf_lengths _ _ _ _ Htw Htb Hcb) as [Hltb Hlcb].
  destruct Htw as (Hr & Hc & _). unfold is_u32 in Hr, Hc.
  rewrite u32_small in Hltb by (unfold is_u32; nia). rewrite Z2Nat.inj_mul in Hltb by lia.
  unfold report_table.
  rewrite (cbind_Ret _ _ _ _ _ (count_loop_spec this cb l 0 (Z.to_nat (rows this)) 0 Hcb ltac:(lia))). cbv beta.
  assert (Hs : slice cb 0 (Z.to_nat (rows this)) = cb) by (rewrite <- Hlcb; apply slice_all).
  rewrite Hs, Z.add_0_l.
  cm_step (put_stdout_spec (header_text (Z.of_nat (length (filter (fun b => b = true) cb))) (rows this)
             (bool_decide (Z.of_nat (length (filter (fun b => b = true) cb)) = rows this)) (name this)) l).
  change (rows_loop this 0) with (rows_loop this (Z.of_nat 0)).
  erewrite (rows_loop_spec this tb cb _ 0 (Z.to_nat (rows this))) by (done || lia).
  rewrite stdout_app_app, Hs. unfold a_table_text, a_pass, a_checks_passed. simpl.
  rewrite verdict_eq, Z2Nat.id by lia. done.
Qed.

Lemma tables_loop_spec k i s a :
  wf s -> no_overflow s -> abs s = Some a -> (i + k = length (tables s))%nat ->
  tables_loop (Z.of_nat i) k s = Ret (tt, print (a_tables_text (drop i (a_tables a))) s).
Proof.
  revert i s. induction k as [|k IH]; intros i s Hwf Hno Ha Hk; cbn [tables_loop].
  - pose proof (Forall2_length _ _ _ (proj2 (abs_Some _ _ Ha))) as Hl.
    rewrite drop_ge by lia. simpl. by rewrite print_nil.
  - pose proof (proj2 (abs_Some _ _ Ha)) as Hall.
    destruct (lookup_lt_is_Some_2 (tables s) i) as [t Ht]; [lia|].
    destruct (Forall2_lookup_l _ _ _ _ _ Hall Ht) as (at' & Hat & Habs).
    cm_step (ctx_get_table "mcdc_check_mcdc" s (Z.of_nat i) t Hwf ltac:(by rewrite Nat2Z.id)).
    cm_step (on_libc_Ret _ s _ _ (report_table_spec t at' (libc_of s) Habs
               (wf_table_wf _ _ _ Hwf Ht) (Forall_lookup_1 _ _ _ _ Hno Ht))).
    replace (Z.of_nat i + 1) with (Z.of_nat (S i)) by lia.
    change (set_libc (stdout_app (a_table_text at') (libc_of s)) s) with (print (a_table_text at') s).
    rewrite (IH (S i) (print (a_table_text at') s));
      [| by apply wf_print | by apply no_overflow_print | by rewrite abs_print | rewrite tables_print; lia].
    rewrite print_print, (drop_S _ _ _ Hat). done.
Qed.

Lemma mcdc_check_mcdc_report s a :
  wf s -> no_overflow s -> abs s = Some a ->
  mcdc_check_mcdc s = Ret (tt, print (a_report a) s).
Proof.
  intros Hwf Hno Ha. unfold mcdc_check_mcdc. rewrite cbind_cget. cbv beta.
  rewrite (wf_ctx_len s Hwf), Nat2Z.id.
  exact (tables_loop_spec _ 0 s a Hwf Hno Ha eq_refl).
Qed.

(** C9: [mcdc_check_mcdc] prints exactly the report of the specification
    (section 4.3 and the text format of section 6) for the abstract state,
    every table in allocation order, and changes nothing but the standard
    output. *)
Theorem mcdc_check_mcdc_refines s a :
  wf s -> no_overflow s -> abs s = Some a ->
  mcdc_check_mcdc s = Ret (tt, print (a_report a) s).
Proof. apply mcdc_check_mcdc_report. Qed.

(** C10: the verdict of a table's report (lines 84-94, section 8): for
    any table whose flag buffer holds its [rows] bytes, the counting loop
    returns the number of set flags, which is at most [rows], and the
    header [report_table] prints says PASS exactly when every flag is
    set.  The matrix plays no part, so this holds also for a table whose
    size wraps. *)
Theorem report_verdict this l cb :
  0 <= rows this -> heap l !! checks this = Some cb -> length cb = Z.to_nat (rows this) ->
  exists passed, count_loop this 0 (Z.to_nat (rows this)) 0 l = Ret (passed, l) /\
    report_table this l =
      (put_stdout (header_text passed (rows this) (bool_decide (passed = rows this)) (name this)) ;;
       rows_loop this 0 (Z.to_nat (rows this))) l /\
    passed = Z.of_nat (length (filter (fun b => b = true) cb)) /\ 0 <= passed <= Z.of_nat (length cb) /\
    (bool_decide (passed = rows this) = true <-> Forall (fun b => b = true) cb).
Proof.
  intros Hr Hcb Hl. pose proof (count_loop_spec this cb l 0 (length cb) 0 Hcb ltac:(lia)) as Hc.
  rewrite slice_all, Z.add_0_l in Hc. rewrite <- Hl.
  eexists. split_and!; [exact Hc | unfold report_table; rewrite <- Hl; by rewrite (cbind_Ret _ _ _ _ _ Hc) | done | lia | |].
  - pose proof (length_filter (fun b => b = true) cb). lia.
  - rewrite bool_decide_eq_true, <- (length_filter_all (fun b => b = true) cb). split; lia.
Qed.

(** C11: reporting is read-only and idempotent (sections 4.3 and 8): in
    every reachable state [mcdc_check_mcdc] only prints, and a second
    report right after the first prints the same text again. *)
Theorem mcdc_check_mcdc_idempotent s :
  reachable s ->
  exists str, mcdc_check_mcdc s = Ret (tt, print str s) /\
    (mcdc_check_mcdc ;; mcdc_check_mcdc) s = Ret (tt, print (str +:+ str) s).
Proof.
  intros Hr. destruct (reachable_inv_step s Hr) as (Hwf & Hno & _).
  destruct (wf_abs_Some s Hwf) as [a Ha].
  exists (a_report a). pose proof (mcdc_check_mcdc_report s a Hwf Hno Ha) as H1.
  split; [done|]. cm_step H1.
  rewrite (mcdc_check_mcdc_report (print (a_report a) s) a); [by rewrite print_print | by apply wf_print | by apply no_overflow_print | by rewrite abs_print].
Qed.

(** ** Witnesses *)

Lemma mcdc_check_mcdc_refines_witness :
  let s := session_check in
  let a := default (mk_astate [] 0) (abs s) in
  wf s /\ no_overflow s /\ abs s = Some a /\
  mcdc_check_mcdc s = Ret (tt, print (a_report a) s).
Proof.
  cbv zeta. split_and!; [decide_by_eval | decide_by_eval | vm_compute; reflexivity |].
  apply mcdc_check_mcdc_refines; [decide_by_eval | decide_by_eval | vm_compute; reflexivity].
Defined.

Lemma report_verdict_witness :
  let t := default (mk_table EmptyString 0 0 0 0) (head (tables session_check)) in
  let l := libc_of session_check in
  let cb := default [] (heap l !! checks t) in
  0 <= rows t /\ heap l !! checks t = Some cb /\ length cb = Z.to_nat (rows t) /\
  exists passed, count_loop t 0 (Z.to_nat (rows t)) 0 l = Ret (passed, l) /\
    report_table t l =
      (put_stdout (header_text passed (rows t) (bool_decide (passed = rows t)) (name t)) ;;
       rows_loop t 0 (Z.to_nat (rows t))) l /\
    passed = Z.of_nat (length (filter (fun b => b = true) cb)) /\ 0 <= passed <= Z.of_nat (length cb) /\
    (bool_decide (passed = rows t) = true <-> Forall (fun b => b = true) cb).
Proof.
  cbv zeta.
  assert (Hcb : heap (libc_of session_check) !! checks (default (mk_table EmptyString 0 0 0 0) (head (tables session_check)))
                = Some (default [] (heap (libc_of session_check) !! checks (default (mk_table EmptyString 0 0 0 0) (head (tables session_check))))))
    by (vm_compute; reflexivity).
  assert (Hl : length (default [] (heap (libc_of session_check) !! checks (default (mk_table EmptyString 0 0 0 0) (head (tables session_check)))))
               = Z.to_nat (rows (default (mk_table EmptyString 0 0 0 0) (head (tables session_check)))))
    by (vm_compute; reflexivity).
  assert (Hr : 0 <= rows (default (mk_table EmptyString 0 0 0 0) (head (tables session_check)))) by (vm_compute; congruence).
  split_and!; [exact Hr | exact Hcb | exact Hl | exact (report_verdict _ _ _ Hr Hcb Hl)].
Defined.

Lemma mcdc_check_mcdc_idempotent_witness :
  reachable session_check /\
  exists str, mcdc_check_mcdc session_check = Ret (tt, print str session_check) /\
    (mcdc_check_mcdc ;; mcdc_check_mcdc) session_check = Ret (tt, print (str +:+ str) session_check).
Proof. split; [exact session_reachable | exact (mcdc_check_mcdc_idempotent _ session_reachable)]. Defined.
