(* ===== verification/Strncmp.v ===== *)
(** * The instrumented comparison of the sample harness

    [spt_strncmp] of src/test/strncmp.c (lines 3-33), the code under test
    of the sample: a [strncmp] whose loop reports, at every visited index,
    the condition vector of its decision [i < n && str1[i] != '\0' &&
    str1[i] == str2[i]] to table 0 and the outcome of [i == n] to table 1.

    The probe ([MCDC_CHECK], src/mcdc.h line 29) is an interface: the class
    [McdcProbe] is what the comparison needs of the coverage library, one
    call [probe at_table vector] in a state monad.  The comparison is
    written once against the class; [probe_mcdc] instantiates it with
    [mcdc_check_row] on the program state, [probe_log] with a log of the
    calls.  The theorems are proved for every instance: the run is the
    sequence of probes of a pure trace followed by a pure result. *)

From S2P Require Import Prelude CRuntime McdcState Matcher.
From Stdlib Require Import Ascii.

Local Open Scope Z_scope.
Local Open Scope cm_scope.

(** ** The probe interface *)

Class McdcProbe (S : Type) := probe : Z -> list bool -> cm S unit.

(** [MCDC_CHECK] as the library defines it: [mcdc_check_row] on the array
    of the listed conditions. *)
#[export] Instance probe_mcdc : McdcProbe pstate := mcdc_check_row.

(** A recorder of the probes, in order. *)
#[export] Instance probe_log : McdcProbe (list (Z * list bool)) :=
  fun t v => cmodify (fun tr => tr ++ [(t, v)]).

(** ** C strings *)

(** [char] is signed: a byte of 128 or more reads as negative. *)
Definition schar (c : Z) : Z := if decide (c < 128) then c else c - 256.

(** The characters of a literal, and the array of a string literal with
    its terminating NUL. *)
Fixpoint chars (s : string) : list Z :=
  match s with
  | EmptyString => []
  | String a s' => schar (Z.of_nat (nat_of_ascii a)) :: chars s'
  end.
Definition c_lit (s : string) : list Z := chars s ++ [0].

(** [p[i]] for a [const char *p]: NULL or past the array is undefined. *)
Definition char_at {St} (site : string) (p : option (list Z)) (i : Z) : cm St Z :=
  match p with
  | None => cfail (NullDeref site)
  | Some cs => cof_option (OutOfBounds site) (cs !! Z.to_nat i)
  end.

(** ** The code *)

Section Code.
Context {St : Type} `{!McdcProbe St}.

(** The loop condition of line 13, with the short-circuit of [&&]. *)
Definition loop_guard (str1 str2 : option (list Z)) (n i : Z) : cm St bool :=
  if decide (i < n) then
    let* c1 := char_at "spt_strncmp" str1 i in
    if decide (c1 <> 0) then
      let* c2 := char_at "spt_strncmp" str2 i in
      cret (bool_decide (c1 = c2))
    else cret false
  else cret false.

(** [MCDC_CHECK(0, i < n, str1[i] != '\0', str1[i] == str2[i])] of lines
    15 and 19: the initialisers of the compound literal are all evaluated,
    without short-circuit. *)
Definition probe_decision (str1 str2 : option (list Z)) (n i : Z) : cm St unit :=
  let* c1 := char_at "spt_strncmp" str1 i in
  let* c2 := char_at "spt_strncmp" str2 i in
  probe 0 [bool_decide (i < n); bool_decide (c1 <> 0); bool_decide (c1 = c2)].

(** The [while] of lines 13-17 from index [i]; it returns the index it
    stops at.  [i] stays below [n <= UINT_MAX] in the body, so [i++] does
    not wrap; [n + 1] rounds of fuel suffice ([strncmp_loop_fuel]). *)
Fixpoint strncmp_loop (fuel : nat) (str1 str2 : option (list Z)) (n i : Z) : cm St Z :=
  match fuel with
  | O => cfail (OutOfFuel "spt_strncmp")
  | S f =>
      let* g := loop_guard str1 str2 n i in
      if g then probe_decision str1 str2 n i ;; strncmp_loop f str1 str2 n (i + 1)
      else cret i
  end.

(** [spt_strncmp] (lines 3-33).  The [result = 1] of line 9 is dead: the
    loop or the probe of line 19 reads through the NULL pointer first. *)
Definition spt_strncmp (str1 str2 : option (list Z)) (n : Z) : cm St Z :=
  let* i := strncmp_loop (S (Z.to_nat n)) str1 str2 n 0 in
  probe_decision str1 str2 n i ;;
  if decide (i = n) then
    probe 1 [bool_decide (i = n)] ;; cret 0
  else
    probe 1 [bool_decide (i = n)] ;;
    let* c1 := char_at "spt_strncmp" str1 i in
    let* c2 := char_at "spt_strncmp" str2 i in
    cret (c1 - c2).

(** The probes of a list, in order. *)
Fixpoint run_probes (tr : list (Z * list bool)) : cm St unit :=
  match tr with
  | [] => cret tt
  | (t, v) :: tr' => probe t v ;; run_probes tr'
  end.

End Code.

(** ** The trace and result, as pure functions *)

Definition char_of (cs : list Z) (j : nat) : Z := default 0 (cs !! j).

(** The loop condition at index [j]. *)
Definition guard_at (s1 s2 : list Z) (n : Z) (j : nat) : Prop :=
  Z.of_nat j < n /\ char_of s1 j <> 0 /\ char_of s1 j = char_of s2 j.

#[export] Instance guard_at_dec s1 s2 n j : Decision (guard_at s1 s2 n j).
Proof. unfold guard_at. apply _. Defined.

(** The index the loop stops at: the first that fails the condition. *)
Definition stop_index (s1 s2 : list Z) (n : Z) : nat :=
  default (Z.to_nat n) (fst <$> list_find (fun j => ~ guard_at s1 s2 n j) (seq 0 (Z.to_nat n))).

Definition decision_at (s1 s2 : list Z) (n : Z) (j : nat) : list bool :=
  [bool_decide (Z.of_nat j < n); bool_decide (char_of s1 j <> 0);
   bool_decide (char_of s1 j = char_of s2 j)].

(** The probes a comparison makes: one decision vector per visited index,
    the last one included, then the outcome of [i == n]. *)
Definition strncmp_trace (s1 s2 : list Z) (n : Z) : list (Z * list bool) :=
  let k := stop_index s1 s2 n in
  map (fun j => (0, decision_at s1 s2 n j)) (seq 0 (S k)) ++ [(1, [bool_decide (Z.of_nat k = n)])].

Definition strncmp_result (s1 s2 : list Z) (n : Z) : Z :=
  let k := stop_index s1 s2 n in
  if decide (Z.of_nat k = n) then 0 else char_of s1 k - char_of s2 k.

(** A C string: an array holding a NUL. *)
Definition is_cstr (cs : list Z) : Prop := 0 ∈ cs.

#[export] Instance is_cstr_dec cs : Decision (is_cstr cs).
Proof. unfold is_cstr. apply _. Defined.

(** [strncmp] of the C standard (7.24.4.4): characters compared as
    [unsigned char], up to [n] of them or a NUL. *)
Definition uchar (c : Z) : Z := c mod 256.

Fixpoint strncmp_std (s1 s2 : list Z) (n : nat) : Z :=
  match n, s1, s2 with
  | O, _, _ => 0
  | S n', c1 :: s1', c2 :: s2' =>
      if decide (uchar c1 = uchar c2) then
        if decide (c1 = 0) then 0 else strncmp_std s1' s2' n'
      else uchar c1 - uchar c2
  | S _, _, _ => 0
  end.

(** ** Where the loop stops *)

Lemma stop_index_spec s1 s2 n :
  0 <= n ->
  (stop_index s1 s2 n <= Z.to_nat n)%nat /\
  (forall j, (j < stop_index s1 s2 n)%nat -> guard_at s1 s2 n j) /\
  ~ guard_at s1 s2 n (stop_index s1 s2 n).
Proof.
  intros Hn. unfold stop_index.
  destruct (list_find _ _) as [[j x]|] eqn:E; simpl.
  - apply list_find_Some in E as (Hx & Hnot & Hbefore).
    apply lookup_seq in Hx as [-> Hj]. split_and!; [lia | | done].
    intros i Hi. apply dec_stable. apply (Hbefore i i); [apply lookup_seq; lia | done].
  - apply list_find_None in E. rewrite Forall_forall in E. split_and!; [done | |].
    + intros j Hj. apply dec_stable, E, elem_of_seq. lia.
    + intros [Hlt _]. lia.
Qed.

Lemma char_of_lookup cs j c : cs !! j = Some c -> char_of cs j = c.
Proof. unfold char_of. by intros ->. Qed.

(** With two C strings, every index the comparison reads is inside both
    arrays: the loop stops at the NUL of [str1] at the latest, and before
    any NUL of [str2] it has seen the same character in [str1]. *)
Lemma stop_in_bounds s1 s2 n :
  is_cstr s1 -> is_cstr s2 -> 0 <= n ->
  (stop_index s1 s2 n < length s1)%nat /\ (stop_index s1 s2 n < length s2)%nat.
Proof.
  intros H1 H2 Hn. destruct (stop_index_spec s1 s2 n Hn) as (_ & Hbefore & _).
  apply list_elem_of_lookup in H1 as [k1 Hk1]. apply list_elem_of_lookup in H2 as [k2 Hk2].
  pose proof (lookup_lt_Some _ _ _ Hk1). pose proof (lookup_lt_Some _ _ _ Hk2).
  split; apply Nat.nlt_ge; intros Hge.
  - destruct (Hbefore k1) as (_ & Hc & _); [lia|]. by rewrite (char_of_lookup _ _ _ Hk1) in Hc.
  - destruct (Hbefore k2) as (_ & Hc & Heq); [lia|]. rewrite Heq in Hc.
    by rewrite (char_of_lookup _ _ _ Hk2) in Hc.
Qed.

(** ** The run of the comparison, for every probe *)

Section Run.
Context {St : Type} `{!McdcProbe St}.

Lemma char_at_in (cs : list Z) (j : nat) site :
  (j < length cs)%nat -> @char_at St site (Some cs) (Z.of_nat j) ≈ cret (char_of cs j).
Proof.
  intros Hj s. destruct (lookup_lt_is_Some_2 cs j Hj) as [c Hc].
  unfold char_at, cof_option. rewrite Nat2Z.id, Hc. by rewrite (char_of_lookup _ _ _ Hc).
Qed.

Lemma probe_decision_in s1 s2 n (j : nat) :
  (j < length s1)%nat -> (j < length s2)%nat ->
  @probe_decision St _ (Some s1) (Some s2) n (Z.of_nat j) ≈ probe 0 (decision_at s1 s2 n j).
Proof.
  intros H1 H2. unfold probe_decision.
  rewrite (char_at_in s1 j), cm_bind_ret_l, (char_at_in s2 j), cm_bind_ret_l by done. done.
Qed.

Lemma loop_guard_in s1 s2 n (j : nat) :
  (j < length s1)%nat -> (j < length s2)%nat ->
  @loop_guard St (Some s1) (Some s2) n (Z.of_nat j) ≈ cret (bool_decide (guard_at s1 s2 n j)).
Proof.
  intros H1 H2. unfold loop_guard, guard_at. destruct (decide (Z.of_nat j < n)) as [Hl|Hl].
  - rewrite (char_at_in s1 j), cm_bind_ret_l by done.
    destruct (decide (char_of s1 j <> 0)) as [Hc|Hc].
    + rewrite (char_at_in s2 j), cm_bind_ret_l by done. intros s. do 3 f_equal.
      apply bool_decide_ext. tauto.
    + intros s. rewrite bool_decide_eq_false_2; [done | tauto].
  - intros s. rewrite bool_decide_eq_false_2; [done | tauto].
Qed.

Lemma run_probes_app (l1 l2 : list (Z * list bool)) :
  @run_probes St _ (l1 ++ l2) ≈ cbind (run_probes l1) (fun _ => run_probes l2).
Proof.
  induction l1 as [|[t v] l1 IH]; simpl.
  - by rewrite cm_bind_ret_l.
  - rewrite cm_bind_assoc. by setoid_rewrite IH.
Qed.

(** From index [i] on, the loop makes the probes of the indices it
    passes and returns where it stops, when the fuel covers them. *)
Lemma strncmp_loop_run fuel s1 s2 n (i : nat) :
  0 <= n -> (i <= stop_index s1 s2 n)%nat ->
  (stop_index s1 s2 n <= length s1)%nat -> (stop_index s1 s2 n <= length s2)%nat ->
  Z.of_nat (stop_index s1 s2 n) = n \/
    ((stop_index s1 s2 n < length s1)%nat /\ (stop_index s1 s2 n < length s2)%nat) ->
  (stop_index s1 s2 n - i < fuel)%nat ->
  @strncmp_loop St _ fuel (Some s1) (Some s2) n (Z.of_nat i) ≈
    cbind (run_probes (map (fun j => (0, decision_at s1 s2 n j)) (seq i (stop_index s1 s2 n - i))))
          (fun _ => cret (Z.of_nat (stop_index s1 s2 n))).
Proof.
  intros Hn. destruct (stop_index_spec s1 s2 n Hn) as (_ & Hbefore & Hstop).
  revert i. induction fuel as [|f IH]; intros i Hi H1 H2 H3 Hf; [lia|]. cbn [strncmp_loop].
  destruct (decide (i = stop_index s1 s2 n)) as [-> | Hne].
  - assert (G : @loop_guard St (Some s1) (Some s2) n (Z.of_nat (stop_index s1 s2 n)) ≈ cret false).
    { destruct H3 as [E | [H1' H2']].
      - intros s. unfold loop_guard. rewrite decide_False by lia. done.
      - rewrite loop_guard_in by done. by rewrite bool_decide_eq_false_2. }
    rewrite G, cm_bind_ret_l, Nat.sub_diag. simpl. by rewrite cm_bind_ret_l.
  - rewrite loop_guard_in, cm_bind_ret_l by lia.
    rewrite bool_decide_eq_true_2 by (apply Hbefore; lia).
    replace (stop_index s1 s2 n - i)%nat with (S (stop_index s1 s2 n - S i)) by lia.
    rewrite probe_decision_in by lia. simpl. rewrite cm_bind_assoc.
    replace (Z.of_nat i + 1) with (Z.of_nat (S i)) by lia.
    setoid_rewrite (IH (S i)); [reflexivity | lia | done | done | done | lia].
Qed.

End Run.

Section Trace.
Context {St : Type} `{!McdcProbe St}.

(** The whole comparison on two C strings, for any probe: its probes are
    those of [strncmp_trace], in order, and it returns [strncmp_result]. *)
Lemma spt_strncmp_run s1 s2 n :
  is_cstr s1 -> is_cstr s2 -> 0 <= n ->
  @spt_strncmp St _ (Some s1) (Some s2) n ≈
    cbind (run_probes (strncmp_trace s1 s2 n)) (fun _ => cret (strncmp_result s1 s2 n)).
Proof.
  intros Hs1 Hs2 Hn. destruct (stop_in_bounds s1 s2 n Hs1 Hs2 Hn) as [H1 H2].
  destruct (stop_index_spec s1 s2 n Hn) as (Hle & _).
  unfold spt_strncmp, strncmp_trace, strncmp_result.
  change (strncmp_loop ?f (Some s1) (Some s2) n 0) with (strncmp_loop f (Some s1) (Some s2) n (Z.of_nat 0)).
  rewrite (strncmp_loop_run _ s1 s2 n 0) by lia. rewrite Nat.sub_0_r, cm_bind_assoc.
  rewrite seq_S, map_app, !run_probes_app, !cm_bind_assoc.
  apply cbind_proper; [reflexivity | intros []].
  rewrite cm_bind_ret_l, probe_decision_in by done. cbn [map run_probes]. rewrite !cm_bind_assoc.
  apply cbind_proper; [reflexivity | intros []]. rewrite cm_bind_ret_l, cm_bind_assoc.
  destruct (decide (Z.of_nat (stop_index s1 s2 n) = n)) as [E|E].
  - apply cbind_proper; [reflexivity | intros []]. by rewrite cm_bind_ret_l.
  - apply cbind_proper; [reflexivity | intros []].
    rewrite cm_bind_ret_l, (char_at_in s1), cm_bind_ret_l, (char_at_in s2), cm_bind_ret_l by done.
    reflexivity.
Qed.

End Trace.

(** ** Termination *)

(** A computation that never stops for want of fuel. *)
Definition no_oof {St A} (m : cm St A) : Prop := forall s site, m s <> Fault (OutOfFuel site).

Lemma no_oof_ret {St A} (a : A) : no_oof (@cret St A a).
Proof. intros s site. discriminate. Qed.

Lemma no_oof_bind {St A B} (m : cm St A) (k : A -> cm St B) :
  no_oof m -> (forall a, no_oof (k a)) -> no_oof (cbind m k).
Proof.
  intros Hm Hk s site. unfold cbind. destruct (m s) as [[a s']|f] eqn:E; [apply Hk|].
  intros [= ->]. by apply (Hm s site).
Qed.

Lemma no_oof_char_at {St} site p i : no_oof (@char_at St site p i).
Proof.
  intros s site'. unfold char_at, cof_option, cfail, cret.
  destruct p as [cs|]; [destruct (cs !! Z.to_nat i)|]; discriminate.
Qed.

#[export] Hint Resolve no_oof_ret no_oof_bind no_oof_char_at : mcdc.

Section Termination.
Context {St : Type} `{!McdcProbe St}.
Hypothesis probe_no_oof : forall t v, no_oof (probe t v).

Lemma loop_guard_no_oof str1 str2 n i : no_oof (@loop_guard St str1 str2 n i).
Proof.
  unfold loop_guard. case_decide; [| apply no_oof_ret].
  apply no_oof_bind; [apply no_oof_char_at | intros c1]. case_decide; eauto with mcdc.
Qed.

Lemma loop_guard_true str1 str2 n i s s' :
  @loop_guard St str1 str2 n i s = Ret (true, s') -> i < n.
Proof. unfold loop_guard. case_decide; [done | discriminate]. Qed.

Lemma probe_decision_no_oof str1 str2 n i : no_oof (@probe_decision St _ str1 str2 n i).
Proof. unfold probe_decision. eauto with mcdc. Qed.

(** The loop needs no more than [n - i] rounds past the first. *)
Lemma strncmp_loop_no_oof fuel str1 str2 n i :
  0 <= i -> (Z.to_nat (n - i) < fuel)%nat -> no_oof (@strncmp_loop St _ fuel str1 str2 n i).
Proof.
  revert i. induction fuel as [|f IH]; intros i Hi Hf; [lia|]. cbn [strncmp_loop].
  intros s site. unfold cbind.
  destruct (loop_guard str1 str2 n i s) as [[[] s']|e] eqn:E.
  - pose proof (loop_guard_true _ _ _ _ _ _ E).
    apply (no_oof_bind _ _ (probe_decision_no_oof _ _ _ _)). intros _. apply IH; lia.
  - discriminate.
  - intros [= ->]. by apply (loop_guard_no_oof str1 str2 n i s site).
Qed.

Lemma spt_strncmp_no_oof str1 str2 n : 0 <= n -> no_oof (@spt_strncmp St _ str1 str2 n).
Proof.
  intros Hn. unfold spt_strncmp. apply no_oof_bind; [apply strncmp_loop_no_oof; lia |].
  intros i. apply no_oof_bind; [apply probe_decision_no_oof | intros _].
  case_decide; eauto with mcdc.
Qed.

End Termination.

(** [mcdc_check_row] has no fuel to run out of. *)
Lemma mcdc_check_row_no_oof at_table v : no_oof (mcdc_check_row at_table v).
Proof.
  unfold mcdc_check_row. apply no_oof_bind.
  - intros s site. unfold ctx_get. destruct (ctx_list s) as [l|]; [| discriminate].
    destruct (l !! Z.to_nat at_table) as [[t|]|]; discriminate.
  - intros t. generalize 0. induction (Z.to_nat (rows t)) as [|k IH]; intros i; cbn [check_row_loop];
      [apply no_oof_ret|].
    apply no_oof_bind.
    + intros s site. unfold on_libc, lift_cm, mem_read.
      destruct (heap (libc_of s) !! table t); [case_decide|]; discriminate.
    + intros x. apply no_oof_bind.
      * intros s site. unfold arg_read, cret, cfail. case_decide; discriminate.
      * intros y. case_decide; [| apply IH].
        intros s site. unfold on_libc, lift_cm, mem_write.
        destruct (heap (libc_of s) !! checks t); [case_decide|]; discriminate.
Qed.

(** ** Agreement with the C standard on ASCII strings *)

Definition ascii_str (cs : list Z) : Prop := Forall (fun c => 0 <= c < 128) cs.

#[export] Instance ascii_str_dec cs : Decision (ascii_str cs).
Proof. unfold ascii_str. apply _. Defined.

(** Equal non-NUL leading characters are skipped by the standard. *)
Lemma strncmp_std_skip (j : nat) s1 s2 (m : nat) :
  (j <= m)%nat -> (forall i, (i < j)%nat -> exists c, s1 !! i = Some c /\ s2 !! i = Some c /\ c <> 0) ->
  strncmp_std s1 s2 m = strncmp_std (drop j s1) (drop j s2) (m - j).
Proof.
  revert s1 s2 m. induction j as [|j IH]; intros s1 s2 m Hm Hpre.
  - by rewrite !drop_0, Nat.sub_0_r.
  - destruct (Hpre 0%nat) as (c & H1 & H2 & Hc); [lia|].
    destruct s1 as [|c1 s1]; [done|]. destruct s2 as [|c2 s2]; [done|].
    simpl in H1, H2. injection H1 as ->. injection H2 as ->.
    destruct m as [|m]; [lia|]. simpl. rewrite decide_True, decide_False by done.
    apply IH; [lia|]. intros i Hi. apply (Hpre (S i)). lia.
Qed.

Lemma uchar_ascii c : 0 <= c < 128 -> uchar c = c.
Proof. intros. unfold uchar. apply Z.mod_small. lia. Qed.

(** Arrays of [char] values: signed bytes. *)
Definition schar_str (cs : list Z) : Prop := Forall (fun c => -128 <= c < 128) cs.

#[export] Instance schar_str_dec cs : Decision (schar_str cs).
Proof. unfold schar_str. apply _. Defined.

Lemma ascii_schar cs : ascii_str cs -> schar_str cs.
Proof. intros H. eapply Forall_impl; [exact H|]. cbv beta. lia. Qed.

(** A signed byte read as [unsigned char]: negative values gain 256. *)
Lemma uchar_schar c : -128 <= c < 128 -> uchar c = if decide (c < 0) then c + 256 else c.
Proof.
  intros. unfold uchar. case_decide.
  - rewrite <- (Z.mod_add c 1 256) by lia. apply Z.mod_small. lia.
  - apply Z.mod_small. lia.
Qed.

Lemma char_of_Forall (P : Z -> Prop) cs j : Forall P cs -> (j < length cs)%nat -> P (char_of cs j).
Proof.
  intros HP Hj. destruct (lookup_lt_is_Some_2 cs j Hj) as [c E].
  rewrite (char_of_lookup _ _ _ E). exact (Forall_lookup_1 _ _ _ _ HP E).
Qed.

(** The standard's [strncmp] on C strings of signed bytes is decided at
    the index where the loop of [spt_strncmp] stops, on the two bytes
    read as [unsigned char]. *)
Lemma strncmp_std_stop s1 s2 n :
  is_cstr s1 -> is_cstr s2 -> schar_str s1 -> schar_str s2 -> 0 <= n ->
  strncmp_std s1 s2 (Z.to_nat n) =
    if decide (Z.of_nat (stop_index s1 s2 n) = n) then 0
    else uchar (char_of s1 (stop_index s1 s2 n)) - uchar (char_of s2 (stop_index s1 s2 n)).
Proof.
  intros Hs1 Hs2 Ha1 Ha2 Hn. destruct (stop_in_bounds s1 s2 n Hs1 Hs2 Hn) as [Hb1 Hb2].
  destruct (stop_index_spec s1 s2 n Hn) as (Hle & Hbefore & Hstop).
  rewrite (strncmp_std_skip (stop_index s1 s2 n)); [| done |].
  2: { intros i Hi. destruct (Hbefore i Hi) as (_ & Hc & He).
       destruct (lookup_lt_is_Some_2 s1 i) as [c1 E1]; [lia|].
       destruct (lookup_lt_is_Some_2 s2 i) as [c2 E2]; [lia|].
       rewrite (char_of_lookup _ _ _ E1), (char_of_lookup _ _ _ E2) in *. subst. eauto. }
  case_decide as E.
  - replace (Z.to_nat n - stop_index s1 s2 n)%nat with 0%nat by lia.
    by destruct (drop _ s1), (drop _ s2).
  - destruct (lookup_lt_is_Some_2 s1 (stop_index s1 s2 n)) as [c1 E1]; [lia|].
    destruct (lookup_lt_is_Some_2 s2 (stop_index s1 s2 n)) as [c2 E2]; [lia|].
    rewrite (drop_S _ _ _ E1), (drop_S _ _ _ E2).
    replace (Z.to_nat n - stop_index s1 s2 n)%nat with (S (Z.to_nat n - S (stop_index s1 s2 n))) by lia.
    unfold guard_at in Hstop. rewrite (char_of_lookup _ _ _ E1), (char_of_lookup _ _ _ E2) in *.
    pose proof (Forall_lookup_1 _ _ _ _ Ha1 E1) as R1. pose proof (Forall_lookup_1 _ _ _ _ Ha2 E2) as R2.
    cbv beta in R1, R2. simpl. destruct (decide (uchar c1 = uchar c2)) as [Hu|Hu]; [| done].
    assert (c1 = c2) as <- by (rewrite (uchar_schar c1), (uchar_schar c2) in Hu by done;
                               destruct (decide (c1 < 0)), (decide (c2 < 0)); lia).
    destruct (decide (c1 = 0)) as [->|Hc]; [lia|].
    exfalso. apply Hstop. split_and!; [lia | done | done].
Qed.

(** On ASCII C strings the comparison's result is the standard's. *)
Lemma strncmp_result_std s1 s2 n :
  is_cstr s1 -> is_cstr s2 -> ascii_str s1 -> ascii_str s2 -> 0 <= n ->
  strncmp_result s1 s2 n = strncmp_std s1 s2 (Z.to_nat n).
Proof.
  intros Hs1 Hs2 Ha1 Ha2 Hn. destruct (stop_in_bounds s1 s2 n Hs1 Hs2 Hn) as [Hb1 Hb2].
  rewrite strncmp_std_stop by auto using ascii_schar. unfold strncmp_result. case_decide; [done|].
  rewrite !uchar_ascii by (apply (char_of_Forall (fun c => 0 <= c < 128)); done). done.
Qed.

(** ** Undefined behaviour on NULL *)

Section Null.
Context {St : Type} `{!McdcProbe St}.

(** C25: the NULL test of lines 7-10 does not return: with [str1] NULL,
    or [str2] NULL and [str1] a non-empty array, the loop or the probe of
    line 19 dereferences the NULL pointer before any probe is made, so
    the [result = 1] the test meant is never returned. *)
Theorem spt_strncmp_null str2 c cs n s :
  (@spt_strncmp St _ None str2 n s = Fault (NullDeref "spt_strncmp")) /\
  (@spt_strncmp St _ (Some (c :: cs)) None n s = Fault (NullDeref "spt_strncmp")).
Proof.
  unfold spt_strncmp. cbn [strncmp_loop]. unfold loop_guard.
  split; destruct (decide (0 < n)); try reflexivity.
  cbv [cbind char_at cof_option cret cfail]. simpl. destruct (decide (c <> 0)); reflexivity.
Qed.

End Null.

(** ** Arrays of exactly [n] characters *)

Section PastN.
Context {St : Type} `{!McdcProbe St}.

(** C26: the C standard compares arrays that hold no NUL within their
    first [n] characters; on two equal such arrays of exactly [n]
    characters [spt_strncmp] makes the [n] probes of the loop and then, at
    line 19, reads [str1[n]]: one past the array. *)
Theorem spt_strncmp_reads_past_n (cs : list Z) n :
  0 <= n -> length cs = Z.to_nat n -> Forall (fun c => c <> 0) cs ->
  @spt_strncmp St _ (Some cs) (Some cs) n ≈
    cbind (run_probes (map (fun j => (0, decision_at cs cs n j)) (seq 0 (Z.to_nat n))))
          (fun _ => cfail (OutOfBounds "spt_strncmp")).
Proof.
  intros Hn Hlen Hnz. destruct (stop_index_spec cs cs n Hn) as (Hle & _ & Hstop).
  assert (Hk : stop_index cs cs n = Z.to_nat n).
  { apply Nat.le_antisymm; [done|]. apply Nat.nlt_ge. intros Hlt. apply Hstop.
    destruct (lookup_lt_is_Some_2 cs (stop_index cs cs n)) as [c Hc]; [lia|].
    unfold guard_at. rewrite (char_of_lookup _ _ _ Hc). split_and!; [lia | | done].
    exact (Forall_lookup_1 _ _ _ _ Hnz Hc). }
  unfold spt_strncmp.
  change (strncmp_loop ?f (Some cs) (Some cs) n 0) with (strncmp_loop f (Some cs) (Some cs) n (Z.of_nat 0)).
  rewrite (strncmp_loop_run _ cs cs n 0) by lia. rewrite Hk, Nat.sub_0_r, cm_bind_assoc.
  apply cbind_proper; [reflexivity | intros []]. rewrite cm_bind_ret_l.
  unfold probe_decision, char_at, cof_option. rewrite Nat2Z.id, lookup_ge_None_2 by lia.
  by rewrite !cm_bind_fail.
Qed.

End PastN.

(** ** Properties of the comparison *)

(** C12: on two C strings, for every implementation of the probe,
    [spt_strncmp] makes exactly the probes of [strncmp_trace] in order
    (the decision vector of every index it visits, the last one included,
    then the outcome of [i == n]) and returns [strncmp_result]: the
    coverage a run records is determined by this trace (section 8). *)
Theorem spt_strncmp_trace {St} `{!McdcProbe St} s1 s2 n :
  is_cstr s1 -> is_cstr s2 -> 0 <= n ->
  @spt_strncmp St _ (Some s1) (Some s2) n ≈
    cbind (run_probes (strncmp_trace s1 s2 n)) (fun _ => cret (strncmp_result s1 s2 n)).
Proof. apply spt_strncmp_run. Qed.

(** C23: the loop of [spt_strncmp] terminates: instrumented with the
    library's [mcdc_check_row], the comparison never runs out of its
    [n + 1] rounds of fuel, whatever its arguments. *)
Theorem spt_strncmp_terminates str1 str2 n :
  0 <= n -> forall s site, @spt_strncmp pstate _ str1 str2 n s <> Fault (OutOfFuel site).
Proof. intros Hn. apply spt_strncmp_no_oof; [intros t v; apply mcdc_check_row_no_oof | done]. Qed.

(** C24: on ASCII C strings [spt_strncmp] returns what the C standard's
    [strncmp] returns, after the probes of its trace. *)
Theorem spt_strncmp_std {St} `{!McdcProbe St} s1 s2 n :
  is_cstr s1 -> is_cstr s2 -> ascii_str s1 -> ascii_str s2 -> 0 <= n ->
  @spt_strncmp St _ (Some s1) (Some s2) n ≈
    cbind (run_probes (strncmp_trace s1 s2 n)) (fun _ => cret (strncmp_std s1 s2 (Z.to_nat n))).
Proof.
  intros H1 H2 A1 A2 Hn. rewrite spt_strncmp_run by done.
  by rewrite strncmp_result_std.
Qed.

(** The two results at the stop index, and where their signs part. *)
Lemma strncmp_signs s1 s2 n :
  is_cstr s1 -> is_cstr s2 -> schar_str s1 -> schar_str s2 -> 0 <= n ->
  let d := stop_index s1 s2 n in
  (Z.of_nat d < n ->
     strncmp_result s1 s2 n = char_of s1 d - char_of s2 d /\
     strncmp_std s1 s2 (Z.to_nat n) = uchar (char_of s1 d) - uchar (char_of s2 d)) /\
  (strncmp_result s1 s2 n * strncmp_std s1 s2 (Z.to_nat n) < 0 <->
     Z.of_nat d < n /\ (char_of s1 d < 0 <-> ~ char_of s2 d < 0)).
Proof.
  intros Hs1 Hs2 Ha1 Ha2 Hn d. destruct (stop_in_bounds s1 s2 n Hs1 Hs2 Hn) as [Hb1 Hb2].
  destruct (stop_index_spec s1 s2 n Hn) as (Hle & _ & Hstop).
  pose proof (char_of_Forall _ _ _ Ha1 Hb1) as R1. pose proof (char_of_Forall _ _ _ Ha2 Hb2) as R2.
  cbv beta in R1, R2. fold d in Hle, Hstop, R1, R2.
  rewrite strncmp_std_stop by done. unfold strncmp_result. fold d.
  destruct (decide (Z.of_nat d = n)) as [E|E]; [split; [lia | split; [lia | intros [? _]; lia]] |].
  split; [done|]. rewrite (uchar_schar (char_of s1 d)), (uchar_schar (char_of s2 d)) by done.
  assert (Hst : char_of s1 d = 0 \/ char_of s1 d <> char_of s2 d).
  { destruct (decide (char_of s1 d = char_of s2 d)); [| by right].
    left. apply dec_stable. intros Hc. apply Hstop. unfold guard_at. split_and!; [lia | done | done]. }
  destruct (decide (char_of s1 d < 0)), (decide (char_of s2 d < 0)); split; try lia;
    intros H; (nia || exfalso; nia).
Qed.

(** C27: [spt_strncmp] compares [char]s, which are signed, where the C
    standard compares [unsigned char]s.  On C strings of signed bytes it
    returns, after the probes of its trace, the difference of the two
    bytes where its loop stops, while the standard returns the
    difference of the same bytes read as [unsigned char]; the two
    results have opposite signs exactly when one of these bytes is
    negative (128 or more as [unsigned char]) and the other is not. *)
Theorem spt_strncmp_signed_char {St} `{!McdcProbe St} s1 s2 n :
  is_cstr s1 -> is_cstr s2 -> schar_str s1 -> schar_str s2 -> 0 <= n ->
  let d := stop_index s1 s2 n in
  @spt_strncmp St _ (Some s1) (Some s2) n ≈
    cbind (run_probes (strncmp_trace s1 s2 n)) (fun _ => cret (strncmp_result s1 s2 n)) /\
  (Z.of_nat d < n ->
     strncmp_result s1 s2 n = char_of s1 d - char_of s2 d /\
     strncmp_std s1 s2 (Z.to_nat n) = uchar (char_of s1 d) - uchar (char_of s2 d)) /\
  (strncmp_result s1 s2 n * strncmp_std s1 s2 (Z.to_nat n) < 0 <->
     Z.of_nat d < n /\ (char_of s1 d < 0 <-> ~ char_of s2 d < 0)).
Proof.
  intros Hs1 Hs2 Ha1 Ha2 Hn d. split; [by apply spt_strncmp_run |].
  exact (strncmp_signs s1 s2 n Hs1 Hs2 Ha1 Ha2 Hn).
Qed.

(** ** Witnesses *)

Lemma spt_strncmp_trace_witness :
  is_cstr (c_lit "apple") /\ is_cstr (c_lit "applee") /\ 0 <= 5 /\
  @spt_strncmp (list (Z * list bool)) _ (Some (c_lit "apple")) (Some (c_lit "applee")) 5 ≈
    cbind (run_probes (strncmp_trace (c_lit "apple") (c_lit "applee") 5))
          (fun _ => cret (strncmp_result (c_lit "apple") (c_lit "applee") 5)).
Proof.
  assert (H1 : is_cstr (c_lit "apple")) by decide_by_eval.
  assert (H2 : is_cstr (c_lit "applee")) by decide_by_eval.
  split_and!; [exact H1 | exact H2 | lia | apply spt_strncmp_trace; [exact H1 | exact H2 | lia]].
Defined.

Lemma spt_strncmp_terminates_witness :
  0 <= 5 /\ forall s site,
    @spt_strncmp pstate _ (Some (c_lit "apple")) (Some (c_lit "applee")) 5 s <> Fault (OutOfFuel site).
Proof. split; [lia | apply spt_strncmp_terminates; lia]. Defined.

Lemma spt_strncmp_std_witness :
  is_cstr (c_lit "hellos") /\ is_cstr (c_lit "hellx") /\
  ascii_str (c_lit "hellos") /\ ascii_str (c_lit "hellx") /\ 0 <= 5 /\
  @spt_strncmp (list (Z * list bool)) _ (Some (c_lit "hellos")) (Some (c_lit "hellx")) 5 ≈
    cbind (run_probes (strncmp_trace (c_lit "hellos") (c_lit "hellx") 5))
          (fun _ => cret (strncmp_std (c_lit "hellos") (c_lit "hellx") (Z.to_nat 5))).
Proof.
  assert (H1 : is_cstr (c_lit "hellos")) by decide_by_eval.
  assert (H2 : is_cstr (c_lit "hellx")) by decide_by_eval.
  assert (A1 : ascii_str (c_lit "hellos")) by decide_by_eval.
  assert (A2 : ascii_str (c_lit "hellx")) by decide_by_eval.
  split_and!; try assumption; [lia |]. apply spt_strncmp_std; try assumption. lia.
Defined.

Lemma spt_strncmp_reads_past_n_witness :
  0 <= 3 /\ length (chars "abc") = Z.to_nat 3 /\ Forall (fun c => c <> 0) (chars "abc") /\
  @spt_strncmp (list (Z * list bool)) _ (Some (chars "abc")) (Some (chars "abc")) 3 ≈
    cbind (run_probes (map (fun j => (0, decision_at (chars "abc") (chars "abc") 3 j)) (seq 0 (Z.to_nat 3))))
          (fun _ => cfail (OutOfBounds "spt_strncmp")).
Proof.
  assert (Hnz : Forall (fun c => c <> 0) (chars "abc")) by (vm_compute; repeat constructor; discriminate).
  split_and!; [lia | reflexivity | exact Hnz |]. apply spt_strncmp_reads_past_n; [lia | reflexivity | exact Hnz].
Defined.

Lemma spt_strncmp_signed_char_witness :
  is_cstr [schar 233; 0] /\ is_cstr (c_lit "a") /\ schar_str [schar 233; 0] /\ schar_str (c_lit "a") /\ 0 <= 1 /\
  let d := stop_index [schar 233; 0] (c_lit "a") 1 in
  @spt_strncmp (list (Z * list bool)) _ (Some [schar 233; 0]) (Some (c_lit "a")) 1 ≈
    cbind (run_probes (strncmp_trace [schar 233; 0] (c_lit "a") 1))
          (fun _ => cret (strncmp_result [schar 233; 0] (c_lit "a") 1)) /\
  (Z.of_nat d < 1 ->
     strncmp_result [schar 233; 0] (c_lit "a") 1 = char_of [schar 233; 0] d - char_of (c_lit "a") d /\
     strncmp_std [schar 233; 0] (c_lit "a") (Z.to_nat 1) = uchar (char_of [schar 233; 0] d) - uchar (char_of (c_lit "a") d)) /\
  (strncmp_result [schar 233; 0] (c_lit "a") 1 * strncmp_std [schar 233; 0] (c_lit "a") (Z.to_nat 1) < 0 <->
     Z.of_nat d < 1 /\ (char_of [schar 233; 0] d < 0 <-> ~ char_of (c_lit "a") d < 0)).
Proof.
  assert (H1 : is_cstr [schar 233; 0]) by decide_by_eval.
  assert (H2 : is_cstr (c_lit "a")) by decide_by_eval.
  assert (A1 : schar_str [schar 233; 0]) by decide_by_eval.
  assert (A2 : schar_str (c_lit "a")) by decide_by_eval.
  split_and!; [exact H1 | exact H2 | exact A1 | exact A2 | lia |].
  exact (spt_strncmp_signed_char [schar 233; 0] (c_lit "a") 1 H1 H2 A1 A2 ltac:(lia)).
Defined.
