(* ===== verification/Protocol.v ===== *)
(** * The driver protocol: sequences of calls

    The specification's usage protocol (sections 5 and 6): allocate a
    table, register its rows with [MCDC_REGISTER], observe vectors with
    [MCDC_CHECK], report.  This file lifts the one-call refinement
    theorems of [CoverageSpec] to sequences of calls ([register_rows],
    [run_probes] with the library's probe), and proves what the protocol
    promises: registered rows read back (a round trip), the flags after a
    sequence of checks are the old flags plus the first matches of the
    observed vectors, every table whose rows are distinct is eventually
    passed by checking each row ([runs_to], a liveness property), a table
    with a repeated row can never pass, and the abstract tables of every
    reachable state are well typed.  Finally the instrumented comparison
    of [Strncmp] is composed with the library: its run through
    [mcdc_check_row] refines the specification's checks of its trace; and
    a table without columns, which the code accepts, marks its first row
    for every observed vector; and the round trip of section 8
    (allocate, register, check, report) prints a row as Checked exactly
    when it was observed, for any table from any reachable state. *)

From S2P Require Import Prelude CRuntime McdcState Matcher Alloc CoverageSpec Report Strncmp.

Local Open Scope Z_scope.
Local Open Scope cm_scope.

(** ** Sequences of calls *)

(** Consecutive [MCDC_REGISTER]s, as the harness writes them (src/test/strncmp.c
    lines 70-77). *)
Fixpoint register_rows (rs : list (list bool)) : cm pstate unit :=
  match rs with
  | [] => cret tt
  | r :: rs' => MCDC_REGISTER r ;; register_rows rs'
  end.

(** The specification's operations over a sequence. *)
Fixpoint a_registers (rs : list (list bool)) (a : astate) : aerror + astate :=
  match rs with
  | [] => inr a
  | r :: rs' => match a_register r a with inr a' => a_registers rs' a' | inl e => inl e end
  end.

Fixpoint a_probes (tr : list (Z * list bool)) (a : astate) : aerror + astate :=
  match tr with
  | [] => inr a
  | (t, v) :: tr' => match a_check (Z.to_nat t) v a with inr a' => a_probes tr' a' | inl e => inl e end
  end.

(** The checks of the vectors [vs] against table [idx]. *)
Definition checks_of (idx : nat) (vs : list (list bool)) : list (Z * list bool) :=
  map (fun v => (Z.of_nat idx, v)) vs.

(** [P] holds after some sequence of API calls the caller may make. *)
Inductive runs_to (s : pstate) (P : pstate -> Prop) : Prop :=
| runs_to_done : P s -> runs_to s P
| runs_to_step c s' : call_ok c s -> run_call c s = Ret (tt, s') -> runs_to s' P -> runs_to s P.

(** A driver's sequence of API calls, run one after another. *)
Definition run_calls (cs : list api_call) (s : pstate) : pstate :=
  foldl (fun s c => exec (run_call c) s) s cs.

#[export] Instance call_ok_dec c s : Decision (call_ok c s).
Proof. destruct c; simpl; apply _. Defined.

(** Each call of [cs] has arguments of its C types and returns. *)
Fixpoint calls_ok (cs : list api_call) (s : pstate) : bool :=
  match cs with
  | [] => true
  | c :: cs' => bool_decide (call_ok c s) &&
      match run_call c s with Ret (_, s') => calls_ok cs' s' | Fault _ => false end
  end.

(** An abstract table of the right shape: [rows] rows of [cols]
    conditions and [rows] flags. *)
Definition atable_wf (t : atable) : Prop :=
  length (a_expected t) = a_rows t /\ Forall (fun r => length r = a_cols t) (a_expected t) /\
  length (a_observed t) = a_rows t.

(** ** First-match marking *)

Lemma mark_first_length e o v : length (mark_first e o v) = length o.
Proof. unfold mark_first. destruct (list_find _ _) as [[? ?]|]; [apply length_insert | done]. Qed.

(** A flag is set after a check exactly when it was set before, or the
    observed vector first occurs at its row. *)
Lemma mark_first_true e o v j :
  mark_first e o v !! j = Some true <->
  o !! j = Some true \/ (fst <$> list_find (fun r => r = v) e = Some j /\ (j < length o)%nat).
Proof.
  unfold mark_first. destruct (list_find _ _) as [[i r]|]; simpl; [| naive_solver].
  destruct (decide (i = j)) as [<- | Hne].
  - destruct (decide (i < length o)%nat) as [Hi | Hi].
    + rewrite list_lookup_insert_eq by done. naive_solver.
    + rewrite list_insert_ge by lia. split; [by left | intros [? | [_ ?]]; [done | lia]].
  - rewrite list_lookup_insert_ne by done. naive_solver.
Qed.

Lemma a_check_lookup idx v a at' :
  a_tables a !! idx = Some at' ->
  a_check idx v a = inr (mk_astate (<[idx := mk_atable (a_name at') (a_rows at') (a_cols at') (a_expected at')
                                        (mark_first (a_expected at') (a_observed at') v)]> (a_tables a))
                                   (a_cursor a)).
Proof. intros H. unfold a_check. by rewrite H. Qed.

(** After checking [vs] against table [idx], its flags are the old flags
    and the first matches of the vectors; nothing else of it changes. *)
Lemma a_probes_observed idx vs a at' :
  a_tables a !! idx = Some at' ->
  exists a' at'', a_probes (checks_of idx vs) a = inr a' /\ a_tables a' !! idx = Some at'' /\
    length (a_tables a') = length (a_tables a) /\
    (forall k, k <> idx -> a_tables a' !! k = a_tables a !! k) /\
    a_name at'' = a_name at' /\ a_rows at'' = a_rows at' /\ a_cols at'' = a_cols at' /\
    a_expected at'' = a_expected at' /\ length (a_observed at'') = length (a_observed at') /\
    a_cursor a' = a_cursor a /\
    forall j, a_observed at'' !! j = Some true <->
      a_observed at' !! j = Some true \/
      (exists v, v ∈ vs /\ fst <$> list_find (fun r => r = v) (a_expected at') = Some j /\
                 (j < length (a_observed at'))%nat).
Proof.
  revert a at'. induction vs as [|v vs IH]; intros a at' Ha.
  - exists a, at'. split_and!; try done. intros j. split; [by left|].
    intros [? | (? & Hv & _)]; [done | by apply not_elem_of_nil in Hv].
  - simpl. rewrite Nat2Z.id, (a_check_lookup _ _ _ _ Ha).
    pose proof (lookup_lt_Some _ _ _ Ha) as Hlt.
    set (at1 := mk_atable (a_name at') (a_rows at') (a_cols at') (a_expected at')
                  (mark_first (a_expected at') (a_observed at') v)).
    destruct (IH (mk_astate (<[idx := at1]> (a_tables a)) (a_cursor a)) at1)
      as (a' & at'' & Hrun & Hat & Hlen & Hother & Hn & Hr & Hc & He & Ho & Hcur & Hiff);
      [cbn [a_tables]; by rewrite list_lookup_insert_eq|].
    exists a', at''. simpl in *. rewrite length_insert in Hlen.
    split_and!; try done.
    + intros k Hk. rewrite Hother by done. simpl. by rewrite list_lookup_insert_ne.
    + by rewrite Ho, mark_first_length.
    + intros j. rewrite Hiff. subst at1. cbn [a_observed a_expected].
      rewrite mark_first_true, mark_first_length. set_solver.
Qed.

(** ** The code runs the sequences *)

(** The number of columns of each table: what decides which vectors a
    check accepts. *)
Definition shape (a : astate) : list nat := a_cols <$> a_tables a.

(** A check the table can take: a table index and a vector of its width. *)
Definition probe_fits (a : astate) (p : Z * list bool) : Prop :=
  0 <= p.1 /\ shape a !! Z.to_nat p.1 = Some (length p.2).

Lemma a_check_shape idx v a a' : a_check idx v a = inr a' -> shape a' = shape a.
Proof.
  unfold a_check, shape. destruct (a_tables a !! idx) as [at'|] eqn:E; [| discriminate].
  intros [= <-]. simpl. rewrite list_fmap_insert. simpl. by apply list_insert_id; rewrite list_lookup_fmap, E.
Qed.

Lemma abs_cols s a idx t :
  abs s = Some a -> tables s !! idx = Some t ->
  exists at', a_tables a !! idx = Some at' /\ a_cols at' = Z.to_nat (cols t).
Proof.
  intros Ha Ht. destruct (Forall2_lookup_l _ _ _ _ _ (proj2 (abs_Some _ _ Ha)) Ht) as (at' & Hat & Habs).
  destruct (abs_table_Some _ _ _ Habs) as (? & ? & _ & _ & ->). eauto.
Qed.

(** The library runs a sequence of fitting checks as the specification
    does, and the invariant holds after it. *)
Lemma run_probes_abs tr s a :
  inv s -> abs s = Some a -> Forall (probe_fits a) tr ->
  exists s' a', @run_probes pstate _ tr s = Ret (tt, s') /\ a_probes tr a = inr a' /\
    abs s' = Some a' /\ inv s'.
Proof.
  revert s a. induction tr as [|[t v] tr IH]; intros s a Hinv Ha Hfit; [by exists s, a|].
  apply Forall_cons in Hfit as [[Ht Hv] Hfit]. cbn [fst snd] in Ht, Hv. unfold shape in Hv. rewrite list_lookup_fmap in Hv.
  destruct (a_tables a !! Z.to_nat t) as [at'|] eqn:E; simpl in Hv; [| discriminate]. injection Hv as Hv.
  destruct Hinv as (Hwf & Hno & Hcur).
  pose proof (check_row_abs s a (Z.to_nat t) v Hwf Ha Hno) as Hc.
  rewrite Z2Nat.id in Hc by done. rewrite (a_check_lookup _ _ _ _ E) in Hc.
  destruct Hc as (s1 & Hrun1 & Ha1).
  { intros t0 Ht0. destruct (abs_cols _ _ _ _ Ha Ht0) as (at0 & Hat0 & Hc0). congruence. }
  assert (Hinv1 : inv s1) by (apply (inv_check s t v); [done | exact Hrun1]).
  destruct (IH s1 _ Hinv1 Ha1) as (s' & a' & Hrun & Hp & Ha' & Hinv').
  { eapply Forall_impl; [exact Hfit|]. intros p [? Hp]. split; [done|].
    by rewrite (a_check_shape (Z.to_nat t) v a _ (a_check_lookup _ _ _ _ E)). }
  exists s', a'. simpl. rewrite (a_check_lookup _ _ _ _ E). split_and!; try done.
  change (probe t v) with (mcdc_check_row t v). by rewrite (cbind_Ret _ _ _ _ _ Hrun1).
Qed.

(** A run of checks is a sequence of API calls. *)
Lemma runs_to_probes tr s s' (P : pstate -> Prop) :
  Forall (fun p => is_u32 p.1) tr -> @run_probes pstate _ tr s = Ret (tt, s') -> P s' -> runs_to s P.
Proof.
  revert s. induction tr as [|[t v] tr IH]; intros s Hok Hrun HP; simpl in Hrun.
  - injection Hrun as <-. by constructor.
  - apply Forall_cons in Hok as [Ht Hok]. apply cbind_Ret_inv in Hrun as ([] & s1 & H1 & H2).
    apply (runs_to_step s P (CallCheck t v) s1); [exact Ht | exact H1 | by apply IH].
Qed.

(** ** The shape of the abstract state *)

(** Every table read off a well-formed state without wrapped sizes has
    [rows] rows of [cols] conditions and [rows] flags. *)
Lemma abs_tables_wf s a :
  wf s -> no_overflow s -> abs s = Some a -> Forall atable_wf (a_tables a).
Proof.
  intros Hwf Hno Ha. apply Forall_lookup. intros i at' Hi.
  destruct (Forall2_lookup_r _ _ _ _ _ (proj2 (abs_Some _ _ Ha)) Hi) as (t & Ht & Habs).
  destruct (abs_table_Some _ _ _ Habs) as (tb & cb & Htb & Hcb & ->).
  pose proof (wf_table_wf _ _ _ Hwf Ht) as Htw.
  destruct (table_wf_lengths _ _ _ _ Htw Htb Hcb) as [Hltb Hlcb].
  destruct Htw as (Hr & Hc & _). pose proof (Forall_lookup_1 _ _ _ _ Hno Ht) as Hnov. simpl in Hnov.
  unfold is_u32 in *. rewrite u32_small in Hltb by (unfold is_u32; nia).
  rewrite Z2Nat.inj_mul in Hltb by lia.
  unfold atable_wf. simpl. split_and!; [by rewrite length_map, length_seq | | done].
  apply Forall_forall. intros r Hr'. apply list_elem_of_fmap in Hr' as (k & -> & Hk).
  apply elem_of_seq in Hk. unfold row_of. apply length_slice. nia.
Qed.

(** C32: the abstract state of every reachable state is well typed: each
    table has [rows] expected rows, each of [cols] conditions, and [rows]
    observed flags, and a table with columns has its cursor within its
    rows. *)
Theorem reachable_abs_typed s a :
  reachable s -> abs s = Some a ->
  Forall atable_wf (a_tables a) /\
  (forall t, last (a_tables a) = Some t -> (0 < a_cols t)%nat -> (a_cursor a <= a_rows t)%nat).
Proof.
  intros Hr Ha. destruct (reachable_inv_step s Hr) as (Hwf & Hno & Hcur).
  split; [by apply (abs_tables_wf s) |]. intros at' Hl Hc.
  destruct (abs_last _ _ _ Ha Hl) as (ts & t & Hts & Habs & _).
  destruct (abs_table_Some _ _ _ Habs) as (? & ? & _ & _ & ->). simpl in *.
  pose proof (proj1 (abs_Some _ _ Ha)) as ->. pose proof (proj1 (proj2 Hwf)) as Hn. unfold is_u32 in Hn.
  pose proof (Hcur ts t Hts ltac:(lia)). lia.
Qed.

(** ** Sequences of checks *)

Lemma check_rows_effect idx vs s a at' :
  inv s -> abs s = Some a -> a_tables a !! idx = Some at' ->
  Forall (fun v => length v = a_cols at') vs ->
  exists s' a' at'', @run_probes pstate _ (checks_of idx vs) s = Ret (tt, s') /\ inv s' /\
    abs s' = Some a' /\ a_tables a' !! idx = Some at'' /\
    (forall k, k <> idx -> a_tables a' !! k = a_tables a !! k) /\
    a_name at'' = a_name at' /\ a_cols at'' = a_cols at' /\ a_rows at'' = a_rows at' /\ a_expected at'' = a_expected at' /\
    length (a_observed at'') = length (a_observed at') /\
    forall j, a_observed at'' !! j = Some true <->
      a_observed at' !! j = Some true \/
      (exists v, v ∈ vs /\ fst <$> list_find (fun r => r = v) (a_expected at') = Some j /\
                 (j < length (a_observed at'))%nat).
Proof.
  intros Hinv Ha Hat Hvs.
  destruct (a_probes_observed idx vs a at' Hat)
    as (a0 & at'' & Hp0 & Hat'' & _ & Hother & Hn & Hr & Hc & He & Ho & _ & Hiff).
  destruct (run_probes_abs (checks_of idx vs) s a Hinv Ha) as (s' & a' & Hrun & Hp & Ha' & Hinv').
  { apply Forall_fmap, (Forall_impl _ _ _ Hvs). intros v Hv. split; simpl; [lia|].
    unfold shape. by rewrite Nat2Z.id, list_lookup_fmap, Hat, Hv. }
  rewrite Hp0 in Hp. injection Hp as <-. exists s', a0, at''. split_and!; done.
Qed.

(** C33: a sequence of checks against a table of a reachable state runs
    to completion, changes no other table, and leaves the table's flags
    set exactly where they were set before or where one of the observed
    vectors first occurs among the expected rows. *)
Theorem check_rows_observed idx vs s a at' :
  reachable s -> abs s = Some a -> a_tables a !! idx = Some at' ->
  Forall (fun v => length v = a_cols at') vs ->
  exists s' a' at'', @run_probes pstate _ (checks_of idx vs) s = Ret (tt, s') /\
    abs s' = Some a' /\ a_tables a' !! idx = Some at'' /\
    (forall k, k <> idx -> a_tables a' !! k = a_tables a !! k) /\
    a_expected at'' = a_expected at' /\
    forall j, a_observed at'' !! j = Some true <->
      a_observed at' !! j = Some true \/
      (exists v, v ∈ vs /\ fst <$> list_find (fun r => r = v) (a_expected at') = Some j /\
                 (j < length (a_observed at'))%nat).
Proof.
  intros Hr Ha Hat Hvs.
  destruct (check_rows_effect idx vs s a at' (reachable_inv_step s Hr) Ha Hat Hvs)
    as (s' & a' & at'' & ? & _ & ? & ? & ? & _ & _ & _ & ? & _ & ?).
  exists s', a', at''. split_and!; done.
Qed.

(** The index of a table is a valid [unsigned int]. *)
Lemma table_index_u32 s a idx at' :
  wf s -> abs s = Some a -> a_tables a !! idx = Some at' -> is_u32 (Z.of_nat idx).
Proof.
  intros Hwf Ha Hat. pose proof (lookup_lt_Some _ _ _ Hat) as Hlt.
  rewrite <- (Forall2_length _ _ _ (proj2 (abs_Some _ _ Ha))) in Hlt.
  pose proof (wf_ctx_len _ Hwf). destruct Hwf as (_ & _ & Hl & _). unfold is_u32 in *. lia.
Qed.

(** C34: liveness of the check protocol: from any reachable state, a
    table whose expected rows are pairwise distinct is eventually passed
    by some sequence of API calls (checking each expected row once). *)
Theorem checks_eventually_pass s a idx at' :
  reachable s -> abs s = Some a -> a_tables a !! idx = Some at' -> NoDup (a_expected at') ->
  runs_to s (fun s' => exists a' at'', abs s' = Some a' /\ a_tables a' !! idx = Some at'' /\
                                       a_pass at'' = true).
Proof.
  intros Hr Ha Hat Hnd. pose proof (reachable_inv_step s Hr) as Hinv.
  pose proof (Forall_lookup_1 _ _ _ _ (abs_tables_wf s a (proj1 Hinv) (proj1 (proj2 Hinv)) Ha) Hat)
    as (Hle & Hlr & Hlo).
  destruct (check_rows_effect idx (a_expected at') s a at' Hinv Ha Hat Hlr)
    as (s' & a' & at'' & Hrun & _ & Ha' & Hat'' & _ & _ & _ & Hr'' & He & Ho & Hiff).
  apply (runs_to_probes (checks_of idx (a_expected at')) s s' _); [| exact Hrun |].
  { apply Forall_fmap, Forall_forall. intros v _. simpl. exact (table_index_u32 s a idx at' (proj1 Hinv) Ha Hat). }
  exists a', at''. split_and!; [done | done |].
  unfold a_pass, a_checks_passed. apply Nat.eqb_eq. rewrite Hr'', <- Hlo, <- Ho.
  apply length_filter_all, Forall_lookup. intros j b Hj.
  assert (Hjl : (j < length (a_observed at'))%nat) by (rewrite <- Ho; exact (lookup_lt_Some _ _ _ Hj)).
  destruct (lookup_lt_is_Some_2 (a_expected at') j) as [r Hrj]; [lia|].
  assert (Ht : a_observed at'' !! j = Some true).
  { apply Hiff. right. exists r. split; [by eapply list_elem_of_lookup_2 |].
    by rewrite (list_find_NoDup _ _ _ Hnd Hrj). }
  congruence.
Qed.

(** C35: a table with a repeated expected row can never pass: whatever
    vectors are observed against it, the later copy's flag stays clear,
    since a check marks only the first equal row (section 8 promises that
    a table passes exactly when every row has received a matching check). *)
Theorem repeated_row_never_passes s a idx at' i j r vs :
  reachable s -> abs s = Some a -> a_tables a !! idx = Some at' ->
  a_expected at' !! i = Some r -> a_expected at' !! j = Some r -> (i < j)%nat ->
  a_observed at' !! j = Some false ->
  Forall (fun v => length v = a_cols at') vs ->
  exists s' a' at'', @run_probes pstate _ (checks_of idx vs) s = Ret (tt, s') /\
    abs s' = Some a' /\ a_tables a' !! idx = Some at'' /\ a_pass at'' = false.
Proof.
  intros Hr Ha Hat Hi Hj Hij Hoj Hvs. pose proof (reachable_inv_step s Hr) as Hinv.
  pose proof (Forall_lookup_1 _ _ _ _ (abs_tables_wf s a (proj1 Hinv) (proj1 (proj2 Hinv)) Ha) Hat)
    as (_ & _ & Hlo).
  destruct (check_rows_effect idx vs s a at' Hinv Ha Hat Hvs)
    as (s' & a' & at'' & Hrun & _ & Ha' & Hat'' & _ & _ & _ & Hr'' & He & Ho & Hiff).
  exists s', a', at''. split_and!; [done | done | done |].
  assert (Hj' : a_observed at'' !! j <> Some true).
  { rewrite Hiff. intros [H | (v & _ & Hf & _)]; [congruence|].
    destruct (list_find _ _) as [[k y]|] eqn:E; simpl in Hf; [| done]. injection Hf as ->.
    apply list_find_Some in E as (Ey & -> & Hbefore). rewrite Hj in Ey. injection Ey as <-.
    by apply (Hbefore i r). }
  unfold a_pass, a_checks_passed. apply Nat.eqb_neq. intros Hall.
  pose proof (lookup_lt_Some _ _ _ Hoj) as Hjl. rewrite <- Ho in Hjl.
  destruct (lookup_lt_is_Some_2 _ _ Hjl) as [b Hb].
  rewrite Hr'', <- Hlo, <- Ho in Hall. apply length_filter_all in Hall. rewrite (Forall_lookup_1 _ _ _ _ Hall Hb) in Hb. done.
Qed.

(** ** Standard output *)

(** A computation that leaves standard output alone. *)
Definition keeps_stdout {A} (m : cm pstate A) : Prop :=
  forall s x s', m s = Ret (x, s') -> stdout (libc_of s') = stdout (libc_of s).

Lemma keeps_stdout_ret {A} (x : A) : keeps_stdout (cret x).
Proof. by intros s y s' [= _ <-]. Qed.

Lemma keeps_stdout_bind {A B} (m : cm pstate A) (k : A -> cm pstate B) :
  keeps_stdout m -> (forall x, keeps_stdout (k x)) -> keeps_stdout (cbind m k).
Proof.
  intros Hm Hk s y s'' H. apply cbind_Ret_inv in H as (x & s' & H1 & H2).
  rewrite (Hk _ _ _ _ H2). exact (Hm _ _ _ H1).
Qed.

(** The memory primitives and [ctx_get] print nothing. *)
Lemma keeps_stdout_mem_read site b off len : keeps_stdout (on_libc (mem_read site b off len)).
Proof.
  intros s x s' H. unfold on_libc, lift_cm, mem_read in H.
  destruct (heap (libc_of s) !! _); [destruct (decide _)|]; simplify_eq; done.
Qed.

Lemma keeps_stdout_mem_write site b off xs : keeps_stdout (on_libc (mem_write site b off xs)).
Proof.
  intros s x s' H. unfold on_libc, lift_cm, mem_write in H.
  destruct (heap (libc_of s) !! _); [destruct (decide _)|]; simplify_eq; done.
Qed.

Lemma keeps_stdout_arg_read site xs len : keeps_stdout (@arg_read pstate site xs len).
Proof. intros s x s' H. unfold arg_read in H. destruct (decide _); unfold cret, cfail in H; simplify_eq; done. Qed.

Lemma keeps_stdout_ctx_get site i : keeps_stdout (ctx_get site i).
Proof.
  intros s x s' H. unfold ctx_get in H. destruct (ctx_list s); [| done].
  destruct (_ !! _) as [[]|]; simplify_eq; done.
Qed.

Lemma keeps_stdout_check_row_loop this row i k : keeps_stdout (check_row_loop this row i k).
Proof.
  revert i. induction k as [|k IH]; intros i; simpl; [apply keeps_stdout_ret|].
  apply keeps_stdout_bind; [apply keeps_stdout_mem_read | intros e].
  apply keeps_stdout_bind; [apply keeps_stdout_arg_read | intros o].
  case_decide; [apply keeps_stdout_mem_write | apply IH].
Qed.

Lemma keeps_stdout_run_probes tr : keeps_stdout (@run_probes pstate _ tr).
Proof.
  induction tr as [|[t v] tr IH]; simpl; [apply keeps_stdout_ret|].
  apply keeps_stdout_bind; [| intros; apply IH].
  change (probe t v) with (mcdc_check_row t v). unfold mcdc_check_row.
  apply keeps_stdout_bind; [apply keeps_stdout_ctx_get | intros this; apply keeps_stdout_check_row_loop].
Qed.

(** Registrations print nothing. *)
Lemma keeps_stdout_register_rows rs : keeps_stdout (register_rows rs).
Proof.
  induction rs as [|r rs IH]; simpl; [apply keeps_stdout_ret|].
  apply keeps_stdout_bind; [| intros; apply IH].
  unfold MCDC_REGISTER, mcdc_register_row.
  apply keeps_stdout_bind; [by intros s x s' [= _ <-] | intros s0].
  apply keeps_stdout_bind; [apply keeps_stdout_ctx_get | intros this].
  apply keeps_stdout_bind; [apply keeps_stdout_arg_read | intros src].
  apply keeps_stdout_bind; [apply keeps_stdout_mem_write | intros _].
  by intros s x s' [= _ <-].
Qed.

(** ** Sequences of registrations *)

(** Registering [rs] at cursor [k] of the last table writes them over
    rows [k] to [k + length rs - 1] and moves the cursor past them. *)
Lemma a_registers_splice ts nm r c e o k rs :
  length e = r -> (k + length rs <= r)%nat ->
  a_registers rs (mk_astate (ts ++ [mk_atable nm r c e o]) k) =
    inr (mk_astate (ts ++ [mk_atable nm r c (splice e k rs) o]) (k + length rs)).
Proof.
  revert k e. induction rs as [|x rs IH]; intros k e He Hk; simpl.
  - rewrite splice_nil, Nat.add_0_r by lia. done.
  - simpl in Hk. unfold a_register. cbn [a_tables a_cursor]. rewrite last_snoc. simpl.
    rewrite decide_True by lia. rewrite insert_last.
    rewrite IH by (rewrite ?length_insert; lia).
    rewrite splice_insert by lia. by rewrite Nat.add_succ_r.
Qed.

Lemma last_insert_last {A} (l : list A) x y :
  last l = Some x -> last (<[(length l - 1)%nat := y]> l) = Some y.
Proof. intros Hl. apply last_Some in Hl as [l' ->]. by rewrite insert_last, last_snoc. Qed.

(** The library runs a sequence of registrations that fit the last
    table as the specification does. *)
Lemma register_rows_abs rs s a at' :
  inv s -> abs s = Some a -> last (a_tables a) = Some at' -> (0 < a_cols at')%nat ->
  Forall (fun r => length r = a_cols at') rs -> (a_cursor a + length rs <= a_rows at')%nat ->
  exists s' a', register_rows rs s = Ret (tt, s') /\ a_registers rs a = inr a' /\
    abs s' = Some a' /\ inv s'.
Proof.
  revert s a at'. induction rs as [|r0 rs IH]; intros s a at' Hinv Ha Hl Hc Hrs Hk; [by exists s, a|].
  apply Forall_cons in Hrs as [Hr0 Hrs]. simpl in Hk.
  destruct (abs_last _ _ _ Ha Hl) as (ts0 & t0 & Hts0 & Habs0 & _).
  destruct (abs_table_Some _ _ _ Habs0) as (? & ? & _ & _ & Hat0).
  assert (Hcols : a_cols at' = Z.to_nat (cols t0)) by (by rewrite Hat0).
  destruct Hinv as (Hwf & Hno & Hcur).
  pose proof (register_row_abs s a r0 Hwf Ha Hno Hcur) as Hreg.
  destruct (a_register r0 a) as [e | a1] eqn:Ea.
  { exfalso. unfold a_register in Ea. rewrite Hl, decide_True in Ea by lia. discriminate. }
  destruct Hreg as (s1 & Hrun1 & Ha1).
  { intros ts t Hts. rewrite Hts0 in Hts. apply app_inj_tail in Hts as [_ <-]. lia. }
  assert (Hinv1 : inv s1) by (apply (inv_register s r0); [done | exact Hrun1]).
  unfold a_register in Ea. rewrite Hl, decide_True in Ea by lia. injection Ea as <-.
  destruct (IH s1 _ _ Hinv1 Ha1 (last_insert_last _ _ _ Hl)) as (s' & a' & Hrun & Hregs & Ha' & Hinv');
    simpl; [lia | done | lia |].
  exists s', a'. split_and!; try done.
  - simpl. by rewrite (cbind_Ret _ _ _ _ _ Hrun1).
  - simpl. unfold a_register. rewrite Hl, decide_True by lia. done.
Qed.

(** An allocation that succeeds followed by registrations that fit:
    the rows read back in order, the state keeps the invariant and
    nothing is printed. *)
Lemma alloc_register_abs s a rows cols name rs :
  inv s -> abs s = Some a -> allocs_succeed 3 (libc_of s) -> is_u32 (ctx_len s + 1) ->
  is_u32 rows -> is_u32 cols -> rows * cols <= UINT_MAX -> 0 < cols ->
  Forall (fun r => length r = Z.to_nat cols) rs -> (length rs <= Z.to_nat rows)%nat ->
  exists s' a', (mcdc_alloc_table rows cols name ;; register_rows rs) s = Ret (tt, s') /\
    abs s' = Some a' /\
    a_tables a' = a_tables a ++ [mk_atable name (Z.to_nat rows) (Z.to_nat cols)
                                  (rs ++ replicate (Z.to_nat rows - length rs) (replicate (Z.to_nat cols) false))
                                  (replicate (Z.to_nat rows) false)] /\
    a_cursor a' = length rs /\ inv s' /\ stdout (libc_of s') = stdout (libc_of s).
Proof.
  intros Hinv Ha Hok Hu Hrw Hcl Hno Hc Hrs Hlen.
  destruct (alloc_abs s a rows cols name (proj1 Hinv) Ha Hok Hu) as (s1 & a1 & Hrun1 & Ha1 & Habs1);
    [unfold is_u32 in *; lia .. |].
  injection Ha1 as <-.
  assert (Hinv1 : inv s1) by (apply (inv_alloc s rows cols name); [done | done | exact Hrun1]).
  assert (Hout1 : stdout (libc_of s1) = stdout (libc_of s)).
  { destruct (mcdc_alloc_table_success s rows cols name (proj1 Hinv) Hok Hu) as (s1' & Hrun1' & _ & _ & _ & _ & _ & _ & _ & Hout & _).
    rewrite Hrun1 in Hrun1'. by injection Hrun1' as <-. }
  destruct (register_rows_abs rs s1 _ _ Hinv1 Habs1 (last_snoc _ _)) as (s' & a' & Hrun & Hregs & Ha' & Hinv');
    simpl; [lia | done | lia |].
  rewrite a_registers_splice in Hregs by (rewrite ?length_replicate; lia).
  injection Hregs as <-. exists s'. eexists. split_and!; [| exact Ha' | | done | done |].
  - by rewrite (cbind_Ret _ _ _ _ _ Hrun1).
  - simpl. do 3 f_equal. unfold splice. simpl.
    by rewrite drop_replicate.
  - rewrite <- Hout1. exact (keeps_stdout_register_rows rs _ _ _ Hrun).
Qed.

(** C36: the registration round trip: after a successful allocation of a
    [rows x cols] table, registering up to [rows] rows of [cols]
    conditions reads back as exactly those rows, in order, followed by the
    unregistered zero rows; the older tables read as before, no flag is
    set and the cursor counts the rows registered. *)
Theorem alloc_register_read_back s a rows cols name rs :
  reachable s -> abs s = Some a -> allocs_succeed 3 (libc_of s) -> is_u32 (ctx_len s + 1) ->
  is_u32 rows -> is_u32 cols -> rows * cols <= UINT_MAX -> 0 < cols ->
  Forall (fun r => length r = Z.to_nat cols) rs -> (length rs <= Z.to_nat rows)%nat ->
  exists s' a', (mcdc_alloc_table rows cols name ;; register_rows rs) s = Ret (tt, s') /\
    abs s' = Some a' /\
    a_tables a' = a_tables a ++ [mk_atable name (Z.to_nat rows) (Z.to_nat cols)
                                  (rs ++ replicate (Z.to_nat rows - length rs) (replicate (Z.to_nat cols) false))
                                  (replicate (Z.to_nat rows) false)] /\
    a_cursor a' = length rs.
Proof.
  intros Hr Ha Hok Hu Hrw Hcl Hno Hc Hrs Hlen.
  destruct (alloc_register_abs s a rows cols name rs (reachable_inv_step s Hr) Ha Hok Hu Hrw Hcl Hno Hc Hrs Hlen)
    as (s' & a' & ? & ? & ? & ? & _ & _).
  by exists s', a'.
Qed.

(** ** Tables without columns *)

(** [mcdc_check_row] reads only [cols] conditions of the observed
    vector. *)
Lemma arg_read_take {S} site (xs : list bool) len :
  0 <= len <= Z.of_nat (length xs) -> @arg_read S site xs len = arg_read site (take (Z.to_nat len) xs) len.
Proof.
  intros H. unfold arg_read. rewrite !decide_True by (rewrite ?length_take; lia).
  by rewrite take_take, Nat.min_id.
Qed.

Lemma check_row_loop_take this row i k :
  0 <= cols this <= Z.of_nat (length row) ->
  check_row_loop this row i k ≈ check_row_loop this (take (Z.to_nat (cols this)) row) i k.
Proof.
  intros Hc. revert i. induction k as [|k IH]; intros i s; [done|]. simpl.
  apply cbind_ext. intros expected s1. rewrite (arg_read_take _ row) by lia.
  apply cbind_ext. intros observed s2. case_decide; [done | apply IH].
Qed.

(** With no columns, every vector reads as the empty vector. *)
Lemma mcdc_check_row_zero_cols s (idx : nat) t v :
  wf s -> tables s !! idx = Some t -> cols t = 0 ->
  mcdc_check_row (Z.of_nat idx) v s = mcdc_check_row (Z.of_nat idx) [] s.
Proof.
  intros Hwf Ht Hc. unfold mcdc_check_row.
  rewrite !(cbind_Ret _ _ _ _ _ (ctx_get_table _ s (Z.of_nat idx) t Hwf ltac:(by rewrite Nat2Z.id))).
  rewrite (check_row_loop_take t v) by lia. by rewrite Hc.
Qed.

(** C31: a table with no columns and at least one row is not rejected,
    and in every reachable state every observed vector, of any length,
    marks its first row; where the specification's check of a vector
    equal to no registered row (every row is empty, so any nonempty
    vector) leaves the state unchanged (section 8). *)
Theorem check_row_zero_cols s a idx at' v :
  reachable s -> abs s = Some a -> a_tables a !! idx = Some at' -> a_cols at' = 0%nat ->
  (0 < a_rows at')%nat ->
  exists s' a', mcdc_check_row (Z.of_nat idx) v s = Ret (tt, s') /\ abs s' = Some a' /\
    a_tables a' !! idx = Some (mk_atable (a_name at') (a_rows at') 0 (a_expected at')
                                 (<[0%nat := true]> (a_observed at'))) /\
    (v <> [] -> a_check idx v a = inr a).
Proof.
  intros Hr Ha Hat Hc Hrows. destruct (reachable_inv_step s Hr) as (Hwf & Hno & _).
  pose proof (Forall_lookup_1 _ _ _ _ (abs_tables_wf s a Hwf Hno Ha) Hat) as (Hle & Hlr & Hlo).
  rewrite Hc in Hlr.
  destruct (Forall2_lookup_r _ _ _ _ _ (proj2 (abs_Some _ _ Ha)) Hat) as (t & Ht & Habs).
  destruct (abs_cols s a idx t Ha Ht) as (at0 & Hat0 & Hc0). rewrite Hat in Hat0. injection Hat0 as <-.
  pose proof (Forall_lookup_1 _ _ _ _ (proj1 (proj2 (proj2 (proj2 (proj2 Hwf))))) Ht) as (_ & Hcu & _).
  assert (Hct : cols t = 0) by (unfold is_u32 in Hcu; lia).
  destruct (lookup_lt_is_Some_2 (a_expected at') 0) as [r0 Hr0]; [lia|].
  assert (Hr0' : r0 = []) by (apply nil_length_inv; exact (Forall_lookup_1 _ _ _ _ Hlr Hr0)). subst r0.
  pose proof (check_row_abs s a idx [] Hwf Ha Hno) as Hchk.
  rewrite (a_check_lookup _ _ _ _ Hat) in Hchk.
  destruct Hchk as (s' & Hrun & Ha').
  { intros t' Ht'. rewrite Ht in Ht'. injection Ht' as <-. by rewrite Hct. }
  exists s'. eexists. split_and!.
  - by rewrite (mcdc_check_row_zero_cols s idx t v Hwf Ht Hct).
  - exact Ha'.
  - simpl. rewrite list_lookup_insert_eq by (exact (lookup_lt_Some _ _ _ Hat)). unfold mark_first.
    rewrite (proj2 (list_find_Some _ _ 0 [])) by (split_and!; [done | done | intros; lia]).
    by rewrite Hc.
  - intros Hv. rewrite (a_check_lookup _ _ _ _ Hat). unfold mark_first.
    rewrite (proj2 (list_find_None _ _)).
    + destruct a as [ts cur], at' as [nm r c e o]. simpl in *. by rewrite list_insert_id.
    + eapply Forall_impl; [exact Hlr|]. intros x Hx ->. apply Hv. by apply nil_length_inv.
Qed.

(** ** Instrumented code and the library *)

Lemma reachable_run_calls cs s : reachable s -> calls_ok cs s = true -> reachable (run_calls cs s).
Proof.
  revert s. induction cs as [|c cs IH]; intros s Hr Hok; [done|]. simpl in Hok.
  apply andb_true_iff in Hok as [Hc Hok]. apply bool_decide_eq_true in Hc.
  destruct (run_call c s) as [[[] s1]|] eqn:E; [| done].
  unfold run_calls. simpl. unfold exec at 2. rewrite E. apply IH; [| done].
  exact (reachable_step s c s1 Hr Hc E).
Qed.

(** Checks are API calls: a run of checks with [unsigned int] indices
    from a reachable state ends in a reachable state. *)
Lemma reachable_probes tr s s' :
  reachable s -> Forall (fun p => is_u32 p.1) tr -> @run_probes pstate _ tr s = Ret (tt, s') ->
  reachable s'.
Proof.
  revert s. induction tr as [|[t v] tr IH]; intros s Hr Hok Hrun; simpl in Hrun.
  - by injection Hrun as <-.
  - apply Forall_cons in Hok as [Ht Hok]. apply cbind_Ret_inv in Hrun as ([] & s1 & H1 & H2).
    exact (IH s1 (reachable_step s (CallCheck t v) s1 Hr Ht H1) Hok H2).
Qed.

(** A property of each probe [spt_strncmp] can make holds of its trace. *)
Lemma strncmp_trace_forall (P : Z * list bool -> Prop) s1 s2 n :
  (forall j, P (0, decision_at s1 s2 n j)) -> (forall b, P (1, [b])) ->
  Forall P (strncmp_trace s1 s2 n).
Proof.
  intros H0 H1. unfold strncmp_trace. apply Forall_app. split.
  - apply Forall_fmap, Forall_forall. intros j _. apply H0.
  - apply Forall_singleton, H1.
Qed.


(** The comparison instrumented with the library, from any state of the
    invariant whose tables 0 and 1 have the harness's shapes. *)
Lemma strncmp_coverage_inv s a s1 s2 n :
  inv s -> abs s = Some a -> shape a !! 0%nat = Some 3%nat -> shape a !! 1%nat = Some 1%nat ->
  is_cstr s1 -> is_cstr s2 -> 0 <= n ->
  exists s' a', @spt_strncmp pstate _ (Some s1) (Some s2) n s = Ret (strncmp_result s1 s2 n, s') /\
    @run_probes pstate _ (strncmp_trace s1 s2 n) s = Ret (tt, s') /\
    a_probes (strncmp_trace s1 s2 n) a = inr a' /\ abs s' = Some a' /\ inv s' /\
    stdout (libc_of s') = stdout (libc_of s).
Proof.
  intros Hinv Ha H0 H1 Hs1 Hs2 Hn.
  destruct (run_probes_abs (strncmp_trace s1 s2 n) s a Hinv Ha) as (s' & a' & Hrun & Hp & Ha' & Hinv').
  { apply strncmp_trace_forall; intros; (split; [simpl; lia | done]). }
  exists s', a'. split_and!; try done.
  - rewrite (spt_strncmp_run s1 s2 n Hs1 Hs2 Hn s). by rewrite (cbind_Ret _ _ _ _ _ Hrun).
  - exact (keeps_stdout_run_probes _ _ _ _ Hrun).
Qed.

(** Instrumented code composes with the library: from a reachable state
    whose tables 0 and 1 have 3 and 1 columns (those of the harness),
    [spt_strncmp] with [MCDC_CHECK] expanding to [mcdc_check_row], on two
    C strings, returns [strncmp_result], moves the abstract state exactly
    as the specification's checks of its trace [strncmp_trace] do, and
    ends in a reachable state. *)
Theorem instrumented_strncmp_coverage s a s1 s2 n :
  reachable s -> abs s = Some a -> shape a !! 0%nat = Some 3%nat -> shape a !! 1%nat = Some 1%nat ->
  is_cstr s1 -> is_cstr s2 -> 0 <= n ->
  exists s' a', @spt_strncmp pstate _ (Some s1) (Some s2) n s = Ret (strncmp_result s1 s2 n, s') /\
    a_probes (strncmp_trace s1 s2 n) a = inr a' /\ abs s' = Some a' /\ reachable s'.
Proof.
  intros Hr Ha H0 H1 Hs1 Hs2 Hn.
  destruct (strncmp_coverage_inv s a s1 s2 n (reachable_inv_step s Hr) Ha H0 H1 Hs1 Hs2 Hn)
    as (s' & a' & Hspt & Hrun & Hp & Ha' & _).
  exists s', a'. split_and!; try done.
  apply (reachable_probes (strncmp_trace s1 s2 n) s s' Hr); [| exact Hrun].
  apply strncmp_trace_forall; intros; simpl; decide_by_eval.
Qed.

(** ** The round trip of section 8 *)

(** The flags after checks against freshly registered rows [rs]: set
    exactly at the first matches of the observed vectors, that is, for
    rows without repetition, exactly at the rows observed. *)
Lemma fresh_flags_first_match (rs vs : list (list bool)) (o : list bool) :
  (forall j, o !! j = Some true <->
     replicate (length rs) false !! j = Some true \/
     (exists v, v ∈ vs /\ fst <$> list_find (fun r => r = v) rs = Some j /\
                (j < length (replicate (length rs) false))%nat)) ->
  (forall j, o !! j = Some true <-> exists v, v ∈ vs /\ fst <$> list_find (fun r => r = v) rs = Some j) /\
  (NoDup rs -> forall j r, rs !! j = Some r -> o !! j = Some true <-> r ∈ vs).
Proof.
  intros Hiff.
  assert (Hfirst : forall j, o !! j = Some true <-> exists v, v ∈ vs /\ fst <$> list_find (fun r => r = v) rs = Some j).
  { intros j. rewrite Hiff, lookup_replicate, length_replicate. split.
    - intros [[[=] _] | (v & Hv & Hf & _)]. by exists v.
    - intros (v & Hv & Hf). right. exists v. split_and!; [done | done |].
      destruct (list_find _ rs) as [[k x]|] eqn:E; [| done]. injection Hf as ->.
      apply list_find_Some in E as (Hk & _ & _). exact (lookup_lt_Some _ _ _ Hk). }
  split; [done|]. intros Hnd j r Hr. rewrite Hfirst. split.
  - intros (v & Hv & Hf). destruct (list_find _ rs) as [[k x]|] eqn:E; [| done]. injection Hf as ->.
    apply list_find_Some in E as (Hk & -> & _). rewrite Hk in Hr. by injection Hr as <-.
  - intros Hv. exists r. split; [done|]. by rewrite (list_find_NoDup rs j r Hnd Hr).
Qed.

(** The tables after a check sequence that changed only table [idx]. *)
Lemma tables_snoc_update (ts ts' : list atable) t t' :
  ts' !! length ts = Some t' -> (forall k, k <> length ts -> ts' !! k = (ts ++ [t]) !! k) ->
  ts' = ts ++ [t'].
Proof.
  intros Hl Hother. apply list_eq. intros k. destruct (decide (k = length ts)) as [->|Hk].
  - by rewrite Hl, list_lookup_middle.
  - rewrite Hother by done. rewrite !lookup_app.
    destruct (ts !! k) eqn:E; [done|]. apply lookup_ge_None in E.
    destruct (k - length ts)%nat eqn:F; [lia | done].
Qed.

(** C28: the round trip of section 8, for any table: from any reachable
    state, allocating a [rows x cols] table, registering [rows] rows,
    checking observed vectors against it through [MCDC_CHECK] and
    printing the report runs to completion; the output is the report of
    the older tables followed by the new table's text, whose row [j] is
    Checked exactly when an observed vector first occurs in row [j] (for
    rows without repetition: exactly when row [j] was observed), so the
    table passes exactly when every row was observed. *)
Theorem round_trip_report s a rows cols name rs vs :
  reachable s -> abs s = Some a -> allocs_succeed 3 (libc_of s) -> is_u32 (ctx_len s + 1) ->
  is_u32 rows -> is_u32 cols -> rows * cols <= UINT_MAX -> 0 < cols ->
  Forall (fun r => length r = Z.to_nat cols) rs -> length rs = Z.to_nat rows ->
  Forall (fun v => length v = Z.to_nat cols) vs ->
  exists s' os,
    (mcdc_alloc_table rows cols name ;; register_rows rs ;;
     @run_probes pstate _ (checks_of (length (a_tables a)) vs) ;; mcdc_check_mcdc) s = Ret (tt, s') /\
    stdout (libc_of s') = stdout (libc_of s) +:+
      (a_report a +:+ a_table_text (mk_atable name (Z.to_nat rows) (Z.to_nat cols) rs os)) /\
    length os = length rs /\
    (forall j, os !! j = Some true <-> exists v, v ∈ vs /\ fst <$> list_find (fun r => r = v) rs = Some j) /\
    (NoDup rs -> forall j r, rs !! j = Some r -> os !! j = Some true <-> r ∈ vs).
Proof.
  intros Hr Ha Hok Hu Hrw Hcl Hno Hc Hrs Hl Hvs.
  destruct (alloc_register_abs s a rows cols name rs (reachable_inv_step s Hr) Ha Hok Hu Hrw Hcl Hno Hc Hrs ltac:(lia))
    as (s2 & a2 & H12 & Ha2 & Ht2 & _ & Hinv2 & Hout2).
  replace (Z.to_nat rows - length rs)%nat with 0%nat in Ht2 by lia. rewrite app_nil_r, <- Hl in Ht2.
  set (at' := mk_atable name (length rs) (Z.to_nat cols) rs (replicate (length rs) false)) in Ht2.
  destruct (check_rows_effect (length (a_tables a)) vs s2 a2 at' Hinv2 Ha2)
    as (s3 & a3 & at'' & H3 & Hinv3 & Ha3 & Hat'' & Hother & Hn & Hcl' & Hr' & He & Ho & Hiff);
    [by rewrite Ht2, list_lookup_middle | done |].
  assert (Ht3 : a_tables a3 = a_tables a ++ [at'']).
  { apply (tables_snoc_update _ _ at'); [done|]. intros k Hk. by rewrite Hother, Ht2. }
  destruct at'' as [n' r' c' e' o']. simpl in Hn, Hcl', Hr', He, Ho, Hiff. subst n' r' c' e'.
  pose proof (mcdc_check_mcdc_report s3 a3 (proj1 Hinv3) (proj1 (proj2 Hinv3)) Ha3) as H4.
  exists (print (a_report a3) s3), o'. rewrite <- Hl.
  split_and!; [| | by rewrite Ho, length_replicate | exact (proj1 (fresh_flags_first_match _ _ _ Hiff))
              | exact (proj2 (fresh_flags_first_match _ _ _ Hiff))].
  - rewrite <- cbind_assoc, (cbind_Ret _ _ _ _ _ H12), (cbind_Ret _ _ _ _ _ H3). exact H4.
  - rewrite stdout_print, (keeps_stdout_run_probes _ _ _ _ H3), Hout2. unfold a_report. by rewrite Ht3, a_tables_text_snoc.
Qed.

(** ** Witnesses *)

(** A 2x1 table for [i == n] with both rows registered. *)
Definition demo_alloc : pstate := exec (mcdc_alloc_table 2 1 "i == n") (pstate_init []).
Definition demo_reg1 : pstate := exec (mcdc_register_row [false]) demo_alloc.
Definition demo_reg2 : pstate := exec (mcdc_register_row [true]) demo_reg1.

Lemma demo_reachable : reachable demo_reg2.
Proof.
  apply (reachable_step demo_reg1 (CallRegister [true])); [| exact I | vm_compute; reflexivity].
  apply (reachable_step demo_alloc (CallRegister [false])); [| exact I | vm_compute; reflexivity].
  apply (reachable_step (pstate_init []) (CallAlloc 2 1 "i == n")); [constructor | | vm_compute; reflexivity].
  vm_compute. split_and!; congruence.
Qed.

Definition abs_of (s : pstate) : astate := default (mk_astate [] 0) (abs s).
Definition table_of (s : pstate) (i : nat) : atable :=
  default (mk_atable EmptyString 0 0 [] []) (a_tables (abs_of s) !! i).

Lemma reachable_abs_typed_witness :
  reachable session_check /\ abs session_check = Some (abs_of session_check) /\
  Forall atable_wf (a_tables (abs_of session_check)) /\
  (forall t, last (a_tables (abs_of session_check)) = Some t -> (0 < a_cols t)%nat ->
             (a_cursor (abs_of session_check) <= a_rows t)%nat).
Proof.
  assert (Ha : abs session_check = Some (abs_of session_check)) by (vm_compute; reflexivity).
  split_and!; [exact session_reachable | exact Ha | |];
    apply (reachable_abs_typed session_check _ session_reachable Ha).
Defined.

Lemma check_rows_observed_witness :
  reachable demo_reg2 /\ abs demo_reg2 = Some (abs_of demo_reg2) /\
  a_tables (abs_of demo_reg2) !! 0%nat = Some (table_of demo_reg2 0) /\
  Forall (fun v => length v = a_cols (table_of demo_reg2 0)) [[false]] /\
  exists s' a' at'', @run_probes pstate _ (checks_of 0 [[false]]) demo_reg2 = Ret (tt, s') /\
    abs s' = Some a' /\ a_tables a' !! 0%nat = Some at'' /\
    (forall k, k <> 0%nat -> a_tables a' !! k = a_tables (abs_of demo_reg2) !! k) /\
    a_expected at'' = a_expected (table_of demo_reg2 0) /\
    forall j, a_observed at'' !! j = Some true <->
      a_observed (table_of demo_reg2 0) !! j = Some true \/
      (exists v, v ∈ [[false]] /\ fst <$> list_find (fun r => r = v) (a_expected (table_of demo_reg2 0)) = Some j /\
                 (j < length (a_observed (table_of demo_reg2 0)))%nat).
Proof.
  assert (Ha : abs demo_reg2 = Some (abs_of demo_reg2)) by (vm_compute; reflexivity).
  assert (Ht : a_tables (abs_of demo_reg2) !! 0%nat = Some (table_of demo_reg2 0)) by (vm_compute; reflexivity).
  assert (Hv : Forall (fun v => length v = a_cols (table_of demo_reg2 0)) [[false]])
    by (vm_compute; repeat constructor).
  split_and!; [exact demo_reachable | exact Ha | exact Ht | exact Hv |].
  exact (check_rows_observed 0 [[false]] demo_reg2 _ _ demo_reachable Ha Ht Hv).
Defined.

Lemma checks_eventually_pass_witness :
  reachable demo_reg2 /\ abs demo_reg2 = Some (abs_of demo_reg2) /\
  a_tables (abs_of demo_reg2) !! 0%nat = Some (table_of demo_reg2 0) /\
  NoDup (a_expected (table_of demo_reg2 0)) /\
  runs_to demo_reg2 (fun s' => exists a' at'', abs s' = Some a' /\ a_tables a' !! 0%nat = Some at'' /\
                                              a_pass at'' = true).
Proof.
  assert (Ha : abs demo_reg2 = Some (abs_of demo_reg2)) by (vm_compute; reflexivity).
  assert (Ht : a_tables (abs_of demo_reg2) !! 0%nat = Some (table_of demo_reg2 0)) by (vm_compute; reflexivity).
  assert (Hnd : NoDup (a_expected (table_of demo_reg2 0))) by decide_by_eval.
  split_and!; [exact demo_reachable | exact Ha | exact Ht | exact Hnd |].
  exact (checks_eventually_pass demo_reg2 _ 0 _ demo_reachable Ha Ht Hnd).
Defined.

Lemma repeated_row_never_passes_witness :
  reachable session_check /\ abs session_check = Some (abs_of session_check) /\
  a_tables (abs_of session_check) !! 0%nat = Some (table_of session_check 0) /\
  a_expected (table_of session_check 0) !! 2%nat = Some [false; false; false] /\
  a_expected (table_of session_check 0) !! 3%nat = Some [false; false; false] /\ (2 < 3)%nat /\
  a_observed (table_of session_check 0) !! 3%nat = Some false /\
  Forall (fun v => length v = a_cols (table_of session_check 0)) [[false; false; false]; [true; true; true]] /\
  exists s' a' at'', @run_probes pstate _ (checks_of 0 [[false; false; false]; [true; true; true]]) session_check = Ret (tt, s') /\
    abs s' = Some a' /\ a_tables a' !! 0%nat = Some at'' /\ a_pass at'' = false.
Proof.
  assert (Ha : abs session_check = Some (abs_of session_check)) by (vm_compute; reflexivity).
  assert (Ht : a_tables (abs_of session_check) !! 0%nat = Some (table_of session_check 0)) by (vm_compute; reflexivity).
  assert (Hi : a_expected (table_of session_check 0) !! 2%nat = Some [false; false; false]) by (vm_compute; reflexivity).
  assert (Hj : a_expected (table_of session_check 0) !! 3%nat = Some [false; false; false]) by (vm_compute; reflexivity).
  assert (Ho : a_observed (table_of session_check 0) !! 3%nat = Some false) by (vm_compute; reflexivity).
  assert (Hv : Forall (fun v => length v = a_cols (table_of session_check 0)) [[false; false; false]; [true; true; true]])
    by (vm_compute; repeat constructor).
  split_and!; [exact session_reachable | exact Ha | exact Ht | exact Hi | exact Hj | lia | exact Ho | exact Hv |].
  exact (repeated_row_never_passes session_check _ 0 _ 2 3 _ _ session_reachable Ha Ht Hi Hj ltac:(lia) Ho Hv).
Defined.

Lemma alloc_register_read_back_witness :
  reachable (pstate_init []) /\ abs (pstate_init []) = Some (mk_astate [] 0) /\
  allocs_succeed 3 (libc_of (pstate_init [])) /\ is_u32 (ctx_len (pstate_init []) + 1) /\
  is_u32 2 /\ is_u32 1 /\ 2 * 1 <= UINT_MAX /\ 0 < 1 /\
  Forall (fun r => length r = Z.to_nat 1) [[false]; [true]] /\ (length [[false]; [true]] <= Z.to_nat 2)%nat /\
  exists s' a', (mcdc_alloc_table 2 1 "i == n" ;; register_rows [[false]; [true]]) (pstate_init []) = Ret (tt, s') /\
    abs s' = Some a' /\
    a_tables a' = [] ++ [mk_atable "i == n" (Z.to_nat 2) (Z.to_nat 1)
                          ([[false]; [true]] ++ replicate (Z.to_nat 2 - length [[false]; [true]]) (replicate (Z.to_nat 1) false))
                          (replicate (Z.to_nat 2) false)] /\
    a_cursor a' = length [[false]; [true]].
Proof.
  assert (Hr : reachable (pstate_init [])) by constructor.
  assert (Ha : abs (pstate_init []) = Some (mk_astate [] 0)) by reflexivity.
  assert (Hok : allocs_succeed 3 (libc_of (pstate_init []))) by (vm_compute; constructor).
  assert (Hu : is_u32 (ctx_len (pstate_init []) + 1)) by decide_by_eval.
  assert (Hrs : Forall (fun r => length r = Z.to_nat 1) [[false]; [true]]) by (repeat constructor).
  split_and!; try assumption; try decide_by_eval; try (simpl; lia).
  exact (alloc_register_read_back (pstate_init []) (mk_astate [] 0) 2 1 "i == n" [[false]; [true]]
           Hr Ha Hok Hu ltac:(decide_by_eval) ltac:(decide_by_eval) ltac:(vm_compute; congruence) ltac:(lia) Hrs ltac:(simpl; lia)).
Defined.

(** The calls of [test_strncmp] before its test loop. *)
Definition harness_setup : pstate :=
  run_calls [CallAlloc 4 3 "decision"; CallRegister [false; true; true]; CallRegister [true; false; true];
             CallRegister [true; true; false]; CallRegister [true; true; true];
             CallAlloc 2 1 "i == n"; CallRegister [false]; CallRegister [true]] (pstate_init []).

Lemma harness_setup_reachable : reachable harness_setup.
Proof. apply reachable_run_calls; [constructor | vm_compute; reflexivity]. Qed.


(** A 2 x 0 table, just allocated. *)
Definition zero_cols_state : pstate := run_calls [CallAlloc 2 0 "empty"] (pstate_init []).

Lemma check_row_zero_cols_witness :
  reachable zero_cols_state /\ abs zero_cols_state = Some (abs_of zero_cols_state) /\
  a_tables (abs_of zero_cols_state) !! 0%nat = Some (table_of zero_cols_state 0) /\
  a_cols (table_of zero_cols_state 0) = 0%nat /\ (0 < a_rows (table_of zero_cols_state 0))%nat /\
  exists s' a', mcdc_check_row (Z.of_nat 0) [true; false] zero_cols_state = Ret (tt, s') /\ abs s' = Some a' /\
    a_tables a' !! 0%nat = Some (mk_atable (a_name (table_of zero_cols_state 0)) (a_rows (table_of zero_cols_state 0)) 0
                                   (a_expected (table_of zero_cols_state 0))
                                   (<[0%nat := true]> (a_observed (table_of zero_cols_state 0)))) /\
    ([true; false] <> [] -> a_check 0 [true; false] (abs_of zero_cols_state) = inr (abs_of zero_cols_state)).
Proof.
  assert (Hr : reachable zero_cols_state) by (apply reachable_run_calls; [constructor | vm_compute; reflexivity]).
  assert (Ha : abs zero_cols_state = Some (abs_of zero_cols_state)) by (vm_compute; reflexivity).
  assert (Ht : a_tables (abs_of zero_cols_state) !! 0%nat = Some (table_of zero_cols_state 0)) by (vm_compute; reflexivity).
  assert (Hc : a_cols (table_of zero_cols_state 0) = 0%nat) by (vm_compute; reflexivity).
  assert (Hrows : (0 < a_rows (table_of zero_cols_state 0))%nat) by (vm_compute; lia).
  split_and!; [exact Hr | exact Ha | exact Ht | exact Hc | exact Hrows |].
  exact (check_row_zero_cols zero_cols_state _ 0 _ [true; false] Hr Ha Ht Hc Hrows).
Defined.

(** The round trip of section 8 from start-up: a 4x3 table, four rows,
    [(F,T,T)] and [(T,T,T)] observed. *)
Lemma round_trip_report_witness :
  let rs := [[false; true; true]; [true; false; true]; [true; true; false]; [true; true; true]] in
  let vs := [[false; true; true]; [true; true; true]] in
  let s := pstate_init [] in
  reachable s /\ abs s = Some (mk_astate [] 0) /\ allocs_succeed 3 (libc_of s) /\ is_u32 (ctx_len s + 1) /\
  is_u32 4 /\ is_u32 3 /\ 4 * 3 <= UINT_MAX /\ 0 < 3 /\
  Forall (fun r => length r = Z.to_nat 3) rs /\ length rs = Z.to_nat 4 /\
  Forall (fun v => length v = Z.to_nat 3) vs /\
  exists s' os,
    (mcdc_alloc_table 4 3 "decision" ;; register_rows rs ;;
     @run_probes pstate _ (checks_of (length (a_tables (mk_astate [] 0))) vs) ;; mcdc_check_mcdc) s = Ret (tt, s') /\
    stdout (libc_of s') = stdout (libc_of s) +:+
      (a_report (mk_astate [] 0) +:+ a_table_text (mk_atable "decision" (Z.to_nat 4) (Z.to_nat 3) rs os)) /\
    length os = length rs /\
    (forall j, os !! j = Some true <-> exists v, v ∈ vs /\ fst <$> list_find (fun r => r = v) rs = Some j) /\
    (NoDup rs -> forall j r, rs !! j = Some r -> os !! j = Some true <-> r ∈ vs).
Proof.
  cbv zeta.
  assert (Hr : reachable (pstate_init [])) by constructor.
  assert (Ha : abs (pstate_init []) = Some (mk_astate [] 0)) by (vm_compute; reflexivity).
  assert (Hok : allocs_succeed 3 (libc_of (pstate_init []))) by decide_by_eval.
  assert (Hu : is_u32 (ctx_len (pstate_init []) + 1)) by decide_by_eval.
  assert (H4 : is_u32 4) by decide_by_eval. assert (H3 : is_u32 3) by decide_by_eval.
  assert (Hrs : Forall (fun r => length r = Z.to_nat 3)
                  [[false; true; true]; [true; false; true]; [true; true; false]; [true; true; true]]) by decide_by_eval.
  assert (Hvs : Forall (fun v => length v = Z.to_nat 3) [[false; true; true]; [true; true; true]]) by decide_by_eval.
  split_and!; [exact Hr | exact Ha | exact Hok | exact Hu | exact H4 | exact H3 | decide_by_eval | lia | exact Hrs | reflexivity | exact Hvs |].
  exact (round_trip_report _ _ 4 3 "decision" _ _ Hr Ha Hok Hu H4 H3 ltac:(decide_by_eval) ltac:(lia) Hrs eq_refl Hvs).
Defined.
