(* ===== verification/Concurrency.v ===== *)
(** * Concurrent calls into the library

    Section 5 of the specification: the context is process-wide mutable
    state with no synchronisation, and calling the library from several
    threads is unsafe.  This file models what concurrent calls do.  Each
    call of [mcdc_register_row] and [mcdc_check_row] (src/mcdc.c 51-72)
    becomes a [thread]: its program point and locals, advanced by
    [thread_step] one access to shared memory at a time, in the order the
    C code makes them:
    - [mcdc_register_row]: the read of [list[len - 1]] (line 53), the
      [memcpy] at [m_nrows * cols] (line 55), then [m_nrows++] (line 57)
      as a load and a store;
    - [mcdc_check_row]: the read of [list[at_table]] (line 62), one
      [memcmp] per row (line 66), and the write of [checks[i]] (line 68).
    A configuration is the list of threads and the shared [pstate];
    [cstep] lets any unfinished thread take its next step (sequentially
    consistent interleaving), and [rtc cstep] is a run.

    Two results: two concurrent registrations can lose a row (an
    interleaving that no order of the two calls produces), while any
    number of concurrent checks against tables already built is
    serialisable: no interleaving faults, every one can run to its end,
    and all end in the state of the calls made one after another, in any
    order.  The proof carries a potential through every step: the flags
    each thread has still to set, applied to the current state, never
    change ([potential]). *)

From S2P Require Import Prelude CRuntime McdcState Matcher Alloc CoverageSpec Strncmp Protocol.

Local Open Scope Z_scope.
Local Open Scope cm_scope.

(** ** Threads *)

(** The program point and locals of one call in progress. *)
Inductive thread :=
| TRegister (conds : list bool)
| TRegCopy (this : mcdc_table_t) (conds : list bool)
| TRegLoad
| TRegStore (v : Z)
| TCheck (at_table : Z) (row : list bool)
| TCheckRow (this : mcdc_table_t) (row : list bool) (i : Z) (k : nat)
| TCheckMark (this : mcdc_table_t) (i : Z)
| TDone.

#[export] Instance thread_eq_dec : EqDecision thread.
Proof. solve_decision. Defined.

(** One atomic step of a thread: one access to the shared state. *)
Definition thread_step (t : thread) : cm pstate thread :=
  match t with
  | TRegister conds =>
      let* s := cget in
      let* this := ctx_get "mcdc_register_row" (u32 (ctx_len s - 1)) in
      cret (TRegCopy this conds)
  | TRegCopy this conds =>
      let* s := cget in
      let* src := arg_read "mcdc_register_row" conds (cols this) in
      on_libc (mem_write "mcdc_register_row" (table this) (u32 (m_nrows s * cols this)) src) ;;
      cret TRegLoad
  | TRegLoad => let* s := cget in cret (TRegStore (m_nrows s))
  | TRegStore v => cmodify (set_nrows (u32 (v + 1))) ;; cret TDone
  | TCheck at_table row =>
      let* this := ctx_get "mcdc_check_row" at_table in
      cret (TCheckRow this row 0 (Z.to_nat (rows this)))
  | TCheckRow this row i O => cret TDone
  | TCheckRow this row i (S k) =>
      let* expected := on_libc (mem_read "mcdc_check_row" (table this)
                                  (u32 (i * cols this)) (cols this)) in
      let* observed := arg_read "mcdc_check_row" row (cols this) in
      if decide (expected = observed) then cret (TCheckMark this i)
      else cret (TCheckRow this row (i + 1) k)
  | TCheckMark this i =>
      on_libc (mem_write "mcdc_check_row" (checks this) i [true]) ;; cret TDone
  | TDone => cret TDone
  end.

(** ** Interleavings *)

Definition config : Type := list thread * pstate.

(** Any unfinished thread takes its next step. *)
Inductive cstep : config -> config -> Prop :=
| cstep_thread ts s k t t' s' :
    ts !! k = Some t -> t <> TDone -> thread_step t s = Ret (t', s') ->
    cstep (ts, s) (<[k := t']> ts, s').

(** A schedule names the thread that moves at each step. *)
Fixpoint run_sched (sch : list nat) (c : config) : option config :=
  match sch with
  | [] => Some c
  | k :: sch' =>
      match c.1 !! k with
      | Some t =>
          if decide (t = TDone) then None
          else match thread_step t c.2 with
               | Ret (t', s') => run_sched sch' (<[k := t']> c.1, s')
               | Fault _ => None
               end
      | None => None
      end
  end.

Lemma run_sched_rtc sch c c' : run_sched sch c = Some c' -> rtc cstep c c'.
Proof.
  revert c. induction sch as [|k sch IH]; intros [ts s] H; simpl in H; [by injection H as <-|].
  destruct (ts !! k) as [t|] eqn:Ek; [| done]. case_decide; [done|].
  destruct (thread_step t s) as [[t' s']|] eqn:Es; [| done].
  eapply rtc_l; [by econstructor | by apply IH].
Qed.

(** The calls of a list of [MCDC_CHECK]s, as threads. *)
Definition check_thread (p : Z * list bool) : thread := TCheck p.1 p.2.

(** ** Flags *)

(** Setting flag [j] of the buffer [b], if there is one. *)
Definition set_flag (b : N) (j : nat) (s : pstate) : pstate :=
  match heap (libc_of s) !! b with
  | Some cb => heap_update b (<[j := true]> cb) s
  | None => s
  end.

Definition apply_flag (e : option (N * nat)) (s : pstate) : pstate :=
  match e with Some (b, j) => set_flag b j s | None => s end.

Definition apply_flags (es : list (option (N * nat))) (s : pstate) : pstate :=
  foldr apply_flag s es.

Lemma heap_update_twice b x b' y s :
  heap_update b x (heap_update b' y s) =
    set_libc (set_heap (<[b := x]> (<[b' := y]> (heap (libc_of s)))) (libc_of s)) s.
Proof. reflexivity. Qed.

Lemma heap_heap_update b x s : heap (libc_of (heap_update b x s)) = <[b := x]> (heap (libc_of s)).
Proof. reflexivity. Qed.

(** Setting two flags commutes: both set [true]. *)
Lemma set_flag_comm b j b' j' s : set_flag b j (set_flag b' j' s) = set_flag b' j' (set_flag b j s).
Proof.
  unfold set_flag. destruct (decide (b = b')) as [<-|Hne].
  - destruct (heap (libc_of s) !! b) as [cb|] eqn:E; [| by rewrite E].
    rewrite !heap_heap_update, !lookup_insert_eq, !heap_update_twice, !insert_insert_eq.
    destruct (decide (j = j')) as [<-|Hj]; [done|]. by rewrite list_insert_insert_ne.
  - destruct (heap (libc_of s) !! b) as [cb|] eqn:E, (heap (libc_of s) !! b') as [cb'|] eqn:E';
      rewrite ?heap_heap_update, ?lookup_insert_ne, ?E, ?E' by done; try done.
    rewrite !heap_update_twice. by rewrite insert_insert_ne.
Qed.

Lemma apply_flag_comm e e' s : apply_flag e (apply_flag e' s) = apply_flag e' (apply_flag e s).
Proof. destruct e as [[b j]|], e' as [[b' j']|]; simpl; auto using set_flag_comm. Qed.

Lemma apply_flags_apply_flag es e s : apply_flags es (apply_flag e s) = apply_flag e (apply_flags es s).
Proof. induction es as [|e' es IH]; [done|]. simpl. by rewrite IH, apply_flag_comm. Qed.

(** Performing the pending flag of thread [k] and forgetting it. *)
Lemma apply_flags_insert_None es k e s :
  es !! k = Some e -> apply_flags (<[k := None]> es) (apply_flag e s) = apply_flags es s.
Proof.
  revert k. induction es as [|e' es IH]; intros [|k] Hk; simpl in Hk; try done.
  - injection Hk as ->. simpl. apply apply_flags_apply_flag.
  - simpl. by rewrite IH.
Qed.

Lemma apply_flags_None es s : Forall (eq None) es -> apply_flags es s = s.
Proof. induction 1 as [|? ? <- _ IH]; simpl; [done | by rewrite IH]. Qed.

(** The order of the flags does not matter. *)
#[export] Instance apply_flags_perm : Proper ((≡ₚ) ==> eq ==> eq) apply_flags.
Proof.
  intros es es' Hp s ? <-. induction Hp as [| e es es' _ IH | e e' es | es es' es'' _ IH1 _ IH2];
    simpl; rewrite ?IH; try done.
  - apply apply_flag_comm.
  - by rewrite IH1.
Qed.

(** ** Concurrent registrations *)

(** The steps of a registration thread in a well-formed state. *)
Lemma reg_read_step s ts t r :
  wf s -> tables s = ts ++ [t] -> thread_step (TRegister r) s = Ret (TRegCopy t r, s).
Proof.
  intros Hwf Hts. simpl. rewrite cbind_cget. cbv beta.
  by rewrite (cbind_Ret _ _ _ _ _ (ctx_get_last "mcdc_register_row" s ts t Hwf Hts)).
Qed.

Lemma reg_copy_step s t tb r :
  heap (libc_of s) !! table t = Some tb -> 0 <= m_nrows s -> 0 <= cols t ->
  m_nrows s * cols t + cols t <= Z.of_nat (length tb) -> m_nrows s * cols t <= UINT_MAX ->
  length r = Z.to_nat (cols t) ->
  thread_step (TRegCopy t r) s =
    Ret (TRegLoad, heap_update (table t) (splice tb (Z.to_nat (m_nrows s * cols t)) r) s).
Proof.
  intros Htb Hk Hc Hroom Hov Hr. simpl. rewrite cbind_cget. cbv beta.
  rewrite (cbind_Ret _ _ _ _ _ (arg_read_spec (S := pstate) "mcdc_register_row" r (cols t) s ltac:(lia))).
  rewrite u32_small by (unfold is_u32; nia).
  rewrite (cbind_Ret _ _ _ _ _ (on_libc_Ret _ s _ _
             (mem_write_spec "mcdc_register_row" _ (m_nrows s * cols t) r _ tb Htb ltac:(nia) ltac:(lia)))).
  reflexivity.
Qed.

(** A thread moves in a configuration. *)
Lemma rtc_cstep_l ts s k t t' s' c :
  ts !! k = Some t -> t <> TDone -> thread_step t s = Ret (t', s') ->
  rtc cstep (<[k := t']> ts, s') c -> rtc cstep (ts, s) c.
Proof. intros Hk Hne Hs. apply rtc_l. by econstructor. Qed.

Section Race.
Context (s : pstate) (ts : list mcdc_table_t) (t : mcdc_table_t) (tb r1 r2 : list bool).
Hypothesis Hwf : wf s.
Hypothesis Hts : tables s = ts ++ [t].
Hypothesis Htb : heap (libc_of s) !! table t = Some tb.
Hypothesis Hk : 0 <= m_nrows s.
Hypothesis Hc : 0 <= cols t.
Hypothesis Hroom : m_nrows s * cols t + cols t <= Z.of_nat (length tb).
Hypothesis Hov : m_nrows s * cols t <= UINT_MAX.
Hypothesis Hr1 : length r1 = Z.to_nat (cols t).
Hypothesis Hr2 : length r2 = Z.to_nat (cols t).

Let off := Z.to_nat (m_nrows s * cols t).
Let s1 := heap_update (table t) (splice tb off r1) s.

(** After both copies at the same cursor only the second row remains. *)
Lemma race_second_copy :
  thread_step (TRegCopy t r2) s1 = Ret (TRegLoad, heap_update (table t) (splice tb off r2) s).
Proof.
  assert (Hl : length (splice tb off r1) = length tb) by (apply length_splice; unfold off; lia).
  rewrite (reg_copy_step s1 t (splice tb off r1) r2); try done; try lia.
  - unfold s1. rewrite heap_update_twice, insert_insert_eq, splice_splice by (cbn [m_nrows heap_update set_libc]; unfold off; lia). reflexivity.
  - unfold s1. by rewrite heap_heap_update, lookup_insert_eq.
  - simpl. rewrite Hl. lia.
Qed.

Lemma race_first_copy : thread_step (TRegCopy t r1) s = Ret (TRegLoad, s1).
Proof. by apply reg_copy_step. Qed.

(** Both threads read the table and copy at the cursor, the second over
    the first; then the two increments run one after the other. *)
Lemma race_lose_row :
  rtc cstep ([TRegister r1; TRegister r2], s)
    ([TDone; TDone], set_nrows (u32 (u32 (m_nrows s + 1) + 1)) (heap_update (table t) (splice tb off r2) s)).
Proof.
  eapply (rtc_cstep_l _ _ 0); [done | done | exact (reg_read_step s ts t r1 Hwf Hts) |]. simpl.
  eapply (rtc_cstep_l _ _ 1); [done | done | exact (reg_read_step s ts t r2 Hwf Hts) |]. simpl.
  eapply (rtc_cstep_l _ _ 0); [done | done | exact race_first_copy |]. simpl.
  eapply (rtc_cstep_l _ _ 1); [done | done | exact race_second_copy |]. simpl.
  eapply (rtc_cstep_l _ _ 0); [done | done | reflexivity |]. simpl.
  eapply (rtc_cstep_l _ _ 0); [done | done | reflexivity |]. simpl.
  eapply (rtc_cstep_l _ _ 1); [done | done | reflexivity |]. simpl.
  eapply (rtc_cstep_l _ _ 1); [done | done | reflexivity |]. simpl.
  apply rtc_refl.
Qed.

(** As above, but both threads load [m_nrows] before either stores. *)
Lemma race_lose_increment :
  rtc cstep ([TRegister r1; TRegister r2], s)
    ([TDone; TDone], set_nrows (u32 (m_nrows s + 1)) (heap_update (table t) (splice tb off r2) s)).
Proof.
  eapply (rtc_cstep_l _ _ 0); [done | done | exact (reg_read_step s ts t r1 Hwf Hts) |]. simpl.
  eapply (rtc_cstep_l _ _ 0); [done | done | exact race_first_copy |]. simpl.
  assert (Hwf1 : wf s1) by (apply (wf_heap_update s _ tb); [done | done | apply length_splice; unfold off; lia]).
  eapply (rtc_cstep_l _ _ 1); [done | done | exact (reg_read_step s1 ts t r2 Hwf1 ltac:(unfold s1; by rewrite tables_heap_update)) |]. simpl.
  eapply (rtc_cstep_l _ _ 1); [done | done | exact race_second_copy |]. simpl.
  eapply (rtc_cstep_l _ _ 0); [done | done | reflexivity |]. simpl.
  eapply (rtc_cstep_l _ _ 1); [done | done | reflexivity |]. simpl.
  eapply (rtc_cstep_l _ _ 0); [done | done | reflexivity |]. simpl.
  eapply (rtc_cstep_l _ _ 1); [done | done | reflexivity |]. simpl.
  apply rtc_refl.
Qed.
End Race.

Lemma a_register_cursor r a a' : a_register r a = inr a' -> a_cursor a' = S (a_cursor a).
Proof. unfold a_register. destruct (last _); [| done]. case_decide; [by intros [= <-] | done]. Qed.

Lemma a_registers_cursor rs a a' : a_registers rs a = inr a' -> a_cursor a' = (a_cursor a + length rs)%nat.
Proof.
  revert a. induction rs as [|r rs IH]; intros a H; simpl in H; [injection H as <-; simpl; lia|].
  destruct (a_register r a) as [|a1] eqn:E; [done|].
  rewrite (IH _ H), (a_register_cursor _ _ _ E). simpl. lia.
Qed.

(** C29: two concurrent [MCDC_REGISTER]s can lose a row.  From any
    reachable state whose last table has room for two more rows, the
    two calls of [r1] and [r2] made one after the other, in either
    order, register both rows and move the cursor by two; but some
    interleavings of their steps end as if only [r2] had been
    registered: the second [memcpy] lands on the row of the first, and
    the cursor moves by two, leaving a row behind, or even by one, when
    both threads load [m_nrows] before either stores it (section 5: the
    library is unsafe to call concurrently). *)
Theorem concurrent_register_race s a at' r1 r2 :
  reachable s -> abs s = Some a -> last (a_tables a) = Some at' -> (0 < a_cols at')%nat ->
  (a_cursor a + 2 <= a_rows at')%nat -> length r1 = a_cols at' -> length r2 = a_cols at' ->
  (forall rs, rs = [r1; r2] \/ rs = [r2; r1] ->
     exists s' a', register_rows rs s = Ret (tt, s') /\ a_registers rs a = inr a' /\
       abs s' = Some a' /\ a_cursor a' = (a_cursor a + 2)%nat) /\
  exists a2, a_register r2 a = inr a2 /\
    (exists s', rtc cstep ([TRegister r1; TRegister r2], s) ([TDone; TDone], s') /\
       abs s' = Some (mk_astate (a_tables a2) (a_cursor a + 2))) /\
    (exists s', rtc cstep ([TRegister r1; TRegister r2], s) ([TDone; TDone], s') /\
       abs s' = Some (mk_astate (a_tables a2) (a_cursor a + 1))).
Proof.
  intros Hr Ha Hl Hc Hroom H1 H2. pose proof (reachable_inv_step s Hr) as Hinv.
  destruct Hinv as (Hwf & Hno & Hcur) eqn:Einv.
  destruct (abs_last _ _ _ Ha Hl) as (ts & t & Hts & Habs & _).
  destruct (abs_table_Some _ _ _ Habs) as (tb & cb & Htb & Hcb & Hat). subst at'. simpl in *.
  pose proof (proj1 (abs_Some _ _ Ha)) as Hcura.
  pose proof (proj1 (proj2 Hwf)) as Hn. unfold is_u32 in Hn.
  pose proof (wf_table_wf s (length ts) t Hwf ltac:(rewrite Hts; by apply list_lookup_middle)) as Htw.
  destruct (table_wf_lengths _ _ _ _ Htw Htb Hcb) as [Hltb _]. destruct Htw as (Hrw & Hcw & _).
  assert (Hov : rows t * cols t <= UINT_MAX)
    by (apply (Forall_lookup_1 _ _ (length ts) _ Hno); rewrite Hts; by apply list_lookup_middle).
  unfold is_u32 in *. rewrite u32_small in Hltb by (unfold is_u32; nia).
  assert (Hk2 : m_nrows s + 2 <= rows t).
  { rewrite Hcura in Hroom. apply inj_le in Hroom. rewrite Nat2Z.inj_add, !Z2Nat.id in Hroom; lia. }
  split.
  - intros rs Hrs. destruct (register_rows_abs rs s a _ Hinv Ha Hl) as (s' & a' & Hrun & Hregs & Ha' & _);
      simpl; [lia | destruct Hrs as [-> | ->]; repeat constructor; lia | destruct Hrs as [-> | ->]; simpl; lia |].
    exists s', a'. split_and!; try done. rewrite (a_registers_cursor _ _ _ Hregs).
    destruct Hrs as [-> | ->]; simpl; lia.
  - destruct (a_register r2 a) as [e|a2] eqn:E.
    { exfalso. unfold a_register in E. rewrite Hl, decide_True in E by (simpl; lia). discriminate. }
    pose proof (register_row_abs s a r2 Hwf Ha Hno Hcur) as Hreg. rewrite E in Hreg.
    destruct Hreg as (sR & HrunR & HaR).
    { intros ts' t' Hts'. rewrite Hts in Hts'. apply app_inj_tail in Hts' as [_ <-]. lia. }
    rewrite (register_row_spec s ts t tb r2 Hwf Hts Htb) in HrunR by lia. injection HrunR as <-.
    exists a2. split; [done|]. split.
    + eexists. split; [apply (race_lose_row s ts t tb r1 r2); try done; nia |].
      rewrite (u32_small (m_nrows s + 1)), ?u32_small by (unfold is_u32; lia).
      change (set_nrows ?n (heap_update ?b ?x s)) with (set_nrows n (set_nrows (m_nrows s + 1) (heap_update b x s))).
      rewrite (abs_set_nrows _ _ _ HaR). f_equal. f_equal. lia.
    + eexists. split; [apply (race_lose_increment s ts t tb r1 r2); try done; nia |].
      rewrite (u32_small (m_nrows s + 1)), ?u32_small by (unfold is_u32; lia).
      change (set_nrows ?n (heap_update ?b ?x s)) with (set_nrows n (set_nrows (m_nrows s + 1) (heap_update b x s))).
      rewrite (abs_set_nrows _ _ _ HaR). f_equal. f_equal. lia.
Qed.

(** ** A thread alone is the call *)

Lemma ctx_get_state site i s t s1 : ctx_get site i s = Ret (t, s1) -> s1 = s.
Proof.
  unfold ctx_get. destruct (ctx_list s) as [l|]; [| done].
  destruct (l !! Z.to_nat i) as [[t'|]|]; [by intros [= _ <-] | done | done].
Qed.

(** Run alone, the four steps of a registration thread are
    [mcdc_register_row]: the decomposition adds no behaviour. *)
Lemma register_thread_alone conds s s' :
  mcdc_register_row conds s = Ret (tt, s') <->
  run_sched [0; 0; 0; 0]%nat ([TRegister conds], s) = Some ([TDone], s').
Proof.
  unfold mcdc_register_row, run_sched, thread_step, cbind, cget, cret, cmodify. cbn [lookup list_lookup fst snd].
  rewrite decide_False by done.
  destruct (ctx_get "mcdc_register_row" (u32 (ctx_len s - 1)) s) as [[this s1]|f] eqn:E1; [| done].
  apply ctx_get_state in E1 as ->. cbn. rewrite decide_False by done.
  destruct (arg_read "mcdc_register_row" conds (cols this) s) as [[src s2]|f] eqn:E2; [| done].
  unfold arg_read in E2. case_decide; [| done]. injection E2 as <- <-.
  destruct (on_libc _ s) as [[[] s3]|f]; cbn; [| done].
  rewrite !decide_False by done. split; [by intros [= <-] | by intros [= <-]].
Qed.

(** ** Concurrent checks *)

(** The buffers of the tables of a well-formed state are distinct. *)
Lemma table_ne_checks_in s t t' :
  wf s -> t ∈ tables s -> t' ∈ tables s -> table t' <> checks t.
Proof.
  intros Hwf Ht Ht'. apply list_elem_of_lookup_1 in Ht as [n Hn], Ht' as [n' Hn'].
  destruct (decide (n = n')) as [<-|Hne].
  - rewrite Hn in Hn'. injection Hn' as <-. exact (wf_table_ne_checks s n t Hwf Hn).
  - exact (proj1 (wf_blocks_disjoint s n n' t t' Hwf Hn Hn' Hne)).
Qed.

(** One thread's step in the list of pending flags: either nothing
    happens to the state and the thread's flag stays pending, or the
    flag is set and forgotten. *)
Lemma apply_flags_step es k e e' s1 s2 :
  es !! k = Some e -> ((s2 = s1 /\ e' = e) \/ (e' = None /\ s2 = apply_flag e s1)) ->
  apply_flags (<[k := e']> es) s2 = apply_flags es s1.
Proof. intros Hk [[-> ->] | [-> ->]]; [by rewrite list_insert_id | by apply apply_flags_insert_None]. Qed.

Lemma sum_list_with_insert {A} (f : A -> nat) (l : list A) k x y :
  l !! k = Some x -> (sum_list_with f (<[k := y]> l) + f x = sum_list_with f l + f y)%nat.
Proof.
  revert k. induction l as [|z l IH]; intros [|k] Hk; simpl in *; try done.
  - injection Hk as ->. lia.
  - specialize (IH k Hk). lia.
Qed.

Section Checks.
Context (s0 : pstate).

(** The expected matrix of a table of [s0]. *)
Definition matrix (t : mcdc_table_t) : list bool := default [] (heap (libc_of s0) !! table t).

(** The flag a scan of rows [i, i + k) of [this] for [row] sets. *)
Definition pending_scan (this : mcdc_table_t) (row : list bool) (i : Z) (k : nat) : option (N * nat) :=
  (fun j => (checks this, j)) <$> find_row (matrix this) (Z.to_nat (cols this)) row (Z.to_nat i) k.

(** The flag a check thread has still to set. *)
Definition pending (t : thread) : option (N * nat) :=
  match t with
  | TCheck at_table row =>
      match tables s0 !! Z.to_nat at_table with
      | Some this => pending_scan this row 0 (Z.to_nat (rows this))
      | None => None
      end
  | TCheckRow this row i k => pending_scan this row i k
  | TCheckMark this i => Some (checks this, Z.to_nat i)
  | _ => None
  end.

(** The program points a check thread can be at. *)
Definition thread_ok (t : thread) : Prop :=
  match t with
  | TCheck at_table row =>
      0 <= at_table /\
      exists this, tables s0 !! Z.to_nat at_table = Some this /\ length row = Z.to_nat (cols this)
  | TCheckRow this row i k =>
      this ∈ tables s0 /\ 0 <= i /\ (Z.to_nat i + k = Z.to_nat (rows this))%nat /\
      length row = Z.to_nat (cols this)
  | TCheckMark this i => this ∈ tables s0 /\ 0 <= i < rows this
  | TDone => True
  | _ => False
  end.

(** A bound on the steps a check thread has left. *)
Definition tmeasure (t : thread) : nat :=
  match t with
  | TCheck at_table _ =>
      match tables s0 !! Z.to_nat at_table with Some this => Z.to_nat (rows this) + 3 | None => 0 end
  | TCheckRow _ _ _ k => k + 2
  | TCheckMark _ _ => 1
  | _ => 0
  end.

(** [s1] is [s0] with some flags set: only the heap differs, the
    matrices do not, and no buffer changes length. *)
Definition flagged (s1 : pstate) : Prop :=
  exists h, s1 = set_libc (set_heap h (libc_of s0)) s0 /\
    (forall t, t ∈ tables s0 -> h !! table t = heap (libc_of s0) !! table t) /\
    (forall b, length <$> h !! b = length <$> heap (libc_of s0) !! b).

(** The invariant of a configuration, and its potential: the state with
    the flags every thread has still to set. *)
Definition cinv (c : config) : Prop := flagged c.2 /\ Forall thread_ok c.1.
Definition potential (c : config) : pstate := apply_flags (pending <$> c.1) c.2.

Hypothesis Hinv : inv s0.

Lemma flagged_refl : flagged s0.
Proof. exists (heap (libc_of s0)). split_and!; [by destruct s0 as [[]] | done | done]. Qed.

Lemma flagged_tables s1 : flagged s1 -> tables s1 = tables s0.
Proof. by intros (h & -> & _). Qed.

Lemma flagged_wf s1 : flagged s1 -> wf s1.
Proof.
  intros (h & -> & _ & Hlen). destruct Hinv as ((Hfresh & Hn & Hl & Hsh & Htw & Hnd & Hlt) & _ & _).
  split_and!; try done.
  - intros b x Hb. simpl in Hb. pose proof (Hlen b) as Hb'. rewrite Hb in Hb'.
    destruct (heap (libc_of s0) !! b) as [y|] eqn:E; [exact (Hfresh b y E) | done].
  - eapply Forall_impl; [exact Htw|]. intros t (? & ? & ? & ?). unfold table_wf. simpl. by rewrite !Hlen.
Qed.

(** What a table of [s0] is made of. *)
Lemma table_facts t :
  t ∈ tables s0 ->
  heap (libc_of s0) !! table t = Some (matrix t) /\ length (matrix t) = Z.to_nat (rows t * cols t) /\
  table t <> checks t /\ 0 <= rows t /\ 0 <= cols t /\ rows t * cols t <= UINT_MAX /\
  exists cb, heap (libc_of s0) !! checks t = Some cb /\ length cb = Z.to_nat (rows t).
Proof.
  intros Ht. destruct Hinv as (Hwf & Hno & _).
  pose proof (proj1 (Forall_forall _ _) (proj1 (proj2 (proj2 (proj2 (proj2 Hwf))))) t Ht) as (Hr & Hc & Htb & Hcb).
  pose proof (proj1 (Forall_forall _ _) Hno t Ht) as Hov. cbv beta in Hov.
  unfold is_u32 in *. rewrite u32_small in Htb by (unfold is_u32; nia).
  unfold matrix. destruct (heap (libc_of s0) !! table t) as [tb|]; [| done].
  destruct (heap (libc_of s0) !! checks t) as [cb|]; [| done]. simpl in *.
  injection Htb as Htb. injection Hcb as Hcb. split_and!; eauto; [| lia | lia].
  apply (table_ne_checks_in s0); [exact Hwf | done | done].
Qed.
Lemma flagged_matrix s1 t :
  flagged s1 -> t ∈ tables s0 -> heap (libc_of s1) !! table t = Some (matrix t).
Proof. intros (h & -> & Htb & _) Ht. simpl. rewrite Htb by done. apply (table_facts t Ht). Qed.

Lemma flagged_checks s1 t :
  flagged s1 -> t ∈ tables s0 ->
  exists cb, heap (libc_of s1) !! checks t = Some cb /\ length cb = Z.to_nat (rows t).
Proof.
  intros (h & -> & _ & Hlen) Ht. destruct (table_facts t Ht) as (_ & _ & _ & _ & _ & _ & cb & Hcb & Hl).
  simpl. pose proof (Hlen (checks t)) as H. rewrite Hcb in H.
  destruct (h !! checks t) as [cb'|]; [| done]. injection H as H. exists cb'. split; [done | lia].
Qed.

Lemma flagged_set_flag s1 t j :
  flagged s1 -> t ∈ tables s0 -> flagged (set_flag (checks t) j s1).
Proof.
  intros (h & -> & Htb & Hlen) Ht. unfold set_flag. simpl. destruct (h !! checks t) as [cb|] eqn:E.
  - exists (<[checks t := <[j := true]> cb]> h). split_and!; [reflexivity | |].
    + intros t' Ht'. rewrite lookup_insert_ne by (intros H; exact (table_ne_checks_in s0 t t' (proj1 Hinv) Ht Ht' (eq_sym H))).
      by apply Htb.
    + intros b. destruct (decide (b = checks t)) as [->|Hb].
      * rewrite lookup_insert_eq, <- Hlen, E. simpl. by rewrite length_insert.
      * rewrite lookup_insert_ne by done. apply Hlen.
  - exists h. split_and!; done.
Qed.

(** The flag a thread has pending belongs to a table of [s0]. *)
Lemma pending_checks t b j :
  thread_ok t -> pending t = Some (b, j) -> exists this, this ∈ tables s0 /\ b = checks this.
Proof.
  destruct t as [| | | | at_table row | this row i k | this i |]; simpl; try done.
  - intros (_ & this & Hthis & _). rewrite Hthis. unfold pending_scan.
    destruct (find_row _ _ _ _ _); simpl; [| done]. intros [= <- _].
    exists this. split; [by eapply list_elem_of_lookup_2 | done].
  - intros (Hthis & _). unfold pending_scan. destruct (find_row _ _ _ _ _); simpl; [| done].
    intros [= <- _]. by exists this.
  - intros (Hthis & _) [= <- _]. by exists this.
Qed.

Lemma flagged_apply_pending t s1 : thread_ok t -> flagged s1 -> flagged (apply_flag (pending t) s1).
Proof.
  intros Hok Hfl. destruct (pending t) as [[b j]|] eqn:E; [| done].
  destruct (pending_checks t b j Hok E) as (this & Hthis & ->). by apply flagged_set_flag.
Qed.

(** One step of a check thread: it never faults, it keeps the thread's
    invariant, and it either leaves the state and the pending flag alone
    or sets the pending flag. *)
Lemma check_thread_step t s1 :
  flagged s1 -> thread_ok t -> t <> TDone ->
  exists t' s2, thread_step t s1 = Ret (t', s2) /\ thread_ok t' /\ flagged s2 /\
    (tmeasure t' < tmeasure t)%nat /\
    ((s2 = s1 /\ pending t' = pending t) \/ (pending t' = None /\ s2 = apply_flag (pending t) s1)).
Proof.
  intros Hfl Hok Hne. pose proof (flagged_wf s1 Hfl) as Hwf1. pose proof (flagged_tables s1 Hfl) as Hts.
  destruct t as [| | | | at_table row | this row i [|k] | this i |]; try done.
  - destruct Hok as (Hat & this & Hthis & Hrow).
    exists (TCheckRow this row 0 (Z.to_nat (rows this))), s1. simpl.
    rewrite (cbind_Ret _ _ _ _ _ (ctx_get_table _ s1 at_table this Hwf1 ltac:(by rewrite Hts))).
    rewrite Hthis. split_and!; [done | by eapply list_elem_of_lookup_2 | lia | simpl; lia | done | done | simpl; lia | by left].
  - exists TDone, s1. split_and!; [done | done | done | simpl; lia | by left].
  - destruct Hok as (Hthis & Hi & Hik & Hrow).
    destruct (table_facts this Hthis) as (_ & Htbl & Hne' & Hr & Hc & Hov & cb & _ & Hcbl).
    pose proof (check_row_read s1 this (matrix this) cb row (flagged_matrix s1 this Hfl Hthis)
                  Hne' Hr Hc Hov Htbl Hcbl Hrow (Z.to_nat i) ltac:(lia)) as Hread.
    rewrite Z2Nat.id in Hread by lia. simpl.
    rewrite (cbind_Ret _ _ _ _ _ Hread), (cbind_Ret _ _ _ _ _ (arg_read_spec _ row (cols this) s1 ltac:(lia))).
    unfold pending_scan. simpl.
    destruct (decide (row_of (matrix this) (Z.to_nat (cols this)) (Z.to_nat i) = row)) as [Heq|Heq].
    + exists (TCheckMark this i), s1. cbn [thread_ok].
      split_and!; [done | done | lia | lia | done | simpl; lia | by left].
    + exists (TCheckRow this row (i + 1) k), s1. cbn [thread_ok].
      split_and!; [done | done | lia | lia | done | done | simpl; lia |].
      left. split; [done|]. cbn [pending]. unfold pending_scan.
      by replace (Z.to_nat (i + 1)) with (S (Z.to_nat i)) by lia.
  - destruct Hok as (Hthis & Hi). destruct (flagged_checks s1 this Hfl Hthis) as (cb & Hcb & Hcbl).
    exists TDone, (set_flag (checks this) (Z.to_nat i) s1). simpl.
    rewrite (cbind_Ret _ _ _ _ _ (on_libc_Ret _ _ _ _
               (mem_write_spec _ _ i [true] _ cb Hcb ltac:(lia) ltac:(simpl; lia)))).
    split_and!; [| done | by apply flagged_set_flag | lia | by right].
    unfold set_flag. rewrite Hcb, splice_singleton by lia. reflexivity.
Qed.

(** Every step keeps the invariant and the potential. *)
Lemma cstep_potential c c' : cstep c c' -> cinv c -> cinv c' /\ potential c' = potential c.
Proof.
  intros [ts s1 k t t' s2 Hk Hne Hstep] [Hfl Hok].
  destruct (check_thread_step t s1 Hfl (Forall_lookup_1 _ _ _ _ Hok Hk) Hne)
    as (t'' & s2' & Hrun & Hok' & Hfl' & _ & Heff).
  rewrite Hrun in Hstep. injection Hstep as <- <-.
  split; [split; [done | by apply Forall_insert] |].
  unfold potential. simpl. rewrite list_fmap_insert.
  apply (apply_flags_step _ k (pending t)); [by rewrite list_lookup_fmap, Hk | done].
Qed.

Lemma rtc_potential c c' : rtc cstep c c' -> cinv c -> cinv c' /\ potential c' = potential c.
Proof.
  induction 1 as [c | c1 c2 c3 H12 _ IH]; [done|]. intros Hc1.
  destruct (cstep_potential c1 c2 H12 Hc1) as [Hc2 Hp2]. destruct (IH Hc2). split; [done | congruence].
Qed.

(** From every configuration of check threads, the threads can run to
    their end: each step lowers the sum of the threads' bounds. *)
Lemma cinv_complete n ts s1 :
  (sum_list_with tmeasure ts <= n)%nat -> cinv (ts, s1) ->
  exists ts' s', rtc cstep (ts, s1) (ts', s') /\ Forall (eq TDone) ts'.
Proof.
  revert ts s1. induction n as [|n IH]; intros ts s1 Hn [Hfl Hok];
    (destruct (decide (Forall (eq TDone) ts)) as [Hd|Hd]; [by exists ts, s1|]);
    destruct (proj1 (Exists_exists _ _) (not_Forall_Exists _ _ Hd)) as (t & Ht & Hne);
    apply list_elem_of_lookup_1 in Ht as [k Hk];
    destruct (check_thread_step t s1 Hfl (Forall_lookup_1 _ _ _ _ Hok Hk) (fun H => Hne (eq_sym H)))
      as (t' & s2 & Hrun & Hok' & Hfl' & Hlt & _);
    pose proof (sum_list_with_insert tmeasure ts k t t' Hk); [lia|].
  destruct (IH (<[k := t']> ts) s2) as (ts' & s' & Hrtc & Hdone); [lia | split; [done | by apply Forall_insert] |].
  exists ts', s'. split; [| done]. eapply rtc_l; [| exact Hrtc].
  econstructor; [exact Hk | exact (fun H => Hne (eq_sym H)) | exact Hrun].
Qed.

(** ** The calls made one after another *)

Lemma flagged_check_row s1 at_table row :
  flagged s1 -> thread_ok (TCheck at_table row) ->
  mcdc_check_row at_table row s1 = Ret (tt, apply_flag (pending (TCheck at_table row)) s1).
Proof.
  intros Hfl (Hat & this & Hthis & Hrow).
  assert (Hin : this ∈ tables s0) by (by eapply list_elem_of_lookup_2).
  destruct (table_facts this Hin) as (_ & _ & _ & _ & _ & Hov & _).
  destruct (flagged_checks s1 this Hfl Hin) as (cb & Hcb & _).
  rewrite <- (Z2Nat.id at_table) by done.
  rewrite (mcdc_check_row_find s1 (Z.to_nat at_table) this (matrix this) cb row (flagged_wf s1 Hfl)
             ltac:(by rewrite (flagged_tables s1 Hfl)) Hov (flagged_matrix s1 this Hfl Hin) Hcb Hrow).
  simpl. rewrite Nat2Z.id, Hthis. unfold pending_scan. simpl.
  destruct (find_row _ _ _ _ _) as [j|]; simpl; [| done].
  unfold set_flag. by rewrite Hcb.
Qed.

Lemma flagged_run_probes cs s1 :
  flagged s1 -> Forall (fun p => thread_ok (check_thread p)) cs ->
  @run_probes pstate _ cs s1 = Ret (tt, apply_flags (pending <$> (check_thread <$> cs)) s1).
Proof.
  revert s1. induction cs as [|[at_table row] cs IH]; intros s1 Hfl Hok; [done|].
  apply Forall_cons in Hok as [Hok1 Hok]. simpl.
  change (probe at_table row) with (mcdc_check_row at_table row).
  rewrite (cbind_Ret _ _ _ _ _ (flagged_check_row s1 at_table row Hfl Hok1)).
  rewrite IH; [by rewrite apply_flags_apply_flag | by apply flagged_apply_pending | done].
Qed.
End Checks.

(** A check the specification accepts is a check thread that can run. *)
Lemma fits_thread_ok s a p : abs s = Some a -> probe_fits a p -> thread_ok s (check_thread p).
Proof.
  intros Ha [Hp Hsh]. unfold shape in Hsh. rewrite list_lookup_fmap in Hsh.
  destruct (a_tables a !! Z.to_nat p.1) as [at'|] eqn:E; [| done]. injection Hsh as Hsh.
  destruct (Forall2_lookup_r _ _ _ _ _ (proj2 (abs_Some _ _ Ha)) E) as (t & Ht & Habs).
  destruct (abs_table_Some _ _ _ Habs) as (? & ? & _ & _ & ->). simpl in Hsh.
  split; [done|]. exists t. split; [done | lia].
Qed.

(** C40: concurrent [MCDC_CHECK]s are serialisable.  From a reachable
    state, let any number of threads each make one check against a
    table it fits, their steps interleaved in any way: no step of any
    thread faults, every configuration reached can still run every
    thread to its end, and every complete run ends in the very state
    that the same checks made one after another produce, in any order
    (a check only reads the matrices and the context, and only sets a
    flag to [true]). *)
Theorem concurrent_checks_serializable s a cs :
  reachable s -> abs s = Some a -> Forall (probe_fits a) cs ->
  (forall ts s1, rtc cstep (check_thread <$> cs, s) (ts, s1) ->
     (forall k t, ts !! k = Some t -> t <> TDone -> exists t' s2, thread_step t s1 = Ret (t', s2)) /\
     exists ts' s', rtc cstep (ts, s1) (ts', s') /\ Forall (eq TDone) ts') /\
  (forall ts' s', rtc cstep (check_thread <$> cs, s) (ts', s') -> Forall (eq TDone) ts' ->
     forall cs', cs' ≡ₚ cs -> @run_probes pstate _ cs' s = Ret (tt, s')).
Proof.
  intros Hr Ha Hfit. pose proof (reachable_inv_step s Hr) as Hinv.
  assert (Hok : Forall (fun p => thread_ok s (check_thread p)) cs)
    by (eapply Forall_impl; [exact Hfit | intros p; apply (fits_thread_ok s a p Ha)]).
  assert (Hc0 : cinv s (check_thread <$> cs, s)) by (split; simpl; [exact (flagged_refl s Hinv) | apply Forall_fmap; exact Hok]).
  split.
  - intros ts s1 Hrtc. destruct (rtc_potential s Hinv _ _ Hrtc Hc0) as [[Hfl Hoks] _]. split.
    + intros k t Hk Hne.
      destruct (check_thread_step s Hinv t s1 Hfl (Forall_lookup_1 _ _ _ _ Hoks Hk) Hne) as (t' & s2 & Hrun & _).
      eauto.
    + apply (cinv_complete s Hinv (sum_list_with (tmeasure s) ts)); [lia | by split].
  - intros ts' s' Hrtc Hdone cs' Hp.
    destruct (rtc_potential s Hinv _ _ Hrtc Hc0) as [_ Hpot]. unfold potential in Hpot. simpl in Hpot.
    rewrite apply_flags_None in Hpot.
    2: { apply Forall_fmap. eapply Forall_impl; [exact Hdone|]. intros t <-. reflexivity. }
    rewrite (flagged_run_probes s Hinv cs' s (flagged_refl s Hinv)); [| by rewrite Hp].
    by rewrite Hp, Hpot.
Qed.

(** Three threads check vectors of the harness's two tables. *)
Definition demo_checks : list (Z * list bool) :=
  [(0, [true; true; true]); (1, [true]); (0, [false; true; true])].

Lemma concurrent_checks_serializable_witness :
  reachable harness_setup /\ abs harness_setup = Some (abs_of harness_setup) /\
  Forall (probe_fits (abs_of harness_setup)) demo_checks /\
  (forall ts s1, rtc cstep (check_thread <$> demo_checks, harness_setup) (ts, s1) ->
     (forall k t, ts !! k = Some t -> t <> TDone -> exists t' s2, thread_step t s1 = Ret (t', s2)) /\
     exists ts' s', rtc cstep (ts, s1) (ts', s') /\ Forall (eq TDone) ts') /\
  (forall ts' s', rtc cstep (check_thread <$> demo_checks, harness_setup) (ts', s') -> Forall (eq TDone) ts' ->
     forall cs', cs' ≡ₚ demo_checks -> @run_probes pstate _ cs' harness_setup = Ret (tt, s')).
Proof.
  assert (Ha : abs harness_setup = Some (abs_of harness_setup)) by (vm_compute; reflexivity).
  assert (Hf : Forall (probe_fits (abs_of harness_setup)) demo_checks)
    by (repeat (constructor; [split; [simpl; lia | vm_compute; reflexivity] |]); constructor).
  split_and!; [exact harness_setup_reachable | exact Ha | exact Hf | ..];
    apply (concurrent_checks_serializable _ _ _ harness_setup_reachable Ha Hf).
Defined.

(** A 2 x 2 table, just allocated. *)
Definition race_start : pstate := run_calls [CallAlloc 2 2 "race"] (pstate_init []).

Lemma concurrent_register_race_witness :
  let a := abs_of race_start in
  let at' := table_of race_start 0 in
  reachable race_start /\ abs race_start = Some a /\ last (a_tables a) = Some at' /\ (0 < a_cols at')%nat /\
  (a_cursor a + 2 <= a_rows at')%nat /\ length [true; false] = a_cols at' /\ length [false; true] = a_cols at' /\
  (forall rs, rs = [[true; false]; [false; true]] \/ rs = [[false; true]; [true; false]] ->
     exists s' a', register_rows rs race_start = Ret (tt, s') /\ a_registers rs a = inr a' /\
       abs s' = Some a' /\ a_cursor a' = (a_cursor a + 2)%nat) /\
  exists a2, a_register [false; true] a = inr a2 /\
    (exists s', rtc cstep ([TRegister [true; false]; TRegister [false; true]], race_start) ([TDone; TDone], s') /\
       abs s' = Some (mk_astate (a_tables a2) (a_cursor a + 2))) /\
    (exists s', rtc cstep ([TRegister [true; false]; TRegister [false; true]], race_start) ([TDone; TDone], s') /\
       abs s' = Some (mk_astate (a_tables a2) (a_cursor a + 1))).
Proof.
  intros a at'.
  assert (Hr : reachable race_start) by (apply reachable_run_calls; [constructor | vm_compute; reflexivity]).
  assert (Ha : abs race_start = Some a) by (vm_compute; reflexivity).
  assert (Hl : last (a_tables a) = Some at') by (vm_compute; reflexivity).
  assert (Hc : (0 < a_cols at')%nat) by (vm_compute; lia).
  assert (Hroom : (a_cursor a + 2 <= a_rows at')%nat) by (vm_compute; lia).
  assert (H1 : length [true; false] = a_cols at') by (vm_compute; reflexivity).
  assert (H2 : length [false; true] = a_cols at') by (vm_compute; reflexivity).
  split_and!; [exact Hr | exact Ha | exact Hl | exact Hc | exact Hroom | exact H1 | exact H2 | ..];
    apply (concurrent_register_race race_start a at' _ _ Hr Ha Hl Hc Hroom H1 H2).
Defined.
