(* ===== verification/Harness.v ===== *)
(** * The sample harness and the scenarios of the specification

    [test_strncmp] and [main] of src/test/strncmp.c (lines 42-97): two
    tables are allocated and registered, [spt_strncmp] runs on four test
    cases with the library's probe, and [main] prints the report.  Under
    every allocation plan, [main] returns 0 with its exact standard
    output when its six allocation requests succeed and faults
    otherwise; the test loop [run_tests] is proved, for any list of cases
    with C strings, to count the passing cases, print the failure lines
    and record the specification's checks of the cases' traces. *)

From S2P Require Import Prelude CRuntime McdcState Matcher Alloc CoverageSpec Report Strncmp Protocol.
From Stdlib Require Import Ascii.

Local Open Scope Z_scope.
Local Open Scope cm_scope.

(** ** The harness *)

(** [struct test] of lines 53-59. *)
Record test := mk_test {
  t_str1 : list Z;
  t_str2 : list Z;
  t_n : Z;
  t_expected : Z
}.

(** The character code of a one-character literal. *)
Definition chr (s : string) : Z := match chars s with c :: _ => c | [] => 0 end.

(** The table of lines 61-67; ["ap\0les"] is the array of its seven
    characters, the NUL inside included. *)
Definition tests : list test :=
  [mk_test (c_lit "apple") (c_lit "applee") 5 0;
   mk_test (c_lit "apples") (c_lit "applee") 4 0;
   mk_test (chars "ap" ++ [0] ++ c_lit "les") (chars "ap" ++ [0] ++ c_lit "lee") 5 0;
   mk_test (c_lit "hellos") (c_lit "hellx") 5 (chr "o" - chr "x")].

(** The double quote of the failure message. *)
Definition dq : string := String (ascii_of_nat 34) EmptyString.

(** The [printf] of lines 91-92. *)
Definition failure_line (i : Z) (t : test) (result : Z) : string :=
  "Test " +:+ fmt_d (i + 1) +:+ " failed: strncmp(" +:+ dq +:+ cstr_text (t_str1 t) +:+ dq +:+
  ", " +:+ dq +:+ cstr_text (t_str2 t) +:+ dq +:+ ", " +:+ fmt_u (t_n t) +:+ ") = " +:+
  fmt_d result +:+ ", expected " +:+ fmt_d (t_expected t) +:+ nl.

(** The loop of lines 81-94 over the test cases from index [i]. *)
Fixpoint run_tests (i : Z) (ts : list test) (num_pass : Z) : cm pstate Z :=
  match ts with
  | [] => cret num_pass
  | t :: ts' =>
      let* result := spt_strncmp (Some (t_str1 t)) (Some (t_str2 t)) (t_n t) in
      if decide (result = t_expected t) then run_tests (i + 1) ts' (num_pass + 1)
      else on_libc (put_stdout (failure_line i t result)) ;; run_tests (i + 1) ts' num_pass
  end.

Definition decision_name : string := "i < n && str1[i] != \0 && str1[i] == str2[i]".

(** [test_strncmp] (lines 51-97). *)
Definition test_strncmp : cm pstate unit :=
  mcdc_alloc_table 4 3 decision_name ;;
  MCDC_REGISTER [false; true; true] ;;
  MCDC_REGISTER [true; false; true] ;;
  MCDC_REGISTER [true; true; false] ;;
  MCDC_REGISTER [true; true; true] ;;
  mcdc_alloc_table 2 1 "i == n" ;;
  MCDC_REGISTER [false] ;;
  MCDC_REGISTER [true] ;;
  let* num_pass := run_tests 0 tests 0 in
  if decide (num_pass = Z.of_nat (length tests))
  then on_libc (put_stdout ("All test passed" +:+ nl))
  else cret tt.

(** [main] (lines 42-49). *)
Definition main : cm pstate Z :=
  test_strncmp ;;
  mcdc_check_mcdc ;;
  cret 0.

(** ** The test loop, in general *)

(** A test case the loop can run: two C strings and a length. *)
Definition test_ok (t : test) : Prop := is_cstr (t_str1 t) /\ is_cstr (t_str2 t) /\ 0 <= t_n t.

#[export] Instance test_ok_dec t : Decision (test_ok t).
Proof. unfold test_ok. apply _. Defined.

(** The probes of the whole loop: the traces of the cases, in order. *)
Definition tests_trace (ts : list test) : list (Z * list bool) :=
  ts ≫= (fun t => strncmp_trace (t_str1 t) (t_str2 t) (t_n t)).

Definition test_passes (t : test) : Prop := strncmp_result (t_str1 t) (t_str2 t) (t_n t) = t_expected t.

(** The number of cases whose result is the expected one. *)
Definition tests_passed (ts : list test) : Z := Z.of_nat (length (filter test_passes ts)).

(** The failure lines the loop prints, from case number [i]. *)
Fixpoint tests_output (i : Z) (ts : list test) : string :=
  match ts with
  | [] => EmptyString
  | t :: ts' =>
      (if decide (test_passes t) then EmptyString
       else failure_line i t (strncmp_result (t_str1 t) (t_str2 t) (t_n t))) +:+
      tests_output (i + 1) ts'
  end.

Lemma a_probes_app l1 l2 a :
  a_probes (l1 ++ l2) a = match a_probes l1 a with inr a' => a_probes l2 a' | inl e => inl e end.
Proof.
  revert a. induction l1 as [|[t v] l1 IH]; intros a; [done|]. simpl.
  destruct (a_check _ _ _); [done | apply IH].
Qed.

Lemma a_probes_shape tr a a' : a_probes tr a = inr a' -> shape a' = shape a.
Proof.
  revert a. induction tr as [|[t v] tr IH]; intros a H; simpl in H; [by injection H as <-|].
  destruct (a_check _ _ _) as [|a1] eqn:E; [done|].
  rewrite (IH _ H). exact (a_check_shape _ _ _ _ E).
Qed.

Lemma inv_print str s : inv s -> inv (print str s).
Proof. done. Qed.

(** C37: the test loop of [test_strncmp] composed with the instrumented
    comparison and the library.  From any state of the invariant whose
    tables 0 and 1 have the harness's shapes, [run_tests] over any list
    of cases with C strings runs to its end, returns the number of cases
    whose result is the expected one, prints exactly the failure line of
    every other case, and moves the abstract coverage state exactly as
    the specification's checks of the traces of all the cases, in
    order, do (section 8: the checked set is determined by the traces). *)
Theorem run_tests_coverage i ts np s a :
  inv s -> abs s = Some a -> shape a !! 0%nat = Some 3%nat -> shape a !! 1%nat = Some 1%nat ->
  Forall test_ok ts ->
  exists s' a', run_tests i ts np s = Ret (np + tests_passed ts, s') /\
    stdout (libc_of s') = stdout (libc_of s) +:+ tests_output i ts /\
    a_probes (tests_trace ts) a = inr a' /\ abs s' = Some a' /\ inv s'.
Proof.
  revert i np s a. induction ts as [|t ts IH]; intros i np s a Hinv Ha H0 H1 Hok.
  { exists s, a. split_and!; [unfold tests_passed; simpl; by rewrite Z.add_0_r | simpl; by rewrite string_app_nil_r | done | done | done]. }
  apply Forall_cons in Hok as [(Hs1 & Hs2 & Hn) Hok].
  destruct (strncmp_coverage_inv s a _ _ _ Hinv Ha H0 H1 Hs1 Hs2 Hn)
    as (s1 & a1 & Hspt & _ & Hp1 & Ha1 & Hinv1 & Hout1).
  rewrite <- (a_probes_shape _ _ _ Hp1) in H0, H1.
  replace (tests_trace (t :: ts)) with (strncmp_trace (t_str1 t) (t_str2 t) (t_n t) ++ tests_trace ts)
    by reflexivity.
  rewrite a_probes_app, Hp1.
  cbn [run_tests]. rewrite (cbind_Ret _ _ _ _ _ Hspt). unfold tests_passed. simpl.
  destruct (decide (strncmp_result (t_str1 t) (t_str2 t) (t_n t) = t_expected t)) as [Hpass|Hfail].
  - destruct (IH (i + 1) (np + 1) s1 a1 Hinv1 Ha1 H0 H1 Hok) as (s' & a' & Hrun & Hout & Hp & Ha' & Hinv').
    exists s', a'. rewrite decide_True by done. split_and!; try done.
    + rewrite Hrun. unfold tests_passed. rewrite filter_cons_True by done. simpl length. do 2 f_equal. lia.
    + by rewrite Hout, Hout1.
  - rewrite (cbind_Ret _ _ _ _ _ (on_libc_Ret _ s1 _ _ (put_stdout_spec _ _))).
    fold (print (failure_line i t (strncmp_result (t_str1 t) (t_str2 t) (t_n t))) s1).
    destruct (IH (i + 1) np (print (failure_line i t (strncmp_result (t_str1 t) (t_str2 t) (t_n t))) s1) a1 (inv_print (failure_line i t (strncmp_result (t_str1 t) (t_str2 t) (t_n t))) _ Hinv1) ltac:(by rewrite abs_print) H0 H1 Hok)
      as (s' & a' & Hrun & Hout & Hp & Ha' & Hinv').
    exists s', a'. rewrite decide_False by done. split_and!; try done.
    + rewrite Hrun. unfold tests_passed. by rewrite filter_cons_False.
    + rewrite Hout. simpl. by rewrite Hout1, string_app_assoc.
Qed.

(** ** The program's output *)

Definition main_stdout : string :=
"All test passed
====================================================
 MC/DC 4 x 4                                    PASS
- - - - - - - - - - - - - - - - - - - - - - - - - -
 i < n && str1[i] != \0 && str1[i] == str2[i]
====================================================
 Test No. 1 | F T T | Checked
 Test No. 2 | T F T | Checked
 Test No. 3 | T T F | Checked
 Test No. 4 | T T T | Checked
====================================================
 MC/DC 2 x 2                                    PASS
- - - - - - - - - - - - - - - - - - - - - - - - - -
 i == n
====================================================
 Test No. 1 | F | Checked
 Test No. 2 | T | Checked
".

(** The outcome of [main] under the allocation plan [p]: it returns 0
    with its full output when the six allocations it makes succeed, and
    faults otherwise. *)
Definition main_plan_outcome (p : list bool) : Prop :=
  match main (pstate_init p) with
  | Ret (r, s') =>
      bool_decide (allocs_succeed 6 (libc_of (pstate_init p))) = true /\ r = 0 /\
      stdout (libc_of s') = main_stdout /\ stderr (libc_of s') = EmptyString /\
      wild (libc_of s') = [memset_msg]
  | Fault _ => bool_decide (allocs_succeed 6 (libc_of (pstate_init p))) = false
  end.

(** [main] makes two allocations of three requests each (flags, matrix,
    context array) and nothing after them reads the plan, so its outcome
    is decided by the first six outcomes: the cases are every plan of
    fewer than six outcomes and every six-outcome prefix of a longer one. *)
Lemma main_plan_outcome_all p : main_plan_outcome p.
Proof. do 6 (try destruct p as [|[] p]); vm_compute; repeat split. Qed.

(** C13: [main] under every allocation plan: when the six allocation
    requests of [test_strncmp] succeed it returns 0 after printing that
    all four tests passed and a report in which both tables pass with
    every row checked, prints nothing on standard error, and its second
    allocation writes past the context array; when any of them fails,
    the program faults (the harness never tests for failure: the next
    [MCDC_REGISTER] or [MCDC_CHECK] reaches a missing table or the NULL
    context array). *)
Theorem main_allocation_plans p :
  (allocs_succeed 6 (libc_of (pstate_init p)) ->
     exists s', main (pstate_init p) = Ret (0, s') /\ stdout (libc_of s') = main_stdout /\
       stderr (libc_of s') = EmptyString /\ wild (libc_of s') = [memset_msg]) /\
  (~ allocs_succeed 6 (libc_of (pstate_init p)) -> exists f, main (pstate_init p) = Fault f).
Proof.
  pose proof (main_plan_outcome_all p) as H. unfold main_plan_outcome in H.
  destruct (main (pstate_init p)) as [[r s']|f].
  - rewrite bool_decide_eq_true in H. destruct H as (Hok & -> & H).
    split; [intros _; by exists s' | done].
  - rewrite bool_decide_eq_false in H. split; [done | by exists f].
Qed.


(** The table of [test_strncmp] with a fifth case whose expected value is
    wrong, so that the loop takes both of its branches. *)
Definition tests_with_failure : list test := tests ++ [mk_test (c_lit "abc") (c_lit "abd") 3 0].

Lemma run_tests_coverage_witness :
  inv harness_setup /\ abs harness_setup = Some (abs_of harness_setup) /\
  shape (abs_of harness_setup) !! 0%nat = Some 3%nat /\ shape (abs_of harness_setup) !! 1%nat = Some 1%nat /\
  Forall test_ok tests_with_failure /\
  exists s' a', run_tests 0 tests_with_failure 0 harness_setup = Ret (0 + tests_passed tests_with_failure, s') /\
    stdout (libc_of s') = stdout (libc_of harness_setup) +:+ tests_output 0 tests_with_failure /\
    a_probes (tests_trace tests_with_failure) (abs_of harness_setup) = inr a' /\ abs s' = Some a' /\ inv s'.
Proof.
  assert (Hinv : inv harness_setup) by exact (reachable_inv_step _ harness_setup_reachable).
  assert (Ha : abs harness_setup = Some (abs_of harness_setup)) by (vm_compute; reflexivity).
  assert (H0 : shape (abs_of harness_setup) !! 0%nat = Some 3%nat) by (vm_compute; reflexivity).
  assert (H1 : shape (abs_of harness_setup) !! 1%nat = Some 1%nat) by (vm_compute; reflexivity).
  assert (Hok : Forall test_ok tests_with_failure) by decide_by_eval.
  split_and!; [exact Hinv | exact Ha | exact H0 | exact H1 | exact Hok |].
  exact (run_tests_coverage 0 tests_with_failure 0 harness_setup _ Hinv Ha H0 H1 Hok).
Defined.

(** The third allocation request (the context array of the first table)
    fails. *)
Lemma main_allocation_plans_witness :
  allocs_succeed 6 (libc_of (pstate_init [])) /\
  (exists s', main (pstate_init []) = Ret (0, s') /\ stdout (libc_of s') = main_stdout /\
     stderr (libc_of s') = EmptyString /\ wild (libc_of s') = [memset_msg]) /\
  ~ allocs_succeed 6 (libc_of (pstate_init [true; true; false])) /\
  exists f, main (pstate_init [true; true; false]) = Fault f.
Proof.
  assert (Hok : allocs_succeed 6 (libc_of (pstate_init []))) by decide_by_eval.
  assert (Hko : ~ allocs_succeed 6 (libc_of (pstate_init [true; true; false]))) by decide_by_eval.
  split_and!; [exact Hok | exact (proj1 (main_allocation_plans []) Hok) | exact Hko |].
  exact (proj2 (main_allocation_plans _) Hko).
Defined.
